(** * aare: extraction, derivation and formula evaluation of [LLMParser]

    A shallow embedding of [src/aare_core/llm_parser.py] (class [LLMParser])
    and of the built-in ontology of [handlers/ontology_loader.py], followed by
    the properties of the specification that are settled on it.

    Conventions of the embedding.
    - Python values are the inductive type [Py.value]; an [ExtractionResult]
      dataclass instance is the constructor [VResult].
    - A Python call that can raise is a function into [Py.result]; [Raise e]
      is an exception that propagates to the caller.
    - [str] is [string]: text is taken to be ASCII, one character per code
      point, so that [str.lower], [str.find] and slicing are byte-wise.
    - [float] is the kernel's binary64 type, so literals such as [0.95] and
      products such as [5.0 * 1000] are the IEEE values Python computes.
    - The [re] module is a parameter (a regex type with [compile], [search]
      and [findall]); nothing is assumed about the patterns it accepts. *)

From Stdlib Require Import ZArith Floats Ascii String List Bool Lia.
From stdpp Require Import base strings gmap list.
From stdpp Require Import sorting.

Set Warnings "-inexact-float".

(** ** The Python runtime: exceptions, strings, numbers *)

Module Py.

Inductive exn : Set :=
| ValueError | TypeError | KeyError | IndexError
| AttributeError | OverflowError | ZeroDivisionError.

Inductive result (A : Type) : Type :=
| Ok (a : A)
| Raise (e : exn).
Arguments Ok {A} a.
Arguments Raise {A} e.

Definition bind {A B : Type} (m : result A) (k : A → result B) : result B :=
  match m with
  | Ok a => k a
  | Raise e => Raise e
  end.

(** [try: m except Exception: h] *)
Definition catch {A : Type} (m : result A) (h : exn → result A) : result A :=
  match m with
  | Ok a => Ok a
  | Raise e => h e
  end.

(** *** Characters and strings *)

Definition code (a : ascii) : N := N_of_ascii a.

Definition is_upper (a : ascii) : bool := ((65 <=? code a) && (code a <=? 90))%N.
Definition is_digit (a : ascii) : bool := ((48 <=? code a) && (code a <=? 57))%N.

(** [str.isspace] on ASCII: TAB..CR, FS..US and the space. *)
Definition is_space (a : ascii) : bool :=
  (((9 <=? code a) && (code a <=? 13)) || ((28 <=? code a) && (code a <=? 32)))%N.

Definition lower_char (a : ascii) : ascii :=
  if is_upper a then ascii_of_N (code a + 32) else a.

(** [s.lower()] *)
Fixpoint str_lower (s : string) : string :=
  match s with
  | EmptyString => EmptyString
  | String a s' => String (lower_char a) (str_lower s')
  end.

(** [sub in s] *)
Fixpoint str_in (sub s : string) : bool :=
  if String.prefix sub s then true
  else match s with
       | EmptyString => false
       | String _ s' => str_in sub s'
       end.

(** [s.find(sub)]: the lowest index of [sub] in [s], or [-1]. *)
Fixpoint str_find (sub s : string) : Z :=
  if String.prefix sub s then 0%Z
  else match s with
       | EmptyString => (-1)%Z
       | String _ s' =>
           let i := str_find sub s' in
           if (i <? 0)%Z then (-1)%Z else (i + 1)%Z
       end.

Definition str_len (s : string) : Z := Z.of_nat (String.length s).

(** A slice bound, as [PySlice_AdjustIndices] clamps it. *)
Definition slice_index (len i : Z) : Z :=
  if (i <? 0)%Z then Z.max 0 (i + len) else Z.min i len.

(** [s[a:b]] *)
Definition str_slice (s : string) (a b : Z) : string :=
  let a' := slice_index (str_len s) a in
  let b' := slice_index (str_len s) b in
  String.substring (Z.to_nat a') (Z.to_nat (b' - a')) s.

Fixpoint str_lstrip (s : string) : string :=
  match s with
  | EmptyString => EmptyString
  | String a s' => if is_space a then str_lstrip s' else s
  end.

Fixpoint str_rstrip (s : string) : string :=
  match s with
  | EmptyString => EmptyString
  | String a s' =>
      match str_rstrip s' with
      | EmptyString => if is_space a then EmptyString else String a EmptyString
      | r => String a r
      end
  end.

(** [s.strip()] *)
Definition str_strip (s : string) : string := str_rstrip (str_lstrip s).

(** [s.replace(c, '')] for a one-character [c] *)
Fixpoint str_remove (c : ascii) (s : string) : string :=
  match s with
  | EmptyString => EmptyString
  | String a s' => if Ascii.eqb a c then str_remove c s' else String a (str_remove c s')
  end.

(** [s.split()]: the maximal runs of non-space characters. *)
Fixpoint str_split_go (cur : option string) (s : string) : list string :=
  match s with
  | EmptyString => match cur with Some w => [w] | None => [] end
  | String a s' =>
      if is_space a then
        match cur with
        | Some w => w :: str_split_go None s'
        | None => str_split_go None s'
        end
      else
        str_split_go
          (Some (match cur with
                 | Some w => w +:+ String a EmptyString
                 | None => String a EmptyString
                 end)) s'
  end.
Definition str_split (s : string) : list string := str_split_go None s.

(** [re.split('[...]', s)] for a one-character class [p]. *)
Fixpoint str_split_on (p : ascii → bool) (s : string) : list string :=
  match s with
  | EmptyString => [EmptyString]
  | String a s' =>
      if p a then EmptyString :: str_split_on p s'
      else match str_split_on p s' with
           | w :: ws => String a w :: ws
           | [] => [String a EmptyString]
           end
  end.

Fixpoint str_all (p : ascii → bool) (s : string) : bool :=
  match s with
  | EmptyString => true
  | String a s' => p a && str_all p s'
  end.

Fixpoint str_any (p : ascii → bool) (s : string) : bool :=
  match s with
  | EmptyString => false
  | String a s' => p a || str_any p s'
  end.

(** *** Numbers read from and written to text *)

Definition digit_val (a : ascii) : Z := (Z.of_N (code a) - 48)%Z.

(** The rest of a [digitpart] after one digit: digits, each optionally
    preceded by a single underscore.  Returns the accumulated value, the
    number of digits read and what is left. *)
Fixpoint scan_digits (acc : Z) (n : nat) (s : string) : Z * nat * string :=
  match s with
  | EmptyString => (acc, n, s)
  | String a s' =>
      if is_digit a then scan_digits (10 * acc + digit_val a)%Z (S n) s'
      else if Ascii.eqb a "_" then
        match s' with
        | String b s'' =>
            if is_digit b then scan_digits (10 * acc + digit_val b)%Z (S n) s''
            else (acc, n, s)
        | EmptyString => (acc, n, s)
        end
      else (acc, n, s)
  end.

Definition scan_digitpart (acc : Z) (s : string) : option (Z * nat * string) :=
  match s with
  | String a s' =>
      if is_digit a then Some (scan_digits (10 * acc + digit_val a)%Z 1 s') else None
  | EmptyString => None
  end.

(** An optional sign: [(negative, rest)]. *)
Definition scan_sign (s : string) : bool * string :=
  match s with
  | String "+" r => (false, r)
  | String "-" r => (true, r)
  | _ => (false, s)
  end.

(** [int(s)] in base 10. *)
Definition py_int (s : string) : result Z :=
  let '(neg, r) := scan_sign (str_strip s) in
  match scan_digitpart 0 r with
  | Some (v, _, EmptyString) => Ok (if neg then (- v)%Z else v)
  | _ => Raise ValueError
  end.

Definition float_of_SF (x : spec_float) : float := SF2Prim x.

(** The binary64 nearest to the integer [z] (ties to even). *)
Definition round_Z (z : Z) : float :=
  float_of_SF (binary_normalize prec emax z 0 false).

(** The binary64 nearest to [(-1)^neg * m / d], for [m, d > 0]. *)
Definition round_ratio (neg : bool) (m d : positive) : float :=
  float_of_SF (SFdiv prec emax (S754_finite neg m 0) (S754_finite false d 0)).

(** The binary64 nearest to [(-1)^neg * m * 10^e]. *)
Definition round_decimal (neg : bool) (m e : Z) : float :=
  match m with
  | Zpos p =>
      if (0 <=? e)%Z then round_Z ((if neg then -1 else 1) * (m * 10 ^ e))%Z
      else round_ratio neg p (Z.to_pos (10 ^ (- e)))
  | _ => if neg then (-0)%float else 0%float
  end.

(** The exponent part of a float literal: nothing, or [e[sign]digitpart]
    up to the end of the text. *)
Definition scan_exponent (s : string) : option Z :=
  match s with
  | EmptyString => Some 0%Z
  | String a r =>
      if Ascii.eqb (lower_char a) "e" then
        let '(neg, r') := scan_sign r in
        match scan_digitpart 0 r' with
        | Some (v, _, EmptyString) => Some (if neg then (- v)%Z else v)
        | _ => None
        end
      else None
  end.

(** [float(s)]: [[sign] (inf | infinity | nan | decimal [exponent])]. *)
Definition py_float (s : string) : result float :=
  let '(neg, r) := scan_sign (str_strip s) in
  let low := str_lower r in
  if String.eqb low "inf" || String.eqb low "infinity" then
    Ok (if neg then neg_infinity else infinity)
  else if String.eqb low "nan" then Ok nan
  else
    let '(ipart, has_int, r1) :=
      match scan_digitpart 0 r with
      | Some (v, _, r1) => (v, true, r1)
      | None => (0%Z, false, r)
      end in
    let '(mant, nfrac, has_frac, r2) :=
      match r1 with
      | String "." r' =>
          match scan_digitpart ipart r' with
          | Some (v, k, r2) => (v, k, true, r2)
          | None => (ipart, 0%nat, false, r')
          end
      | _ => (ipart, 0%nat, false, r1)
      end in
    if has_int || has_frac then
      match scan_exponent r2 with
      | Some e => Ok (round_decimal neg mant (e - Z.of_nat nfrac))
      | None => Raise ValueError
      end
    else Raise ValueError.

(** [int(f)] for a float: truncation toward zero. *)
Definition py_int_of_float (f : float) : result Z :=
  match Prim2SF f with
  | S754_nan => Raise ValueError
  | S754_infinity _ => Raise OverflowError
  | S754_zero _ => Ok 0%Z
  | S754_finite s m e =>
      let a := if (0 <=? e)%Z then (Zpos m * 2 ^ e)%Z else (Zpos m / 2 ^ (- e))%Z in
      Ok (if s then (- a)%Z else a)
  end.

(** The decimal digits of a natural number, most significant first. *)
Definition digit_char (d : Z) : ascii := ascii_of_N (Z.to_N (48 + d)).

Fixpoint dec_digits (fuel : nat) (n : Z) (acc : string) : string :=
  match fuel with
  | O => acc
  | S fuel' =>
      let acc' := String (digit_char (n mod 10)) acc in
      if (n <? 10)%Z then acc' else dec_digits fuel' (n / 10) acc'
  end.

(** [str(z)] and [f"{z}"] *)
Definition str_of_Z (z : Z) : string :=
  let a := Z.abs z in
  let ds := dec_digits (S (Z.to_nat (Z.log2 a))) a EmptyString in
  if (z <? 0)%Z then String "-" ds else ds.

(** [f"{z:02d}"]: zero padding to width 2, the sign counted in the width. *)
Definition fmt_02d (z : Z) : string :=
  if (z <? 0)%Z then str_of_Z z
  else if (z <? 10)%Z then String "0" (str_of_Z z)
  else str_of_Z z.

(** *** Values *)

(** A Python object: [None], [bool], [int], [float], [str], [list], a [dict]
    with string keys (in insertion order, keys distinct), or an
    [ExtractionResult(value, confidence, source, extractor_type)]. *)
#[local] Unset Elimination Schemes.
Inductive value : Type :=
| VNone
| VBool (b : bool)
| VInt (z : Z)
| VFloat (f : float)
| VStr (s : string)
| VList (l : list value)
| VDict (d : list (string * value))
| VResult (v : value) (confidence : float) (source : string)
    (extractor_type : option string).
#[local] Set Elimination Schemes.

(** [bool(v)] *)
Definition py_truthy (v : value) : bool :=
  match v with
  | VNone => false
  | VBool b => b
  | VInt z => negb (z =? 0)%Z
  | VFloat f => negb (PrimFloat.eqb f 0)
  | VStr s => negb (String.eqb s EmptyString)
  | VList l => match l with [] => false | _ => true end
  | VDict d => match d with [] => false | _ => true end
  | VResult _ _ _ _ => true
  end.

Definition is_none (v : value) : bool := match v with VNone => true | _ => false end.
Definition is_str (v : value) : bool := match v with VStr _ => true | _ => false end.
Definition is_list (v : value) : bool := match v with VList _ => true | _ => false end.
Definition is_dict (v : value) : bool := match v with VDict _ => true | _ => false end.

(** [v is True] *)
Definition is_True (v : value) : bool := match v with VBool true => true | _ => false end.
(** [v is False] *)
Definition is_False (v : value) : bool := match v with VBool false => true | _ => false end.

(** Lists, dicts and (non-frozen) dataclass instances are unhashable. *)
Definition py_hashable (v : value) : bool :=
  match v with
  | VList _ | VDict _ | VResult _ _ _ _ => false
  | _ => true
  end.

(** [len(v)] *)
Definition py_len (v : value) : result Z :=
  match v with
  | VStr s => Ok (str_len s)
  | VList l => Ok (Z.of_nat (length l))
  | VDict d => Ok (Z.of_nat (length d))
  | _ => Raise TypeError
  end.

(** [v[i]] for a non-negative integer [i]. *)
Definition py_getitem (v : value) (i : nat) : result value :=
  match v with
  | VList l => match l !! i with Some x => Ok x | None => Raise IndexError end
  | VStr s => match String.get i s with
              | Some a => Ok (VStr (String a EmptyString))
              | None => Raise IndexError
              end
  | VDict _ => Raise KeyError
  | _ => Raise TypeError
  end.

(** *** Arithmetic and comparison *)

(** The numeric view of a value: [bool] is a subclass of [int]. *)
Inductive num : Set := NInt (z : Z) | NFloat (f : float).

Definition as_num (v : value) : option num :=
  match v with
  | VBool b => Some (NInt (Z.b2z b))
  | VInt z => Some (NInt z)
  | VFloat f => Some (NFloat f)
  | _ => None
  end.

(** [isinstance(v, (int, float))] *)
Definition is_number (v : value) : bool :=
  match as_num v with Some _ => true | None => false end.

Definition to_float (n : num) : result float :=
  match n with
  | NFloat f => Ok f
  | NInt z => let f := round_Z z in
              if is_infinity f then Raise OverflowError else Ok f
  end.

Definition float_op (op : float → float → float) (a b : num) : result value :=
  bind (to_float a) (λ fa, bind (to_float b) (λ fb, Ok (VFloat (op fa fb)))).

(** [v + w] *)
Definition py_add (v w : value) : result value :=
  match as_num v, as_num w with
  | Some (NInt a), Some (NInt b) => Ok (VInt (a + b))
  | Some a, Some b => float_op PrimFloat.add a b
  | _, _ =>
      match v, w with
      | VStr a, VStr b => Ok (VStr (a +:+ b))
      | VList a, VList b => Ok (VList (a ++ b))
      | _, _ => Raise TypeError
      end
  end.

Fixpoint str_repeat (n : nat) (s : string) : string :=
  match n with O => EmptyString | S n' => s +:+ str_repeat n' s end.

Definition seq_repeat (n : Z) (v : value) : option value :=
  match v with
  | VStr s => Some (VStr (str_repeat (Z.to_nat n) s))
  | VList l => Some (VList (concat (repeat l (Z.to_nat n))))
  | _ => None
  end.

(** [v * w] *)
Definition py_mul (v w : value) : result value :=
  match as_num v, as_num w with
  | Some (NInt a), Some (NInt b) => Ok (VInt (a * b))
  | Some a, Some b => float_op PrimFloat.mul a b
  | Some (NInt a), None =>
      match seq_repeat a w with Some r => Ok r | None => Raise TypeError end
  | None, Some (NInt b) =>
      match seq_repeat b v with Some r => Ok r | None => Raise TypeError end
  | _, _ => Raise TypeError
  end.

(** [v / w] *)
Definition py_truediv (v w : value) : result value :=
  match as_num v, as_num w with
  | Some (NInt a), Some (NInt b) =>
      match a, b with
      | _, Z0 => Raise ZeroDivisionError
      | Z0, _ => Ok (VFloat (if (b <? 0)%Z then (-0)%float else 0%float))
      | _, _ =>
          let f := round_ratio (xorb (a <? 0)%Z (b <? 0)%Z)
                     (Z.to_pos (Z.abs a)) (Z.to_pos (Z.abs b)) in
          if is_infinity f then Raise OverflowError else Ok (VFloat f)
      end
  | Some a, Some b =>
      bind (to_float a) (λ fa, bind (to_float b) (λ fb,
        if PrimFloat.eqb fb 0 then Raise ZeroDivisionError
        else Ok (VFloat (PrimFloat.div fa fb))))
  | _, _ => Raise TypeError
  end.

(** The exact order of an integer and a float; [None] for a NaN. *)
Definition int_float_compare (z : Z) (f : float) : option comparison :=
  match Prim2SF f with
  | S754_nan => None
  | S754_infinity s => Some (if s then Gt else Lt)
  | S754_zero _ => Some (z ?= 0)%Z
  | S754_finite s m e =>
      let fm := if s then Zneg m else Zpos m in
      Some (if (0 <=? e)%Z then (z ?= fm * 2 ^ e)%Z else (z * 2 ^ (- e) ?= fm)%Z)
  end.

Definition num_compare (a b : num) : option comparison :=
  match a, b with
  | NInt x, NInt y => Some (x ?= y)%Z
  | NFloat f, NFloat g =>
      match PrimFloat.compare f g with
      | FEq => Some Eq | FLt => Some Lt | FGt => Some Gt
      | FNotComparable => None
      end
  | NInt x, NFloat g => int_float_compare x g
  | NFloat f, NInt y => option_map CompOpp (int_float_compare y f)
  end.

Inductive cmpop : Set := OpLt | OpLe | OpGt | OpGe.

(** The truth of [a op b] given their order; nothing holds of a NaN. *)
Definition cmp_holds (op : cmpop) (c : option comparison) : bool :=
  match c, op with
  | Some Lt, (OpLt | OpLe) => true
  | Some Eq, (OpLe | OpGe) => true
  | Some Gt, (OpGt | OpGe) => true
  | _, _ => false
  end.

Fixpoint assoc {A : Type} (k : string) (d : list (string * A)) : option A :=
  match d with
  | [] => None
  | (k', x) :: r => if String.eqb k k' then Some x else assoc k r
  end.

(** [v == w] *)
Fixpoint py_eq (v w : value) {struct v} : bool :=
  match v, w with
  | VNone, VNone => true
  | VStr a, VStr b => String.eqb a b
  | VList l, VList l' =>
      (fix go (l l' : list value) {struct l} : bool :=
         match l, l' with
         | [], [] => true
         | x :: xs, y :: ys => py_eq x y && go xs ys
         | _, _ => false
         end) l l'
  | VDict d, VDict d' =>
      (length d =? length d')%nat &&
      (fix go (d : list (string * value)) {struct d} : bool :=
         match d with
         | [] => true
         | (k, x) :: r =>
             match assoc k d' with Some y => py_eq x y | None => false end && go r
         end) d
  | VResult a c s t, VResult a' c' s' t' =>
      py_eq a a' && PrimFloat.eqb c c' && String.eqb s s'
      && bool_decide (t = t')
  | _, _ =>
      match as_num v, as_num w with
      | Some a, Some b => match num_compare a b with Some Eq => true | _ => false end
      | _, _ => false
      end
  end.

(** [v op w] for [<], [<=], [>], [>=]: numbers by value, strings and lists
    lexicographically, [TypeError] otherwise. *)
Fixpoint py_richcmp (op : cmpop) (v w : value) {struct v} : result bool :=
  match v, w with
  | VStr a, VStr b => Ok (cmp_holds op (Some (String.compare a b)))
  | VList l, VList l' =>
      (fix go (l l' : list value) {struct l} : result bool :=
         match l, l' with
         | x :: xs, y :: ys => if py_eq x y then go xs ys else py_richcmp op x y
         | [], [] => Ok (cmp_holds op (Some Eq))
         | [], _ :: _ => Ok (cmp_holds op (Some Lt))
         | _ :: _, [] => Ok (cmp_holds op (Some Gt))
         end) l l'
  | _, _ =>
      match as_num v, as_num w with
      | Some a, Some b => Ok (cmp_holds op (num_compare a b))
      | _, _ => Raise TypeError
      end
  end.

End Py.
Import Py.

(** ** The formula interpreter ([LLMParser._evaluate_formula]) *)

(** [Facts]: the [extracted] dict of the parser, field name to value.  The
    properties below never depend on the insertion order of the dict. *)
Abbreviation facts := (gmap string value).

Definition unwrap_result (include_confidence : bool) (val : value) : value :=
  match val with
  | VResult v _ _ _ => if include_confidence then v else val
  | _ => val
  end.

(** The closure [get_value(field, default)] of [_calculate_computed_fields]
    and [_calculate_derived_fields]: [extracted.get(field, default)], unwrapped
    from its [ExtractionResult] in confidence mode.  [dict.get] raises
    [TypeError] on an unhashable key. *)
Definition get_value (include_confidence : bool) (extracted : facts)
    (field dflt : value) : result value :=
  match field with
  | VStr k => Ok (unwrap_result include_confidence (default dflt (extracted !! k)))
  | _ => if py_hashable field then Ok (unwrap_result include_confidence dflt)
         else Raise TypeError
  end.

(** [for x in l: ys.append(f(x))], stopping at the first exception. *)
Definition mapM {A B : Type} (f : A → result B) : list A → result (list B) :=
  fix go (l : list A) : result (list B) :=
    match l with
    | [] => Ok []
    | x :: r => bind (f x) (λ y, bind (go r) (λ ys, Ok (y :: ys)))
    end.

(** [for x in l: acc = f(acc, x)], stopping at the first exception. *)
Definition foldM {A B : Type} (f : B → A → result B) : list A → B → result B :=
  fix go (l : list A) (acc : B) : result B :=
    match l with
    | [] => Ok acc
    | x :: r => bind (f acc x) (go r)
    end.

(** The items a [for] loop over [v] visits ([len(v)] was taken before, so
    [v] is a list, a string or a dict). *)
Definition py_iter (v : value) : result (list value) :=
  match v with
  | VList l => Ok l
  | VStr s => Ok (map (λ a, VStr (String a EmptyString)) (list_ascii_of_string s))
  | VDict d => Ok (map (λ kv, VStr kv.1) d)
  | _ => Raise TypeError
  end.

Definition op_in (op : string) (names : list string) : bool :=
  existsb (String.eqb op) names.

(** [args if isinstance(args, list) else [args]] *)
Definition as_fields (args : value) : list value :=
  match args with VList l => l | _ => [args] end.

(** [get_value(a) if isinstance(a, str) else a] *)
Definition operand (gv : value → value → result value) (a : value) : result value :=
  if is_str a then gv a VNone else Ok a.

(** [any(v for v in values if v is not None)] *)
Definition py_any_notnone (values : list value) : bool :=
  existsb py_truthy (filter (λ v, negb (is_none v)) values).
(** [all(v for v in values if v is not None)] *)
Definition py_all_notnone (values : list value) : bool :=
  forallb py_truthy (filter (λ v, negb (is_none v)) values).

Definition cmpop_of (op : string) : option cmpop :=
  if op_in op ["gt"; ">"] then Some OpGt
  else if op_in op ["gte"; ">="] then Some OpGe
  else if op_in op ["lt"; "<"] then Some OpLt
  else if op_in op ["lte"; "<="] then Some OpLe
  else None.

(** The comparison branches: [left op right] unless a side is [None]. *)
Definition compare_args (gv : value → value → result value) (c : cmpop)
    (args : value) : result value :=
  bind (py_len args) (λ n,
    if (n =? 2)%Z then
      bind (py_getitem args 0) (λ a0, bind (operand gv a0) (λ left,
      bind (py_getitem args 1) (λ a1, bind (operand gv a1) (λ right,
        if negb (is_none left) && negb (is_none right)
        then bind (py_richcmp c left right) (λ b, Ok (VBool b))
        else Ok VNone))))
    else Ok VNone).

(** [sum(values)] *)
Definition py_sum (values : list value) : result value :=
  foldM py_add values (VInt 0).
(** [result = 1; for v in values: result *= v] *)
Definition py_product (values : list value) : result value :=
  foldM py_mul values (VInt 1).

Definition arith_result (is_add : bool) (values : list value) : result value :=
  if forallb (λ v, negb (is_none v)) values then
    if is_add then py_sum values else py_product values
  else Ok VNone.

(** One argument of an operator that accepts nested formulas:
    [self(f) if isinstance(f, dict) else leaf(f)]. *)
Definition eval_item (self leaf : value → result value) (f : value) : result value :=
  if is_dict f then self f else leaf f.

(** The evaluated items of [args if isinstance(args, list) else [args]]. *)
Definition over_fields (self leaf : value → result value) (args : value)
    : result (list value) :=
  match args with
  | VList l => mapM (eval_item self leaf) l
  | _ => bind (eval_item self leaf args) (λ v, Ok [v])
  end.

(** The evaluated items of [for a in args] in [add] and [mul]: a nested
    formula is evaluated, a string is looked up, anything else is itself. *)
Definition over_args (self : value → result value)
    (gv : value → value → result value) (args : value) : result (list value) :=
  match args with
  | VList l => mapM (eval_item self (operand gv)) l
  | _ => bind (py_iter args) (mapM (operand gv))
  end.

(** The [if] branch: only the condition goes through [self]. *)
Definition if_args (self : value → result value)
    (gv : value → value → result value) (args : value) : result value :=
  bind (py_len args) (λ n,
    if (n =? 3)%Z then
      bind (match args with
            | VList (condition :: _) => eval_item self (operand gv) condition
            | _ => bind (py_getitem args 0) (operand gv)
            end) (λ cond_result,
        if py_truthy cond_result
        then bind (py_getitem args 1) (operand gv)
        else bind (py_getitem args 2) (operand gv))
    else Ok VNone).

Fixpoint _evaluate_formula (formula : value) (extracted : facts)
    (get_value : value → value → result value) {struct formula} : result value :=
  match formula with
  | VDict [(op, args)] =>
      if String.eqb op "count_true" then
        bind (foldM (λ n f, bind (get_value f (VBool false))
                              (λ v, Ok (if is_True v then n + 1 else n)%Z))
                (as_fields args) 0%Z)
             (λ n, Ok (VInt n))
      else if String.eqb op "count_fields" then
        bind (foldM (λ n f, bind (get_value f VNone)
                              (λ v, Ok (if is_none v then n else n + 1)%Z))
                (as_fields args) 0%Z)
             (λ n, Ok (VInt n))
      else if String.eqb op "sum" then
        foldM (λ total f,
                 bind (if is_str f then get_value f (VInt 0) else Ok f)
                   (λ val, if is_number val then py_add total val else Ok total))
          (as_fields args) (VInt 0)
      else if String.eqb op "any" then
        bind (over_fields (λ f, _evaluate_formula f extracted get_value)
                (λ f, get_value f (VBool false)) args)
             (λ values, Ok (VBool (py_any_notnone values)))
      else if String.eqb op "all" then
        bind (over_fields (λ f, _evaluate_formula f extracted get_value)
                (λ f, get_value f (VBool false)) args)
             (λ values, Ok (VBool (py_all_notnone values)))
      else match cmpop_of op with
      | Some c => compare_args get_value c args
      | None =>
      if op_in op ["add"; "+"] then
        bind (py_len args) (λ n,
          if (2 <=? n)%Z then
            bind (over_args (λ f, _evaluate_formula f extracted get_value) get_value args)
                 (arith_result true)
          else Ok VNone)
      else if op_in op ["mul"; "*"] then
        bind (py_len args) (λ n,
          if (2 <=? n)%Z then
            bind (over_args (λ f, _evaluate_formula f extracted get_value) get_value args)
                 (arith_result false)
          else Ok VNone)
      else if String.eqb op "if" then
        if_args (λ f, _evaluate_formula f extracted get_value) get_value args
      else if String.eqb op "not" then
        bind (eval_item (λ f, _evaluate_formula f extracted get_value)
                (operand get_value) args)
             (λ val, Ok (if is_none val then VNone else VBool (negb (py_truthy val))))
      else if String.eqb op "and" then
        bind (over_fields (λ f, _evaluate_formula f extracted get_value)
                (operand get_value) args)
             (λ results, Ok (match results with
                             | [] => VNone
                             | _ => VBool (py_all_notnone results)
                             end))
      else if String.eqb op "or" then
        bind (over_fields (λ f, _evaluate_formula f extracted get_value)
                (operand get_value) args)
             (λ results, Ok (match results with
                             | [] => VNone
                             | _ => VBool (py_any_notnone results)
                             end))
      else Ok VNone
      end
  | _ => Ok VNone
  end.

(** [LLMParser._extract_formula_dependencies] *)
Fixpoint _extract_formula_dependencies (formula : value) : gset string :=
  match formula with
  | VStr s => {[ s ]}
  | VDict d =>
      ⋃ (map (λ kv : string * value,
                match kv.2 with
                | VList l => ⋃ (map _extract_formula_dependencies l)
                | _ => _extract_formula_dependencies kv.2
                end) d)
  | _ => ∅
  end.

(** ** Extractors *)

(** The keyword(s) of one enum choice: a string or a list of strings. *)
Inductive choice_keywords : Type :=
| KwOne (kw : string)
| KwMany (kws : list string).

(** An extractor of the ontology, as [LLMParser] reads it: every field is
    what [extractor.get(key, default)] returns ([None] for an absent key;
    an absent [default] or [formula] is [VNone]). *)
Record extractor : Type := mkExtractor {
  ex_type : option string;
  ex_computed : bool;
  ex_pattern : option string;
  ex_format : option string;
  ex_keywords : list string;
  ex_negation_words : list string;
  ex_check_negation : bool;
  ex_item_type : string;
  ex_choices : list (string * choice_keywords);
  ex_default : value;
  ex_formula : value
}.

Definition type_is (ex : extractor) (ty : string) : bool :=
  bool_decide (ex_type ex = Some ty).

(** [extractor.get('pattern')] when it is truthy. *)
Definition truthy_pattern (ex : extractor) : option string :=
  match ex_pattern ex with
  | Some p => if String.eqb p EmptyString then None else Some p
  | None => None
  end.

(** ** Computed fields ([LLMParser._calculate_computed_fields]) *)

(** The closures [set_computed] and [set_derived]. *)
Definition set_computed (include_confidence : bool) (extracted : facts)
    (field : string) (v : value) : facts :=
  if include_confidence
  then <[field := VResult v 1%float "computed" (Some "computed")]> extracted
  else <[field := v]> extracted.

Definition set_default (include_confidence : bool) (extracted : facts)
    (field : string) (dflt : value) : facts :=
  if is_none dflt then extracted
  else set_computed include_confidence extracted field dflt.

(** The body of [for field_name, extractor in remaining.items()]: the state
    is [extracted] and [computed_this_pass]. *)
Definition settle_field (include_confidence : bool) (computed_names : gset string)
    (st : facts * list string) (item : string * extractor) : facts * list string :=
  let '(extracted, computed_this_pass) := st in
  let '(field_name, ex) := item in
  let formula := ex_formula ex in
  let dflt := ex_default ex in
  if negb (py_truthy formula) then
    (set_default include_confidence extracted field_name dflt,
     computed_this_pass ++ [field_name])
  else
    let deps := _extract_formula_dependencies formula in
    let uncomputed_deps := deps ∩ (computed_names ∖ dom extracted) in
    if bool_decide (uncomputed_deps ≠ ∅) then st
    else
      match _evaluate_formula formula extracted
              (get_value include_confidence extracted) with
      | Ok r =>
          ((if negb (is_none r)
            then set_computed include_confidence extracted field_name r
            else set_default include_confidence extracted field_name dflt),
           computed_this_pass ++ [field_name])
      | Raise _ =>
          (set_default include_confidence extracted field_name dflt,
           computed_this_pass ++ [field_name])
      end.

(** One pass of the [while] loop. *)
Definition settle_pass (include_confidence : bool) (computed_names : gset string)
    (remaining : list (string * extractor)) (extracted : facts)
    : facts * list (string * extractor) :=
  let '(extracted', computed_this_pass) :=
    foldl (settle_field include_confidence computed_names) (extracted, []) remaining in
  (extracted',
   filter (λ item : string * extractor,
             negb (existsb (String.eqb item.1) computed_this_pass)) remaining).

(** [while remaining and iteration < max_iterations].  The result carries
    the final [remaining] and [iteration] besides [extracted]; [fuel] bounds
    the recursion and [max_iterations] passes never exhaust it when it
    starts at [max_iterations - iteration]. *)
Fixpoint settle_loop (fuel : nat) (include_confidence : bool)
    (computed_names : gset string) (max_iterations iteration : nat)
    (remaining : list (string * extractor)) (extracted : facts)
    : facts * list (string * extractor) * nat :=
  match fuel with
  | O => (extracted, remaining, iteration)
  | S fuel' =>
      if negb (bool_decide (remaining = [])) && (iteration <? max_iterations)%nat then
        let '(extracted', remaining') :=
          settle_pass include_confidence computed_names remaining extracted in
        settle_loop fuel' include_confidence computed_names max_iterations
          (S iteration) remaining' extracted'
      else (extracted, remaining, iteration)
  end.

Definition settle (include_confidence : bool) (extracted : facts)
    (computed_extractors : list (string * extractor))
    : facts * list (string * extractor) * nat :=
  let computed_names : gset string := list_to_set (map fst computed_extractors) in
  let max_iterations := (length computed_extractors + 1)%nat in
  settle_loop max_iterations include_confidence computed_names max_iterations 0
    computed_extractors extracted.

Definition _calculate_computed_fields (extracted : facts) (text_lower : string)
    (computed_extractors : list (string * extractor)) (include_confidence : bool)
    : facts :=
  (settle include_confidence extracted computed_extractors).1.1.

(** ** Built-in derivations ([LLMParser._calculate_derived_fields]) *)

Definition _calculate_derived_fields (extracted : facts) (text_lower : string)
    (include_confidence : bool) : result facts :=
  bind (get_value include_confidence extracted (VStr "fees") VNone) (λ fees,
  bind (get_value include_confidence extracted (VStr "loan_amount") VNone) (λ loan_amount,
  bind (if negb (is_none fees) && negb (is_none loan_amount)
        then bind (py_richcmp OpGt loan_amount (VInt 0)) (λ positive,
               if positive then
                 bind (py_truediv fees loan_amount) (λ q,
                 bind (py_mul q (VInt 100)) (λ pct,
                   Ok (set_computed include_confidence extracted "fee_percentage" pct)))
               else Ok extracted)
        else Ok extracted) (λ extracted',
  let word_count := Z.of_nat (length (str_split text_lower)) in
  Ok (set_computed include_confidence extracted' "word_count" (VInt word_count))))).

(** ** Numeric extraction ([LLMParser._parse_numeric]) *)

(** A match object of [re]: the searched string, the span of the whole
    match, and the capture groups ([None]: the group did not take part). *)
Record re_match : Type := mkMatch {
  m_string : string;
  m_start : Z;
  m_end : Z;
  m_groups : list (option string)
}.

(** [match.group(0)] *)
Definition group0 (m : re_match) : string := str_slice (m_string m) (m_start m) (m_end m).

(** [match.group(1)]: [IndexError] when the pattern has no group. *)
Definition group1 (m : re_match) : result (option string) :=
  match m_groups m with
  | g :: _ => Ok g
  | [] => Raise IndexError
  end.

(** [match.group(1) if match.groups() else match.group(0)] *)
Definition group1_or_0 (m : re_match) : value :=
  match m_groups m with
  | Some g :: _ => VStr g
  | None :: _ => VNone
  | [] => VStr (group0 m)
  end.

Definition money_multiplier (match_text : string) : Z :=
  if str_in "k" match_text then 1000
  else if str_in "m" match_text then 1000000
  else if str_in "b" match_text then 1000000000
  else 1.

Definition _parse_numeric (m : re_match) (original_text : string)
    (value_type : string) : result value :=
  bind (group1 m) (λ g,
  match g with
  | None => Raise AttributeError
  | Some g1 =>
      let value_str := str_remove "," g1 in
      if String.eqb value_type "int" then
        bind (py_int value_str) (λ z, Ok (VInt z))
      else if String.eqb value_type "float" then
        bind (py_float value_str) (λ f, Ok (VFloat f))
      else if String.eqb value_type "percentage" then
        bind (py_float value_str) (λ f, Ok (VFloat f))
      else if String.eqb value_type "money" then
        let match_text := str_lower (str_slice original_text (m_start m) (m_end m)) in
        let multiplier := money_multiplier match_text in
        bind (py_float value_str) (λ f, py_mul (VFloat f) (VInt multiplier))
      else Ok VNone
  end).

(** ** Dates: [datetime.strptime] and [strftime] for the formats used *)

Record datetime : Set := mkDatetime {
  dt_year : Z; dt_month : Z; dt_day : Z;
  dt_hour : Z; dt_minute : Z; dt_second : Z
}.

Definition is_leap (y : Z) : bool :=
  ((y mod 4 =? 0) && (negb (y mod 100 =? 0) || (y mod 400 =? 0)))%Z.

Definition days_in_month (y m : Z) : Z :=
  if (m =? 2)%Z then (if is_leap y then 29 else 28)%Z
  else if ((m =? 4) || (m =? 6) || (m =? 9) || (m =? 11))%Z then 30%Z
  else 31%Z.

(** The range checks of the [datetime] constructor. *)
Definition valid_datetime (d : datetime) : bool :=
  ((1 <=? dt_year d) && (dt_year d <=? 9999) &&
   (1 <=? dt_month d) && (dt_month d <=? 12) &&
   (1 <=? dt_day d) && (dt_day d <=? days_in_month (dt_year d) (dt_month d)) &&
   (0 <=? dt_hour d) && (dt_hour d <=? 23) &&
   (0 <=? dt_minute d) && (dt_minute d <=? 59) &&
   (0 <=? dt_second d) && (dt_second d <=? 59))%Z.

(** One element of a format: a literal character, a run of whitespace
    (the regex [\s+]) or a directive [%c]. *)
Inductive fmt_item : Set :=
| FLit (a : ascii)
| FSpace
| FDir (c : ascii).

Fixpoint parse_format (fmt : string) : list fmt_item :=
  match fmt with
  | EmptyString => []
  | String "%" (String c r) => FDir c :: parse_format r
  | String a r =>
      if is_space a then
        match parse_format r with
        | FSpace :: items => FSpace :: items
        | items => FSpace :: items
        end
      else FLit a :: parse_format r
  end.

(** An alternative of a directive's regex: a sequence of character classes,
    or a word matched without regard to case. *)
Inductive alternative : Type :=
| AClasses (cs : list (ascii → bool))
| AWord (w : string).

Definition in_range (lo hi : ascii) (a : ascii) : bool :=
  ((code lo <=? code a) && (code a <=? code hi))%N.

Fixpoint match_classes (cs : list (ascii → bool)) (s : string) : option (string * string) :=
  match cs with
  | [] => Some (EmptyString, s)
  | c :: cs' =>
      match s with
      | String a s' =>
          if c a then
            match match_classes cs' s' with
            | Some (t, r) => Some (String a t, r)
            | None => None
            end
          else None
      | EmptyString => None
      end
  end.

Fixpoint match_word (w s : string) : option (string * string) :=
  match w with
  | EmptyString => Some (EmptyString, s)
  | String c w' =>
      match s with
      | String a s' =>
          if Ascii.eqb (lower_char a) (lower_char c) then
            match match_word w' s' with
            | Some (t, r) => Some (String a t, r)
            | None => None
            end
          else None
      | EmptyString => None
      end
  end.

Definition match_alternative (alt : alternative) (s : string) : option (string * string) :=
  match alt with
  | AClasses cs => match_classes cs s
  | AWord w => match_word w s
  end.

Definition month_names : list string :=
  ["january"; "february"; "march"; "april"; "may"; "june"; "july";
   "august"; "september"; "october"; "november"; "december"].
Definition month_abbrs : list string :=
  ["jan"; "feb"; "mar"; "apr"; "may"; "jun"; "jul"; "aug"; "sep"; "oct"; "nov"; "dec"].

(** The alternatives of each directive, in the order of [_strptime.TimeRE]
    (names longest first, as [__seqToRE] sorts them). *)
Definition directive_alternatives (c : ascii) : option (list alternative) :=
  let d := is_digit in
  match c with
  | "d"%char => Some [AClasses [in_range "3" "3"; in_range "0" "1"];
                      AClasses [in_range "1" "2"; d];
                      AClasses [in_range "0" "0"; in_range "1" "9"];
                      AClasses [in_range "1" "9"];
                      AClasses [in_range " " " "; in_range "1" "9"]]
  | "m"%char | "I"%char =>
               Some [AClasses [in_range "1" "1"; in_range "0" "2"];
                     AClasses [in_range "0" "0"; in_range "1" "9"];
                     AClasses [in_range "1" "9"]]
  | "Y"%char => Some [AClasses [d; d; d; d]]
  | "y"%char => Some [AClasses [d; d]]
  | "H"%char => Some [AClasses [in_range "2" "2"; in_range "0" "3"];
                      AClasses [in_range "0" "1"; d];
                      AClasses [d]]
  | "M"%char => Some [AClasses [in_range "0" "5"; d]; AClasses [d]]
  | "S"%char => Some [AClasses [in_range "6" "6"; in_range "0" "1"];
                      AClasses [in_range "0" "5"; d];
                      AClasses [d]]
  | "B"%char => Some (map AWord ["september"; "february"; "november"; "december";
                                 "january"; "october"; "august"; "march"; "april";
                                 "june"; "july"; "may"])
  | "b"%char => Some (map AWord month_abbrs)
  | "p"%char => Some [AWord "am"; AWord "pm"]
  | _ => None
  end.

Fixpoint first_some {A B : Type} (f : A → option B) (l : list A) : option B :=
  match l with
  | [] => None
  | x :: r => match f x with Some y => Some y | None => first_some f r end
  end.

(** What can follow a match of [\s+] at the head of [s], longest run first. *)
Fixpoint space_splits (s : string) : list string :=
  match s with
  | String a s' => if is_space a then space_splits s' ++ [s'] else []
  | EmptyString => []
  end.

(** [format_regex.match(data_string)]: the first way, in the backtracking
    order of [re], to match the items at the head of [s]; the groups found
    and the unmatched rest. *)
Fixpoint strptime_match (items : list fmt_item) (s : string)
    : option (list (ascii * string) * string) :=
  match items with
  | [] => Some ([], s)
  | FLit c :: r =>
      match s with
      | String a s' =>
          if Ascii.eqb (lower_char a) (lower_char c) then strptime_match r s' else None
      | EmptyString => None
      end
  | FSpace :: r => first_some (strptime_match r) (space_splits s)
  | FDir c :: r =>
      match directive_alternatives c with
      | None => None
      | Some alts =>
          first_some
            (λ alt, match match_alternative alt s with
                    | Some (t, rest) =>
                        match strptime_match r rest with
                        | Some (found, rest') => Some ((c, t) :: found, rest')
                        | None => None
                        end
                    | None => None
                    end) alts
      end
  end.

Fixpoint index_of (x : string) (l : list string) : option nat :=
  match l with
  | [] => None
  | y :: r => if String.eqb x y then Some O
              else match index_of x r with Some i => Some (S i) | None => None end
  end.

Definition int_or_0 (s : string) : Z :=
  match py_int s with Ok z => z | Raise _ => 0%Z end.

Definition month_of (names : list string) (t : string) : Z :=
  match index_of (str_lower t) names with
  | Some i => Z.of_nat (S i)
  | None => 0%Z
  end.

Fixpoint found_get (c : ascii) (found : list (ascii * string)) : option string :=
  match found with
  | [] => None
  | (c', t) :: r => if Ascii.eqb c c' then Some t else found_get c r
  end.

(** The loop [for group_key in found_dict.keys()] of [_strptime]. *)
Definition strptime_field (found : list (ascii * string)) (d : datetime)
    (item : ascii * string) : datetime :=
  let '(c, t) := item in
  let '(mkDatetime y mo da h mi se) := d in
  match c with
  | "y"%char => let yy := int_or_0 t in
                mkDatetime (if (yy <=? 68)%Z then yy + 2000 else yy + 1900)%Z mo da h mi se
  | "Y"%char => mkDatetime (int_or_0 t) mo da h mi se
  | "m"%char => mkDatetime y (int_or_0 t) da h mi se
  | "B"%char => mkDatetime y (month_of month_names t) da h mi se
  | "b"%char => mkDatetime y (month_of month_abbrs t) da h mi se
  | "d"%char => mkDatetime y mo (int_or_0 t) h mi se
  | "H"%char => mkDatetime y mo da (int_or_0 t) mi se
  | "I"%char =>
      let hour := int_or_0 t in
      let ampm := str_lower (default EmptyString (found_get "p" found)) in
      let hour' :=
        if String.eqb ampm EmptyString || String.eqb ampm "am"
        then (if (hour =? 12)%Z then 0%Z else hour)
        else if String.eqb ampm "pm"
        then (if (hour =? 12)%Z then hour else (hour + 12)%Z)
        else hour in
      mkDatetime y mo da hour' mi se
  | "M"%char => mkDatetime y mo da h (int_or_0 t) se
  | "S"%char => mkDatetime y mo da h mi (int_or_0 t)
  | _ => d
  end.

(** [datetime.strptime(data_string, format)]; [None] is [ValueError]. *)
Definition strptime (data_string format : string) : option datetime :=
  match strptime_match (parse_format format) data_string with
  | Some (found, EmptyString) =>
      let d := foldl (strptime_field found) (mkDatetime 1900 1 1 0 0 0) found in
      if valid_datetime d then Some d else None
  | _ => None
  end.

(** [dt.strftime('%Y-%m-%d')].  [%Y] is the year as the C library of the
    platform prints it: glibc writes the decimal number without padding, so
    that a year below 1000 comes out with fewer than four digits
    ([datetime(999, 1, 1)] gives [999-01-01]).  From the year 1000 on every
    C library writes the same four digits. *)
Definition strftime_date (d : datetime) : string :=
  str_of_Z (dt_year d) +:+ "-" +:+ fmt_02d (dt_month d) +:+ "-" +:+ fmt_02d (dt_day d).

(** [dt.strftime('%Y-%m-%dT%H:%M:%S')] *)
Definition strftime_datetime (d : datetime) : string :=
  strftime_date d +:+ "T" +:+ fmt_02d (dt_hour d) +:+ ":" +:+ fmt_02d (dt_minute d)
  +:+ ":" +:+ fmt_02d (dt_second d).

(** ** Date normalization ([LLMParser._normalize_date]) *)

(** The character class [[-/]] of [re.split(r'[-/]', date_str)]. *)
Definition is_date_sep (a : ascii) : bool := Ascii.eqb a "-" || Ascii.eqb a "/".

Definition ok_or_none {A : Type} (m : result A) : option A :=
  match m with Ok a => Some a | Raise _ => None end.

(** The [try] block of [_normalize_date]: [None] when no [return] was
    reached, or when [int] raised the [ValueError] that the block catches. *)
Definition normalize_with_format (date_str fmt : string) : option string :=
  let parts := str_split_on is_date_sep date_str in
  if String.eqb fmt "%Y-%m-%d" then
    match parts with
    | [p0; p1; p2] =>
        match ok_or_none (py_int p1), ok_or_none (py_int p2) with
        | Some m, Some d => Some (p0 +:+ "-" +:+ fmt_02d m +:+ "-" +:+ fmt_02d d)
        | _, _ => None
        end
    | _ => None
    end
  else if String.eqb fmt "%m-%d-%Y" then
    match parts with
    | [p0; p1; p2] =>
        match ok_or_none (py_int p0), ok_or_none (py_int p1) with
        | Some m, Some d => Some (p2 +:+ "-" +:+ fmt_02d m +:+ "-" +:+ fmt_02d d)
        | _, _ => None
        end
    | _ => None
    end
  else if String.eqb fmt "%m-%d-%y" then
    match parts with
    | [p0; p1; p2] =>
        match ok_or_none (py_int p2), ok_or_none (py_int p0), ok_or_none (py_int p1) with
        | Some yy, Some m, Some d =>
            let year := if (yy <? 50)%Z then (yy + 2000)%Z else (yy + 1900)%Z in
            Some (str_of_Z year +:+ "-" +:+ fmt_02d m +:+ "-" +:+ fmt_02d d)
        | _, _, _ => None
        end
    | _ => None
    end
  else None.

Definition date_formats_to_try : list string :=
  ["%Y-%m-%d"; "%Y/%m/%d"; "%m-%d-%Y"; "%m/%d/%Y"; "%m-%d-%y"; "%m/%d/%y";
   "%B %d, %Y"; "%B %d %Y"; "%b %d, %Y"; "%b %d %Y"; "%d %B %Y"; "%d %b %Y"].

Definition _normalize_date (date_str : string) (fmt : option string) : option string :=
  let date_str := str_strip date_str in
  let explicit :=
    match fmt with
    | Some f => if String.eqb f EmptyString then None else normalize_with_format date_str f
    | None => None
    end in
  match explicit with
  | Some r => Some r
  | None =>
      first_some (λ f, option_map strftime_date (strptime date_str f)) date_formats_to_try
  end.

Definition datetime_formats_to_try : list string :=
  ["%Y-%m-%d %H:%M:%S"; "%Y-%m-%d %H:%M"; "%Y/%m/%d %H:%M:%S"; "%Y/%m/%d %H:%M";
   "%m-%d-%Y %I:%M %p"; "%m-%d-%Y %I:%M:%S %p"; "%m/%d/%Y %I:%M %p";
   "%m/%d/%Y %I:%M:%S %p"; "%m-%d-%Y %H:%M"; "%m/%d/%Y %H:%M"].

Fixpoint str_replace_char (c d : ascii) (s : string) : string :=
  match s with
  | EmptyString => EmptyString
  | String a s' => String (if Ascii.eqb a c then d else a) (str_replace_char c d s')
  end.

(** [LLMParser._normalize_datetime] *)
Definition _normalize_datetime (dt_str : string) : option string :=
  let dt_str := str_replace_char "T" " " (str_strip dt_str) in
  first_some (λ f, option_map strftime_datetime (strptime dt_str f)) datetime_formats_to_try.

(** ** Enum and list items *)

Definition choice_list (kws : choice_keywords) : list string :=
  match kws with
  | KwOne kw => [kw]
  | KwMany l => l
  end.

(** [keyword.lower() in text_lower] *)
Definition keyword_hit (text_lower keyword : string) : bool :=
  str_in (str_lower keyword) text_lower.

(** [LLMParser._extract_enum] *)
Definition _extract_enum (text_lower : string) (ex : extractor) : value :=
  match first_some
          (λ choice : string * choice_keywords,
             if existsb (keyword_hit text_lower) (choice_list choice.2)
             then Some choice.1 else None)
          (ex_choices ex) with
  | Some choice_value => VStr choice_value
  | None => ex_default ex
  end.

(** [LLMParser._convert_list_item]: the [except (ValueError, TypeError)]
    clause leaves [OverflowError] (of [int(float('inf'))]) uncaught. *)
Definition _convert_list_item (v : string) (item_type : string) : result value :=
  let v := str_remove "," (str_strip v) in
  let handler (e : exn) : result value :=
    match e with
    | ValueError | TypeError =>
        Ok (if String.eqb item_type "string" then VStr v else VNone)
    | _ => Raise e
    end in
  if String.eqb item_type "int" then
    catch (bind (py_float v) (λ f, bind (py_int_of_float f) (λ z, Ok (VInt z)))) handler
  else if String.eqb item_type "float" then
    catch (bind (py_float v) (λ f, Ok (VFloat f))) handler
  else Ok (VStr v).

(** ** Confidence ([LLMParser._calculate_confidence]) *)

(** [re.match(r'\d{4}-\d{2}-\d{2}', value)] *)
Definition iso_date_prefix (s : string) : bool :=
  let d := is_digit in
  let dash := in_range "-" "-" in
  match match_classes [d; d; d; d; dash; d; d; dash; d; d] s with
  | Some _ => true
  | None => false
  end.

(** [value in choices]: membership among the keys of a dict. *)
Definition in_choices (v : value) (choices : list (string * choice_keywords))
    : result bool :=
  if py_hashable v then
    Ok (match v with
        | VStr s => existsb (λ c : string * choice_keywords, String.eqb s c.1) choices
        | _ => false
        end)
  else Raise TypeError.

Definition _calculate_confidence (text text_lower : string) (ex : extractor)
    (v : value) : result float :=
  match truthy_pattern ex with
  | Some _ => Ok 0.95%float
  | None =>
      if type_is ex "enum" then
        bind (in_choices v (ex_choices ex)) (λ b,
          Ok (if b then 0.90 else 0.70)%float)
      else if type_is ex "boolean" then
        let matches := length (filter (λ kw, keyword_hit text_lower kw = true) (ex_keywords ex)) in
        Ok (if (3 <=? matches)%nat then 0.95
            else if (2 <=? matches)%nat then 0.85
            else if (matches =? 1)%nat then 0.75
            else if py_truthy v then 0.50 else 0.60)%float
      else if type_is ex "list" && is_list v then
        bind (py_len v) (λ n,
          Ok (if (3 <=? n)%Z then 0.90 else if (1 <=? n)%Z then 0.80 else 0.50)%float)
      else if type_is ex "date" || type_is ex "datetime" then
        Ok (match v with
            | VStr s => if iso_date_prefix s then 0.90 else 0.75
            | _ => 0.75
            end)%float
      else if type_is ex "int" || type_is ex "float" || type_is ex "money"
              || type_is ex "percentage" then Ok 0.90%float
      else Ok 0.70%float
  end.

(** ** The compiled-pattern cache ([LLMParser._get_compiled_pattern]) *)

Section PatternCache.

(** [re.compile(pattern, re.IGNORECASE)]; [None] is [re.error]. *)
Context {regex : Type} (re_compile : string → option regex).

(** The module-level dict [_compiled_patterns] is threaded as state: the
    compiled pattern (or [None], after the error is logged) and the cache
    afterwards.  A failed compilation is not cached. *)
Definition _get_compiled_pattern (cache : gmap string regex) (pattern : string)
    : option regex * gmap string regex :=
  match cache !! pattern with
  | Some compiled => (Some compiled, cache)
  | None =>
      match re_compile pattern with
      | Some compiled => (Some compiled, <[pattern := compiled]> cache)
      | None => (None, cache)
      end
  end.

(** Every entry of the cache is what [re.compile] returns for its key; the
    cache of a starting process is empty. *)
Definition cache_coherent (cache : gmap string regex) : Prop :=
  ∀ p c, cache !! p = Some c → re_compile p = Some c.

End PatternCache.

(** ** Ontologies and their constraints *)

Record constraint : Type := mkConstraint {
  c_id : string;
  c_category : string;
  c_description : string;
  c_formula_readable : string;
  c_variables : list (string * string);
  c_error_message : string;
  c_citation : string;
  (** the machine-evaluable predicate of the formula language; [VNone]
      when the ontology gives none *)
  c_formula : value
}.

Record ontology : Type := mkOntology {
  o_name : string;
  o_version : string;
  o_description : string;
  o_constraints : list constraint;
  o_extractors : list (string * extractor)
}.

(** ** Extraction ([LLMParser._extract_field] and its helpers) *)

(** The standard tables of the module. *)
Definition DATE_PATTERNS : list (string * option string) :=
  [("\b(\d{4})[-/](\d{1,2})[-/](\d{1,2})\b", Some "%Y-%m-%d");
   ("\b(\d{1,2})[-/](\d{1,2})[-/](\d{4})\b", Some "%m-%d-%Y");
   ("\b(\d{1,2})[-/](\d{1,2})[-/](\d{2})\b", Some "%m-%d-%y");
   ("\b((?:Jan(?:uary)?|Feb(?:ruary)?|Mar(?:ch)?|Apr(?:il)?|May|Jun(?:e)?|Jul(?:y)?|Aug(?:ust)?|Sep(?:tember)?|Oct(?:ober)?|Nov(?:ember)?|Dec(?:ember)?)\s+\d{1,2},?\s+\d{4})\b", None);
   ("\b(\d{1,2}\s+(?:Jan(?:uary)?|Feb(?:ruary)?|Mar(?:ch)?|Apr(?:il)?|May|Jun(?:e)?|Jul(?:y)?|Aug(?:ust)?|Sep(?:tember)?|Oct(?:ober)?|Nov(?:ember)?|Dec(?:ember)?)\s+\d{4})\b", None)].

Definition DATETIME_PATTERNS : list string :=
  ["\b(\d{4}[-/]\d{1,2}[-/]\d{1,2}[T\s]\d{1,2}:\d{2}(?::\d{2})?(?:\s*(?:AM|PM|am|pm))?)\b";
   "\b(\d{1,2}[-/]\d{1,2}[-/]\d{4}\s+\d{1,2}:\d{2}(?::\d{2})?\s*(?:AM|PM|am|pm)?)\b"].

(** An item of [compiled.findall(...)]: a string, or a tuple of the groups. *)
Inductive findall_item : Type :=
| FStr (s : string)
| FTuple (groups : list string).

Section Extraction.

(** The [re] module and [str()], as the parser uses them:
    [compiled p] is what [self._get_compiled_pattern(p)] returns (the
    pattern compiled with [re.IGNORECASE], or [None] after [re.error] was
    logged); [re_search c s] is [c.search(s)]; [re_findall c s] is
    [c.findall(s)]; [py_str v] is [str(v)].

    [compiled] covers the patterns that [re.compile] accepts or rejects
    with [re.error], the one exception [_get_compiled_pattern] catches.  A
    pattern on which [re.compile] raises another exception ([OverflowError]
    for a repetition count beyond the limit of the engine) is outside it:
    that exception leaves [parse].  Statements that nothing is raised
    therefore name the patterns they are about as ones that compile. *)
Context {regex : Type}
  (compiled : string → option regex)
  (re_search : regex → string → option re_match)
  (re_findall : regex → string → list findall_item)
  (py_str : value → string).

(** [pattern] compiled, when [pattern] is truthy and compiles. *)
Definition compiled_pattern_of (ex : extractor) : option regex :=
  match truthy_pattern ex with
  | Some p => compiled p
  | None => None
  end.

(** [any(neg in context for neg in negation_words)] *)
Definition negated (negation_words : list string) (context : string) : bool :=
  existsb (λ neg, str_in neg context) negation_words.

(** [check_negation and negation_words] *)
Definition negation_enabled (ex : extractor) : bool :=
  ex_check_negation ex && match ex_negation_words ex with [] => false | _ => true end.

(** The loop [for kw in keywords] of the boolean branch. *)
Fixpoint keyword_scan (ex : extractor) (text_lower : string) (keywords : list string)
    : bool :=
  match keywords with
  | [] => false
  | kw :: rest =>
      if str_in kw text_lower then
        if negation_enabled ex then
          let kw_pos := str_find kw text_lower in
          let context_start := Z.max 0 (kw_pos - 15) in
          let context_end := (kw_pos + str_len kw)%Z in
          let context := str_slice text_lower context_start context_end in
          if negated (ex_negation_words ex) context
          then keyword_scan ex text_lower rest
          else true
        else true
      else keyword_scan ex text_lower rest
  end.

(** The boolean branch of [_extract_field]. *)
Definition extract_boolean (text text_lower : string) (ex : extractor) : bool :=
  let by_keywords := keyword_scan ex text_lower (ex_keywords ex) in
  match compiled_pattern_of ex with
  | Some c =>
      match re_search c text with
      | Some m =>
          if negation_enabled ex then
            let context_start := Z.max 0 (m_start m - 30) in
            let context_end := Z.min (str_len text_lower) (m_end m + 30) in
            let context := str_slice text_lower context_start context_end in
            if negated (ex_negation_words ex) context then false else true
          else true
      | None => false
      end
  | None => by_keywords
  end.

(** [date_str.strip()] on what [match.group(...)] returned. *)
Definition normalize_group (g : value) (fmt : option string) : result value :=
  match g with
  | VStr date_str =>
      Ok (match _normalize_date date_str fmt with Some r => VStr r | None => VNone end)
  | _ => Raise AttributeError
  end.

(** [LLMParser._extract_date] *)
Definition _extract_date (text : string) (ex : extractor) : result value :=
  let custom :=
    match compiled_pattern_of ex with
    | Some c => re_search c text
    | None => None
    end in
  match custom with
  | Some m => normalize_group (group1_or_0 m) (ex_format ex)
  | None =>
      let text_lower := str_lower text in
      let search_text :=
        match first_some (λ keyword, if keyword_hit text_lower keyword
                                      then Some (str_find (str_lower keyword) text_lower)
                                      else None) (ex_keywords ex) with
        | Some pos => str_slice text pos (pos + 100)
        | None => text
        end in
      Ok (match first_some
                  (λ pf : string * option string,
                     match compiled pf.1 with
                     | Some c =>
                         match re_search c search_text with
                         | Some m =>
                             match _normalize_date (group0 m) pf.2 with
                             | Some r => if String.eqb r EmptyString then None else Some r
                             | None => None
                             end
                         | None => None
                         end
                     | None => None
                     end) DATE_PATTERNS with
          | Some r => VStr r
          | None => VNone
          end)
  end.

(** [LLMParser._extract_datetime] *)
Definition _extract_datetime (text : string) (ex : extractor) : result value :=
  let normalize (g : value) : result (option string) :=
    match g with
    | VStr dt_str => Ok (_normalize_datetime dt_str)
    | _ => Raise AttributeError
    end in
  let custom :=
    match compiled_pattern_of ex with
    | Some c => re_search c text
    | None => None
    end in
  match custom with
  | Some m =>
      bind (normalize (group1_or_0 m)) (λ r,
        Ok (match r with Some x => VStr x | None => VNone end))
  | None =>
      bind (foldM (λ (acc : option string) (pattern : string),
                     match acc with
                     | Some _ => Ok acc
                     | None =>
                         match compiled pattern with
                         | Some c =>
                             match re_search c text with
                             | Some m =>
                                 bind (normalize (group1_or_0 m)) (λ r,
                                   Ok (match r with
                                       | Some x => if String.eqb x EmptyString then None else Some x
                                       | None => None
                                       end))
                             | None => Ok None
                             end
                         | None => Ok None
                         end
                     end) DATETIME_PATTERNS None) (λ found,
      match found with
      | Some x => Ok (VStr x)
      | None =>
          bind (_extract_date text ex) (λ date_result,
            Ok (match date_result with
                | VStr d => if String.eqb d EmptyString then VNone
                            else VStr (d +:+ "T00:00:00")
                | _ => VNone
                end))
      end)
  end.

(** [LLMParser._extract_list] *)
Definition _extract_list (text text_lower : string) (ex : extractor) : result value :=
  let item_type := ex_item_type ex in
  bind (match compiled_pattern_of ex with
        | Some c =>
            let matches :=
              re_findall c (if String.eqb item_type "string" then text_lower else text) in
            foldM (λ (results : list value) (m : findall_item),
                     let v := match m with
                              | FStr x => Some x
                              | FTuple (x :: _) => Some x
                              | FTuple [] => None
                              end in
                     match v with
                     | Some x =>
                         if String.eqb x EmptyString then Ok results
                         else bind (_convert_list_item x item_type) (λ converted,
                                Ok (if is_none converted then results
                                    else results ++ [converted]))
                     | None => Ok results
                     end) matches []
        | None => Ok []
        end) (λ results,
  let results :=
    match results with
    | [] => map VStr (filter (λ kw, keyword_hit text_lower kw = true) (ex_keywords ex))
    | _ => results
    end in
  Ok (match results with [] => VNone | _ => VList results end)).

(** [LLMParser._extract_field]; [VNone] is the [None] of an absent field. *)
Definition _extract_field (text text_lower : string) (ex : extractor) : result value :=
  if type_is ex "boolean" then
    Ok (VBool (extract_boolean text text_lower ex))
  else if type_is ex "int" || type_is ex "float" || type_is ex "money"
          || type_is ex "percentage" then
    match truthy_pattern ex with
    | None => Ok VNone
    | Some pattern =>
        match compiled pattern with
        | None => Ok VNone
        | Some c =>
            match re_search c text_lower with
            | Some m =>
                match m_groups m with
                | [] => Ok VNone
                | _ => _parse_numeric m text (default EmptyString (ex_type ex))
                end
            | None => Ok VNone
            end
        end
    end
  else if type_is ex "string" then
    match truthy_pattern ex with
    | None => Ok VNone
    | Some pattern =>
        match compiled pattern with
        | None => Ok VNone
        | Some c =>
            match re_search c text_lower with
            | Some m => Ok (group1_or_0 m)
            | None => Ok VNone
            end
        end
    end
  else if type_is ex "date" then _extract_date text ex
  else if type_is ex "datetime" then _extract_datetime text ex
  else if type_is ex "list" then _extract_list text text_lower ex
  else if type_is ex "enum" then Ok (_extract_enum text_lower ex)
  else Ok VNone.

(** [LLMParser._find_source_text] *)
Definition _find_source_text (text text_lower : string) (ex : extractor) (v : value)
    : string :=
  let by_pattern :=
    match compiled_pattern_of ex with
    | Some c => option_map group0 (re_search c text)
    | None => None
    end in
  match by_pattern with
  | Some src => src
  | None =>
      match first_some (λ kw, if keyword_hit text_lower kw then Some kw else None)
              (ex_keywords ex) with
      | Some kw => kw
      | None =>
          let by_choice :=
            if type_is ex "enum" then
              first_some
                (λ choice : string * choice_keywords,
                   if py_eq (VStr choice.1) v then
                     first_some (λ kw, if keyword_hit text_lower kw then Some kw else None)
                       (choice_list choice.2)
                   else None) (ex_choices ex)
            else None in
          match by_choice with
          | Some kw => kw
          | None => py_str v
          end
      end
  end.

(** [LLMParser._extract_field_with_confidence]: an [ExtractionResult], or
    [VNone]. *)
Definition _extract_field_with_confidence (text text_lower : string) (ex : extractor)
    : result value :=
  bind (_extract_field text text_lower ex) (λ v,
    if is_none v then Ok VNone
    else
      bind (_calculate_confidence text text_lower ex v) (λ confidence,
        let source := _find_source_text text text_lower ex v in
        Ok (VResult v confidence source (ex_type ex)))).

(** The first loop of [parse]: the state is [extracted], the
    [confidence_scores] (in insertion order) and [computed_extractors]. *)
Definition dict_set {A : Type} (k : string) (x : A) (d : list (string * A))
    : list (string * A) :=
  if existsb (λ kv : string * A, String.eqb k kv.1) d
  then map (λ kv : string * A, if String.eqb k kv.1 then (k, x) else kv) d
  else d ++ [(k, x)].

Definition parse_field (text text_lower : string) (include_confidence : bool)
    (st : facts * list (string * value) * list (string * extractor))
    (item : string * extractor)
    : result (facts * list (string * value) * list (string * extractor)) :=
  let '(extracted, confidence_scores, computed_extractors) := st in
  let '(field_name, ex) := item in
  if type_is ex "computed" || ex_computed ex then
    Ok (extracted, confidence_scores, dict_set field_name ex computed_extractors)
  else
    bind (_extract_field_with_confidence text text_lower ex) (λ r,
      match r with
      | VResult v confidence _ _ =>
          Ok (<[field_name := if include_confidence then r else v]> extracted,
              dict_set field_name (VFloat confidence) confidence_scores,
              computed_extractors)
      | _ => Ok st
      end).

(** [LLMParser.parse] *)
Definition parse (text : string) (o : ontology) (include_confidence : bool)
    : result facts :=
  let text_lower := str_lower text in
  let extractors := o_extractors o in
  bind (foldM (parse_field text text_lower include_confidence) extractors (∅, [], []))
    (λ st,
  let '(extracted, confidence_scores, computed_extractors) := st in
  bind (_calculate_derived_fields extracted text_lower include_confidence) (λ extracted,
  let extracted :=
    _calculate_computed_fields extracted text_lower computed_extractors include_confidence in
  Ok (if include_confidence
      then <["_confidence_scores" := VDict confidence_scores]> extracted
      else extracted))).

End Extraction.

(** ** The built-in ontology ([OntologyLoader]) *)

Module OntologyLoader.

Definition pattern_extractor (ty pattern : string) : extractor :=
  {| ex_type := Some ty; ex_computed := false; ex_pattern := Some pattern;
     ex_format := None; ex_keywords := []; ex_negation_words := [];
     ex_check_negation := true; ex_item_type := "string"; ex_choices := [];
     ex_default := VNone; ex_formula := VNone |}.

Definition keyword_extractor (keywords : list string) : extractor :=
  {| ex_type := Some "boolean"; ex_computed := false; ex_pattern := None;
     ex_format := None; ex_keywords := keywords; ex_negation_words := [];
     ex_check_negation := true; ex_item_type := "string"; ex_choices := [];
     ex_default := VNone; ex_formula := VNone |}.

Definition readable (id category description formula_readable : string)
    (variables : list (string * string)) (error_message citation : string)
    : constraint :=
  mkConstraint id category description formula_readable variables
    error_message citation VNone.

(** [OntologyLoader._get_default_ontology] *)
Definition _get_default_ontology : ontology :=
  {| o_name := "mortgage-compliance-v1";
     o_version := "1.0.0";
     o_description := "U.S. Mortgage Compliance - Core constraints";
     o_constraints :=
       [readable "ATR_QM_DTI" "ATR/QM" "Debt-to-income ratio requirements"
          "(dti ≤ 43) ∨ (compensating_factors ≥ 2)"
          [("dti", "real"); ("compensating_factors", "int")]
          "DTI exceeds 43% without sufficient compensating factors"
          "12 CFR § 1026.43(c)";
        readable "HOEPA_HIGH_COST" "HOEPA" "High-cost mortgage counseling requirement"
          "(fee_percentage < 8) ∨ counseling_disclosed"
          [("fee_percentage", "real"); ("counseling_disclosed", "bool")]
          "HOEPA triggered - counseling disclosure required"
          "12 CFR § 1026.32";
        readable "UDAAP_NO_GUARANTEES" "UDAAP" "Prohibition on guarantee language"
          "¬(has_guarantee ∧ has_approval)"
          [("has_guarantee", "bool"); ("has_approval", "bool")]
          "Cannot guarantee approval"
          "12 CFR § 1036.3";
        readable "HPML_ESCROW" "Escrow" "Escrow requirements based on FICO"
          "(credit_score ≥ 620) ∨ ¬escrow_waived"
          [("credit_score", "int"); ("escrow_waived", "bool")]
          "Cannot waive escrow with FICO < 620"
          "12 CFR § 1026.35(b)";
        readable "REG_B_ADVERSE" "Regulation B" "Adverse action disclosure requirements"
          "is_denial → has_specific_reason"
          [("is_denial", "bool"); ("has_specific_reason", "bool")]
          "Must disclose specific denial reason"
          "12 CFR § 1002.9"];
     o_extractors :=
       [("dti", pattern_extractor "float" "dti[:\s~]*(\d+(?:\.\d+)?)");
        ("credit_score", pattern_extractor "int" "(?:fico|credit score)[:\s]*(\d{3})");
        ("fees", pattern_extractor "money" "\$?([\d,]+)k?\s*(?:fees?|costs?)");
        ("loan_amount", pattern_extractor "money" "\$?([\d,]+)k?\s*(?:loan|mortgage)");
        ("has_guarantee", keyword_extractor ["guaranteed"; "100%"; "definitely"]);
        ("has_approval", keyword_extractor ["approved"; "approve"]);
        ("counseling_disclosed", keyword_extractor ["counseling"]);
        ("escrow_waived", keyword_extractor ["escrow waived"; "waive escrow"; "skip escrow"]);
        ("is_denial", keyword_extractor ["denied"; "cannot approve"]);
        ("has_specific_reason",
         keyword_extractor ["credit"; "income"; "dti"; "debt"; "score"])] |}.

End OntologyLoader.

(** The extractor of [field] in an ontology ([ontology['extractors'][field]]);
    an extractor with no keys when the ontology has none. *)
Definition extractor_named (o : ontology) (field : string) : extractor :=
  default (mkExtractor None false None None [] [] true "string" [] VNone VNone)
    (assoc field (o_extractors o)).

(** ** The constraint evaluator *)

Record violation : Type := mkViolation {
  v_id : string;
  v_category : string;
  v_description : string;
  v_error_message : string;
  v_citation : string
}.

Definition violation_of (c : constraint) : violation :=
  mkViolation (c_id c) (c_category c) (c_description c) (c_error_message c)
    (c_citation c).

(** Modelled from the spec: the constraint evaluator, [SMTVerifier.verify]
    of [smt_verifier.py], is imported by [server.py] but is not among the
    sources.  Section 4.4 of the specification: each constraint, in ontology
    order, has its predicate formula evaluated against the facts by the
    formula interpreter; a violation is appended when the result is exactly
    [False], and none when it is [True] or null; a constraint without a
    machine formula is trivially satisfied; [verified] says that no
    violation was recorded. *)
Definition predicate_value (extracted : facts) (c : constraint) : result value :=
  if is_none (c_formula c) then Ok (VBool true)
  else _evaluate_formula (c_formula c) extracted (get_value false extracted).

Definition check_constraint (extracted : facts) (violations : list violation)
    (c : constraint) : result (list violation) :=
  bind (predicate_value extracted c) (λ r,
    Ok (if is_False r then violations ++ [violation_of c] else violations)).

Definition verify (extracted : facts) (o : ontology) : result (bool * list violation) :=
  bind (foldM (check_constraint extracted) (o_constraints o) []) (λ violations,
    Ok (bool_decide (violations = []), violations)).

(** The operators of the formula language. *)
Definition operators : list string :=
  ["count_true"; "count_fields"; "sum"; "any"; "all";
   "gt"; ">"; "gte"; ">="; "lt"; "<"; "lte"; "<=";
   "add"; "+"; "mul"; "*"; "if"; "not"; "and"; "or"].

(** ** Closed instances of the parameters *)

(** An [re] module in which no pattern compiles.  It closes statements
    about extractors that configure no pattern, which never reach [re]. *)
Definition no_regex : Type := Empty_set.
Definition compile_nothing (pattern : string) : option no_regex := None.
Definition search_nothing (c : no_regex) (s : string) : option re_match :=
  match c with end.
Definition findall_nothing (c : no_regex) (s : string) : list findall_item :=
  match c with end.


(** [extractor] with its [keywords] replaced. *)
Definition with_keywords (ex : extractor) (keywords : list string) : extractor :=
  {| ex_type := ex_type ex; ex_computed := ex_computed ex;
     ex_pattern := ex_pattern ex; ex_format := ex_format ex;
     ex_keywords := keywords; ex_negation_words := ex_negation_words ex;
     ex_check_negation := ex_check_negation ex; ex_item_type := ex_item_type ex;
     ex_choices := ex_choices ex; ex_default := ex_default ex;
     ex_formula := ex_formula ex |}.

(** [extractor] with its [negation_words] replaced. *)
Definition with_negation_words (ex : extractor) (words : list string) : extractor :=
  {| ex_type := ex_type ex; ex_computed := ex_computed ex;
     ex_pattern := ex_pattern ex; ex_format := ex_format ex;
     ex_keywords := ex_keywords ex; ex_negation_words := words;
     ex_check_negation := ex_check_negation ex; ex_item_type := ex_item_type ex;
     ex_choices := ex_choices ex; ex_default := ex_default ex;
     ex_formula := ex_formula ex |}.

(** A computed extractor with a [formula] and a [default]. *)
Definition computed_extractor (formula dflt : value) : extractor :=
  {| ex_type := Some "computed"; ex_computed := false; ex_pattern := None;
     ex_format := None; ex_keywords := []; ex_negation_words := [];
     ex_check_negation := true; ex_item_type := "string"; ex_choices := [];
     ex_default := dflt; ex_formula := formula |}.

(** Two computed fields on a dependency cycle, each with the default [0]:
    [a = b + 1] and [b = a + 1]. *)
Definition cyclic_extractors : list (string * extractor) :=
  [("a", computed_extractor (VDict [("add", VList [VStr "b"; VInt 1])]) (VInt 0));
   ("b", computed_extractor (VDict [("add", VList [VStr "a"; VInt 1])]) (VInt 0))].

(** ** Confidence predicates *)

(** [0 <= c <= 1] on floats. *)
Definition in_unit (c : float) : bool := PrimFloat.leb 0 c && PrimFloat.leb c 1.

(** The confidence of a fact, when it is an [ExtractionResult], is in [0,1]. *)
Definition confidence_ok (v : value) : bool :=
  match v with
  | VResult _ c _ _ => in_unit c
  | _ => true
  end.

(** The entries of a [_confidence_scores] dict are floats in [0,1]. *)
Definition scores_ok (d : list (string * value)) : bool :=
  forallb (λ kv : string * value,
             match kv.2 with VFloat c => in_unit c | _ => false end) d.

(** A fact of confidence mode: an [ExtractionResult] with its confidence
    in [0,1], or a dict of scores in [0,1]. *)
Definition fact_ok (v : value) : bool :=
  match v with
  | VResult _ c _ _ => in_unit c
  | VDict d => scores_ok d
  | _ => false
  end.

(** The fact is an [ExtractionResult] of confidence exactly [1.0] and
    source ["computed"]. *)
Definition computed_fact (o : option value) : Prop :=
  match o with
  | Some (VResult _ c source _) => c = 1%float ∧ source = "computed"
  | _ => False
  end.

(** What a [result] returns, if it returns, satisfies [P]. *)
Definition returns {A : Type} (P : A → Prop) (m : result A) : Prop :=
  match m with
  | Ok a => P a
  | Raise _ => True
  end.

(** [str(v)] for [None], booleans, integers and strings; the text of the
    other values (floats, containers) is not modelled and is left empty.
    It closes examples in which [str] is applied to such scalars only. *)
Definition str_of_scalar (v : value) : string :=
  match v with
  | VNone => "None"
  | VBool true => "True"
  | VBool false => "False"
  | VInt z => str_of_Z z
  | VStr s => s
  | _ => EmptyString
  end.

(** The results of [re] for the four patterns of the default ontology on
    the lowercased text "approved, fees apply": only the [fees] pattern
    matches, at [", fees"], its group capturing the comma.  Other texts are
    not tabulated. *)
Inductive table_regex : Set := TDti | TCreditScore | TFees | TLoanAmount.

Definition table_compile (pattern : string) : option table_regex :=
  if String.eqb pattern "dti[:\s~]*(\d+(?:\.\d+)?)" then Some TDti
  else if String.eqb pattern "(?:fico|credit score)[:\s]*(\d{3})" then Some TCreditScore
  else if String.eqb pattern "\$?([\d,]+)k?\s*(?:fees?|costs?)" then Some TFees
  else if String.eqb pattern "\$?([\d,]+)k?\s*(?:loan|mortgage)" then Some TLoanAmount
  else None.

Definition table_search (c : table_regex) (s : string) : option re_match :=
  match c with
  | TFees => if String.eqb s "approved, fees apply"
             then Some (mkMatch s 8 14 [Some ","]) else None
  | _ => None
  end.

Definition table_findall (c : table_regex) (s : string) : list findall_item := [].

(** The results of [re] for the same four patterns on two other lowercased
    texts: on "$300,000 mortgage" only the [loan_amount] pattern matches,
    the whole text, its group capturing "300,000"; on "$5k fees" only the
    [fees] pattern matches, the whole text, its group capturing "5".  Other
    texts are not tabulated. *)
Definition money_table_search (c : table_regex) (s : string) : option re_match :=
  match c with
  | TLoanAmount => if String.eqb s "$300,000 mortgage"
                   then Some (mkMatch s 0 17 [Some "300,000"]) else None
  | TFees => if String.eqb s "$5k fees"
             then Some (mkMatch s 0 8 [Some "5"]) else None
  | _ => None
  end.

(** ** Date shapes *)

(** [re.fullmatch(r'\d{4}-\d{2}-\d{2}', s)]: the text is [YYYY-MM-DD]. *)
Definition iso_shape (s : string) : bool :=
  let d := is_digit in
  let dash := in_range "-" "-" in
  match match_classes [d; d; d; d; dash; d; d; dash; d; d] s with
  | Some (_, EmptyString) => true
  | _ => false
  end.

(** [re.fullmatch(r'\d{lo,hi}', s)] *)
Definition digits (lo hi : nat) (s : string) : bool :=
  str_all is_digit s && (lo <=? String.length s)%nat && (String.length s <=? hi)%nat.

(** The text [a s1 b s2 c] of three fields and two separators, as the first
    three patterns of [DATE_PATTERNS] match it. *)
Definition numeric_date (a : string) (s1 : ascii) (b : string) (s2 : ascii)
    (c : string) : string :=
  a +:+ String s1 (b +:+ String s2 c).

(** ** Dependency cycles *)

(** [fields] is closed under "has an unsettled dependency inside": every
    computed extractor named in [fields] has a truthy formula that refers
    to some field of [fields].  The fields of a dependency cycle form such
    a set. *)
Definition cyclic_fields (fields : gset string)
    (computed_extractors : list (string * extractor)) : Prop :=
  fields ⊆ list_to_set (map fst computed_extractors)
  ∧ ∀ item : string * extractor,
      item ∈ computed_extractors → item.1 ∈ fields →
      py_truthy (ex_formula item.2) = true
      ∧ ∃ dep, dep ∈ fields ∧ dep ∈ _extract_formula_dependencies (ex_formula item.2).

(** [f'] differs from [f] only by computed facts. *)
Definition computed_changes (f f' : facts) : Prop :=
  ∀ k, f' !! k = f !! k ∨ computed_fact (f' !! k).

(** Every fact is a fact of confidence mode. *)
Definition facts_ok (f : facts) : Prop := ∀ k v, f !! k = Some v → fact_ok v = true.

(** None of [fields] is among the facts. *)
Definition absent (fields : gset string) (extracted : facts) : Prop :=
  ∀ f, f ∈ fields → extracted !! f = None.

(** An extractor named in [fields] has a truthy formula that refers to a
    field of [fields]. *)
Definition stuck (fields : gset string) (item : string * extractor) : Prop :=
  item.1 ∈ fields →
  py_truthy (ex_formula item.2) = true
  ∧ ∃ dep, dep ∈ fields ∧ dep ∈ _extract_formula_dependencies (ex_formula item.2).

(** The results of [re] for the patterns of [DATE_PATTERNS] on the text
    "Closing on 12/25/24.": the ISO and long-year patterns find nothing and
    the short-year pattern matches "12/25/24" at [11, 19).  Other texts are
    not tabulated. *)
Inductive date_table_regex : Set := DIso | DLong | DShort.

(** A [date] extractor without a custom pattern and without keywords. *)
Definition date_extractor : extractor :=
  {| ex_type := Some "date"; ex_computed := false; ex_pattern := None;
     ex_format := None; ex_keywords := []; ex_negation_words := [];
     ex_check_negation := true; ex_item_type := "string"; ex_choices := [];
     ex_default := VNone; ex_formula := VNone |}.

Definition date_table_compile (pattern : string) : option date_table_regex :=
  match index_of pattern (map fst DATE_PATTERNS) with
  | Some 0%nat => Some DIso
  | Some 1%nat => Some DLong
  | Some 2%nat => Some DShort
  | _ => None
  end.

Definition date_table_search (c : date_table_regex) (s : string) : option re_match :=
  match c with
  | DShort => if String.eqb s "Closing on 12/25/24."
              then Some (mkMatch s 11 19 [Some "12"; Some "25"; Some "24"]) else None
  | _ => None
  end.

(** The text that [_extract_date] scans with the standard table: the 100
    characters from the first keyword that occurs in the text, or the whole
    text when no keyword does. *)
Definition date_search_text (text : string) (keywords : list string) : string :=
  let text_lower := str_lower text in
  match first_some (λ keyword, if keyword_hit text_lower keyword
                                then Some (str_find (str_lower keyword) text_lower)
                                else None) keywords with
  | Some pos => str_slice text pos (pos + 100)
  | None => text
  end.

(** A [date] extractor with the custom pattern [(\d{1,2}/\d{1,2}/\d{2})]
    and the given [format], and the results of [re] for it on the text
    "Due 01/02/50": the pattern matches "01/02/50" at [4, 12) and its one
    group captures the whole date.  Other texts are not tabulated. *)
Definition custom_date_pattern : string := "(\d{1,2}/\d{1,2}/\d{2})".

Definition custom_date_extractor (fmt : option string) : extractor :=
  {| ex_type := Some "date"; ex_computed := false;
     ex_pattern := Some custom_date_pattern;
     ex_format := fmt; ex_keywords := []; ex_negation_words := [];
     ex_check_negation := true; ex_item_type := "string"; ex_choices := [];
     ex_default := VNone; ex_formula := VNone |}.

Inductive custom_date_regex : Set := DCustom.

Definition custom_date_compile (pattern : string) : option custom_date_regex :=
  if String.eqb pattern custom_date_pattern then Some DCustom else None.

Definition custom_date_search (c : custom_date_regex) (s : string) : option re_match :=
  if String.eqb s "Due 01/02/50" then Some (mkMatch s 4 12 [Some "01/02/50"]) else None.

(** ** The other built-in ontologies and [OntologyLoader.load] *)

Module Builtins.

Import OntologyLoader.

(** A boolean extractor with both [keywords] and a [pattern]. *)
Definition boolean_pattern_extractor (keywords : list string) (pattern : string)
    : extractor :=
  {| ex_type := Some "boolean"; ex_computed := false; ex_pattern := Some pattern;
     ex_format := None; ex_keywords := keywords; ex_negation_words := [];
     ex_check_negation := true; ex_item_type := "string"; ex_choices := [];
     ex_default := VNone; ex_formula := VNone |}.

(** [OntologyLoader._get_fair_lending_ontology] *)
Definition _get_fair_lending_ontology : ontology :=
  {| o_name := "fair-lending-v1";
     o_version := "1.0.0";
     o_description := "Fair Lending Compliance";
     o_constraints :=
       [readable "LOAN_AMOUNT_LIMIT" "Fair Lending" "Loan amount within policy limits"
          "loan_amount ≤ 100000" [("loan_amount", "int")]
          "Loan amount exceeds policy limit" "Internal Policy";
        readable "MAX_DTI" "Fair Lending" "Maximum DTI ratio"
          "dti ≤ 43" [("dti", "real")]
          "DTI exceeds maximum" "12 CFR § 1026.43";
        readable "MIN_CREDIT_SCORE" "Fair Lending" "Minimum credit score requirement"
          "credit_score ≥ 600" [("credit_score", "int")]
          "Credit score below minimum" "Internal Policy"];
     o_extractors :=
       [("loan_amount", pattern_extractor "money" "\$?([\d,]+)k?\s*(?:loan|mortgage)");
        ("dti", pattern_extractor "float" "dti[:\s~]*(\d+(?:\.\d+)?)");
        ("credit_score", pattern_extractor "int" "(?:fico|credit score)[:\s]*(\d{3})")] |}.

(** [OntologyLoader._get_hipaa_ontology] *)
Definition _get_hipaa_ontology : ontology :=
  {| o_name := "hipaa-v1";
     o_version := "1.0.0";
     o_description := "HIPAA PHI Protection";
     o_constraints :=
       [readable "PHI_SSN_ZERO_TOLERANCE" "PHI Detection" "No SSN disclosure"
          "¬has_ssn" [("has_ssn", "bool")]
          "SSN detected in output" "45 CFR § 164.514";
        readable "PHI_NAME_DISCLOSURE" "PHI Detection" "Patient name requires authorization"
          "¬has_patient_name ∨ recipient_authorized"
          [("has_patient_name", "bool"); ("recipient_authorized", "bool")]
          "Patient name disclosed without authorization" "45 CFR § 164.502";
        readable "PHI_ADDRESS_DISCLOSURE" "PHI Detection" "No street address disclosure"
          "¬has_street_address" [("has_street_address", "bool")]
          "Street address detected in output" "45 CFR § 164.514"];
     o_extractors :=
       [("has_ssn", boolean_pattern_extractor [] "\d{3}-\d{2}-\d{4}");
        ("has_patient_name", keyword_extractor ["patient:"; "name:"]);
        ("has_street_address",
         keyword_extractor ["street"; "avenue"; "blvd"; "road"; "lane"]);
        ("recipient_authorized", keyword_extractor ["authorized"; "consent"])] |}.

(** [OntologyLoader._get_builtin_ontology]: [builtins.get(name)] *)
Definition _get_builtin_ontology (name : string) : option ontology :=
  assoc name
    [("mortgage-compliance-v1", _get_default_ontology);
     ("fair-lending-v1", _get_fair_lending_ontology);
     ("hipaa-v1", _get_hipaa_ontology)].

(** [field in ontology] for what [json.load] can return: a key of an
    object, an item of an array, a substring of a string; [TypeError] for a
    number, a boolean or [null]. *)
Definition py_contains (field : string) (doc : value) : result bool :=
  match doc with
  | VDict d => Ok (existsb (λ kv : string * value, String.eqb field kv.1) d)
  | VList l => Ok (existsb (λ x, py_eq x (VStr field)) l)
  | VStr s => Ok (str_in field s)
  | _ => Raise TypeError
  end.

Definition required_fields : list string :=
  ["name"; "version"; "constraints"; "extractors"].

(** [OntologyLoader._validate_ontology] *)
Definition _validate_ontology (ontology : value) : result value :=
  bind (foldM (λ (_ : unit) (field : string),
                 bind (py_contains field ontology) (λ present,
                   if present then Ok tt else Raise ValueError))
          required_fields tt)
       (λ _, Ok ontology).

(** What [load] returns: the document of a file, or a built-in ontology. *)
Inductive loaded : Type :=
| FromFile (doc : value)
| BuiltIn (o : ontology).

(** The ontology directory: [read_json name] is [None] when
    [<name>.json] does not exist, and otherwise what [open] and [json.load]
    give for it.  [stems] are the names of the [*.json] files, [None] when
    the directory does not exist. *)
Section Directory.

Context (read_json : string → option (result value)) (stems : option (list string)).

(** [OntologyLoader.load], at its first call for [ontology_name]
    ([lru_cache] repeats that result afterwards).  Every exception of the
    [try] block is logged and swallowed. *)
Definition load (ontology_name : string) : loaded :=
  let from_file :=
    match read_json ontology_name with
    | Some r => ok_or_none (bind r _validate_ontology)
    | None => None
    end in
  match from_file with
  | Some doc => FromFile doc
  | None =>
      match _get_builtin_ontology ontology_name with
      | Some builtin => BuiltIn builtin
      | None => BuiltIn _get_default_ontology
      end
  end.

(** [sorted(...)] on strings *)
Definition str_le (a b : string) : Prop := String.leb a b = true.

#[local] Instance str_le_dec (a b : string) : Decision (str_le a b).
Proof. unfold str_le. apply _. Defined.

(** [OntologyLoader.list_available] *)
Definition list_available : list string :=
  let ontologies : gset string :=
    list_to_set (["mortgage-compliance-v1"; "fair-lending-v1"; "hipaa-v1"]
                 ++ default [] stems) in
  merge_sort str_le (elements ontologies).

End Directory.

End Builtins.

(** ** CORS origins ([server.create_app]) *)

(** [os.environ.get("CORS_ORIGINS", ...).split(",")] *)
Definition allowed_origins (env : option string) : list string :=
  str_split_on (Ascii.eqb ",")
    (default
       "https://aare.ai,https://www.aare.ai,http://localhost:8000,http://localhost:3000,*"
       env).

(** [get_cors_origin] of [server.create_app] *)
Definition get_cors_origin (allowed_origins : list string) (request_origin : string)
    : string :=
  if existsb (String.eqb "*") allowed_origins then "*"
  else if existsb (String.eqb request_origin) allowed_origins then request_origin
  else match allowed_origins with
       | first :: _ => first
       | [] => EmptyString
       end.

(** A boolean extractor with [keywords] and [negation_words]. *)
Definition negating_extractor (keywords negation_words : list string) : extractor :=
  with_negation_words (OntologyLoader.keyword_extractor keywords) negation_words.

(** ** Frames *)

(** [f'] extends [f] and differs from it at most at the keys [names]. *)
Definition writes_only (names : list string) (f f' : facts) : Prop :=
  (∀ k, k ∉ names → f' !! k = f !! k)
  ∧ (∀ k, is_Some (f !! k) → is_Some (f' !! k)).

(** A computed extractor whose formula refers to no computed field. *)
Definition independent (computed_names : gset string) (item : string * extractor)
    : Prop :=
  _extract_formula_dependencies (ex_formula item.2) ∩ computed_names = ∅.

(** The exception [e] is not raised. *)
Definition never_raises {A : Type} (e : exn) (m : result A) : Prop :=
  match m with
  | Raise e' => e' ≠ e
  | Ok _ => True
  end.

(** One computed field that depends on an extracted fact only:
    [total = fees + 1], with the default [0]. *)
Definition plus_one_extractors : list (string * extractor) :=
  [("total", computed_extractor (VDict [("add", VList [VStr "fees"; VInt 1])]) (VInt 0))].


(** ** Facts as formulas read them *)

(** [get_value(field)] for a field name: the fact, unwrapped from its
    [ExtractionResult] in confidence mode, [None] when it is missing. *)
Definition fact_value (include_confidence : bool) (extracted : facts) (field : string)
    : value :=
  unwrap_result include_confidence (default VNone (extracted !! field)).

(** The formula [{op: [field, ...]}] over field names. *)
Definition over_names (op : string) (names : list string) : value :=
  VDict [(op, VList (map VStr names))].

(** How many of [names] satisfy [p]. *)
Definition count_names (p : string → bool) (names : list string) : Z :=
  Z.of_nat (length (filter (λ k, p k = true) names)).

(** ** Outcomes *)

(** What is raised, if anything, is one of [allowed]. *)
Definition raises_at_most {A : Type} (allowed : list exn) (m : result A) : Prop :=
  match m with
  | Raise e => e ∈ allowed
  | Ok _ => True
  end.

(** The character class [[\d,]] of the amount patterns. *)
Definition digit_or_comma (a : ascii) : bool := is_digit a || Ascii.eqb a ",".

(** [re.fullmatch(r'\d{4}-\d{2}-\d{2}T\d{2}:\d{2}:\d{2}', s)] *)
Definition iso_datetime_shape (s : string) : bool :=
  let d := is_digit in
  let dash := in_range "-" "-" in
  let colon := in_range ":" ":" in
  match match_classes [d; d; d; d; dash; d; d; dash; d; d; in_range "T" "T";
                       d; d; colon; d; d; colon; d; d] s with
  | Some (_, EmptyString) => true
  | _ => false
  end.


(** ** Confidence mode and plain mode *)

(** The facts of confidence mode with every [ExtractionResult] replaced by
    its value. *)
Definition unwrap_facts (f : facts) : facts := unwrap_result true <$> f.

(** The defaults that [_evaluate_formula] passes to [get_value]. *)
Definition formula_defaults : list value := [VNone; VBool false; VInt 0].

(** * Properties *)

(** ** Characters, substrings and lowercasing *)

Lemma lower_char_not_upper (a : ascii) : is_upper (lower_char a) = false.
Proof. destruct a as [[] [] [] [] [] [] [] []]; reflexivity. Qed.

Lemma str_lower_no_upper (s : string) : str_any is_upper (str_lower s) = false.
Proof.
  induction s as [|a s IH]; simpl; [reflexivity|].
  rewrite lower_char_not_upper, IH. reflexivity.
Qed.

Lemma prefix_str_any (p : ascii → bool) (kw s : string) :
  String.prefix kw s = true → str_any p kw = true → str_any p s = true.
Proof.
  revert s. induction kw as [|c kw IH]; intros s Hpre Hany; [discriminate|].
  destruct s as [|a s]; simpl in Hpre, Hany; [discriminate|]. simpl.
  destruct (ascii_dec c a) as [->|]; [|discriminate].
  apply orb_true_iff in Hany as [Hc|Hkw].
  - rewrite Hc. reflexivity.
  - rewrite (IH s Hpre Hkw). apply orb_true_r.
Qed.

Lemma str_in_unfold (sub s : string) :
  str_in sub s
  = if String.prefix sub s then true
    else match s with
         | EmptyString => false
         | String _ s' => str_in sub s'
         end.
Proof. destruct s; reflexivity. Qed.

Lemma str_in_str_any (p : ascii → bool) (kw s : string) :
  str_in kw s = true → str_any p kw = true → str_any p s = true.
Proof.
  intros Hin Hany. induction s as [|a s IH]; rewrite str_in_unfold in Hin.
  - destruct (String.prefix kw "") eqn:Hp; [|discriminate].
    apply (prefix_str_any p kw "" Hp Hany).
  - destruct (String.prefix kw (String a s)) eqn:Hp.
    + apply (prefix_str_any p kw _ Hp Hany).
    + simpl. rewrite (IH Hin). apply orb_true_r.
Qed.

(** A keyword with an uppercase character occurs in no lowercased text. *)
Lemma uppercase_keyword_absent (kw text : string) :
  str_any is_upper kw = true → str_in kw (str_lower text) = false.
Proof.
  intros Hup. destruct (str_in kw (str_lower text)) eqn:Hin; [|reflexivity].
  pose proof (str_in_str_any is_upper kw _ Hin Hup) as H.
  rewrite str_lower_no_upper in H. discriminate.
Qed.

(** A keyword that does not occur changes nothing in the keyword loop. *)
Lemma keyword_scan_skip (ex : extractor) (text_lower kw : string)
    (before after : list string) :
  str_in kw text_lower = false →
  keyword_scan ex text_lower (before ++ kw :: after)
  = keyword_scan ex text_lower (before ++ after).
Proof.
  intros Hkw. induction before as [|k before IH]; simpl.
  - rewrite Hkw. reflexivity.
  - rewrite IH. reflexivity.
Qed.

(** The keyword loop reads the extractor only through its negation
    settings. *)
Lemma keyword_scan_with_keywords (ex : extractor) (l : list string)
    (text_lower : string) (keywords : list string) :
  keyword_scan (with_keywords ex l) text_lower keywords
  = keyword_scan ex text_lower keywords.
Proof. induction keywords as [|k ks IH]; simpl; [reflexivity|]. rewrite IH. reflexivity. Qed.

Section BooleanExtraction.

Context {regex : Type}
  (compiled : string → option regex)
  (re_search : regex → string → option re_match)
  (re_findall : regex → string → list findall_item).

(** A boolean extractor without a (truthy) pattern is decided by the
    keyword loop alone. *)
Lemma extract_field_keyword_based (text text_lower : string) (ex : extractor) :
  type_is ex "boolean" = true → truthy_pattern ex = None →
  _extract_field compiled re_search re_findall text text_lower ex
  = Ok (VBool (keyword_scan ex text_lower (ex_keywords ex))).
Proof.
  intros Hty Hpat. unfold _extract_field, extract_boolean, compiled_pattern_of.
  rewrite Hty, Hpat. reflexivity.
Qed.

(** C1 (as amended): the [has_approval] extractor of the default
    mortgage-compliance-v1 ontology configures no negation words, so the
    negation window is never consulted: both "not approved" and
    "approved, no issues" give [has_approval = true].  The negation-window
    rule takes effect once negation words are configured: with
    [negation_words = ["not"; "no"]], "not approved" gives [false] while
    "approved, no issues" still gives [true], the "no" lying after the
    keyword and outside the window. *)
Theorem C1_has_approval_negation_window :
  let has_approval := extractor_named OntologyLoader._get_default_ontology "has_approval" in
  let extract text ex :=
    _extract_field compiled re_search re_findall text (str_lower text) ex in
  ex_negation_words has_approval = []
  ∧ extract "not approved" has_approval = Ok (VBool true)
  ∧ extract "approved, no issues" has_approval = Ok (VBool true)
  ∧ extract "not approved" (with_negation_words has_approval ["not"; "no"])
    = Ok (VBool false)
  ∧ extract "approved, no issues" (with_negation_words has_approval ["not"; "no"])
    = Ok (VBool true).
Proof.
  cbv zeta. repeat split;
    try (rewrite extract_field_keyword_based by reflexivity); reflexivity.
Qed.

(** C9: in keyword-based boolean extraction a keyword is searched verbatim
    in the lowercased text, so a keyword [kw] with an uppercase character
    never occurs in it; the extractor returns what it returns without [kw],
    and [false] when [kw] is its only keyword.  The confidence calculation
    lowercases the keyword first and can still count it: with the keyword
    "Approved" and the text "approved" the value is [false] while the
    confidence is the 0.75 of one keyword hit. *)
Theorem C9_uppercase_keyword_never_matches (ex : extractor) (text kw : string)
    (before after : list string) :
  type_is ex "boolean" = true →
  truthy_pattern ex = None →
  str_any is_upper kw = true →
  let extract ex := _extract_field compiled re_search re_findall text (str_lower text) ex in
  str_in kw (str_lower text) = false
  ∧ extract (with_keywords ex (before ++ kw :: after))
    = extract (with_keywords ex (before ++ after))
  ∧ extract (with_keywords ex [kw]) = Ok (VBool false)
  ∧ (let ex' := OntologyLoader.keyword_extractor ["Approved"] in
     _extract_field compiled re_search re_findall "approved" "approved" ex'
     = Ok (VBool false)
     ∧ keyword_hit "approved" "Approved" = true
     ∧ _calculate_confidence "approved" "approved" ex' (VBool false) = Ok 0.75%float).
Proof.
  intros Hty Hpat Hup extract.
  pose proof (uppercase_keyword_absent kw text Hup) as Habs.
  split; [exact Habs|]. unfold extract.
  rewrite !extract_field_keyword_based by assumption. simpl.
  rewrite !keyword_scan_with_keywords.
  split; [|split].
  - rewrite (keyword_scan_skip ex _ kw before after Habs). reflexivity.
  - simpl. rewrite Habs. reflexivity.
  - repeat split; reflexivity.
Qed.

End BooleanExtraction.

(** C1 as the specification states it fails: "not approved" gives
    [has_approval = true] under the default ontology. *)
Lemma C1_not_approved_gives_true :
  _extract_field compile_nothing search_nothing findall_nothing
    "not approved" (str_lower "not approved")
    (extractor_named OntologyLoader._get_default_ontology "has_approval")
  = Ok (VBool true)
  ∧ Ok (VBool true) ≠ Ok (VBool false).
Proof. split; [reflexivity | discriminate]. Qed.

Lemma C9_witness :
  str_any is_upper "Approved" = true
  ∧ _extract_field compile_nothing search_nothing findall_nothing
      "Approved" (str_lower "Approved")
      (with_keywords (OntologyLoader.keyword_extractor []) ["Approved"])
    = Ok (VBool false).
Proof.
  split; [reflexivity|].
  exact (proj1 (proj2 (proj2
    (C9_uppercase_keyword_never_matches compile_nothing search_nothing findall_nothing
       (OntologyLoader.keyword_extractor []) "Approved" "Approved" [] ["approve"]
       eq_refl eq_refl eq_refl)))).
Defined.

(** ** The formula interpreter *)

Section Formulas.

Context (include_confidence : bool) (extracted : facts).

Let gv : value → value → result value := get_value include_confidence extracted.
Let self : value → result value := λ f, _evaluate_formula f extracted gv.

(** An operand is a field lookup for a string and the literal itself
    otherwise; it never re-enters the interpreter. *)
Lemma operand_spec (x : value) :
  operand gv x
  = match x with
    | VStr s => Ok (unwrap_result include_confidence (default VNone (extracted !! s)))
    | _ => Ok x
    end.
Proof. destruct x; reflexivity. Qed.

Lemma evaluate_compare (op : string) (c : cmpop) (args : value) :
  In (op, c) [("gt", OpGt); (">", OpGt); ("gte", OpGe); (">=", OpGe);
              ("lt", OpLt); ("<", OpLt); ("lte", OpLe); ("<=", OpLe)] →
  _evaluate_formula (VDict [(op, args)]) extracted gv = compare_args gv c args.
Proof.
  intros Hin. simpl in Hin.
  repeat (destruct Hin as [Heq|Hin]; [injection Heq as <- <-; reflexivity|]).
  destruct Hin.
Qed.

Lemma compare_args_null (c : cmpop) (a b left right : value) :
  operand gv a = Ok left → operand gv b = Ok right →
  left = VNone ∨ right = VNone →
  compare_args gv c (VList [a; b]) = Ok VNone.
Proof.
  intros Ha Hb Hnull. unfold compare_args. simpl. rewrite Ha. simpl. rewrite Hb. simpl.
  destruct Hnull as [-> | ->]; [reflexivity|].
  rewrite andb_false_r. reflexivity.
Qed.

Lemma evaluate_arith (op : string) (is_add : bool) (args : list value) :
  In (op, is_add) [("add", true); ("+", true); ("mul", false); ("*", false)] →
  (2 <= length args)%nat →
  _evaluate_formula (VDict [(op, VList args)]) extracted gv
  = bind (mapM (eval_item self (operand gv)) args) (arith_result is_add).
Proof.
  intros Hin Hlen.
  assert (Hlen' : (2 <=? Z.of_nat (length args))%Z = true) by (apply Z.leb_le; lia).
  simpl in Hin.
  repeat (destruct Hin as [Heq|Hin];
          [injection Heq as <- <-; simpl; rewrite Hlen'; reflexivity|]).
  destruct Hin.
Qed.

Lemma arith_result_null (is_add : bool) (values : list value) :
  In VNone values → arith_result is_add values = Ok VNone.
Proof.
  intros Hin. unfold arith_result.
  assert (forallb (λ v, negb (is_none v)) values = false) as ->; [|reflexivity].
  induction values as [|v vs IH]; [destruct Hin|].
  simpl. destruct Hin as [-> | Hin]; [reflexivity|].
  rewrite (IH Hin). apply andb_false_r.
Qed.

(** C5: for the comparison operators a null on either evaluated side gives
    null, and for [add] and [mul] with two or more arguments a null among the
    evaluated arguments gives null. *)
Theorem C5_null_operand_gives_null :
  (∀ (op : string) (c : cmpop) (a b left right : value),
     In (op, c) [("gt", OpGt); ("gte", OpGe); ("lt", OpLt); ("lte", OpLe)] →
     operand gv a = Ok left → operand gv b = Ok right →
     left = VNone ∨ right = VNone →
     _evaluate_formula (VDict [(op, VList [a; b])]) extracted gv = Ok VNone)
  ∧ (∀ (op : string) (args values : list value),
       In op ["add"; "mul"] → (2 <= length args)%nat →
       mapM (eval_item self (operand gv)) args = Ok values →
       In VNone values →
       _evaluate_formula (VDict [(op, VList args)]) extracted gv = Ok VNone).
Proof.
  split.
  - intros op c a b left right Hop Ha Hb Hnull.
    rewrite (evaluate_compare op c).
    + apply (compare_args_null c a b left right Ha Hb Hnull).
    + simpl in *. tauto.
  - intros op args values Hop Hlen Hvals Hnull.
    assert (Hin : ∃ is_add, In (op, is_add)
                    [("add", true); ("+", true); ("mul", false); ("*", false)]).
    { simpl in Hop. destruct Hop as [<- | [<- | []]];
        [exists true | exists false]; simpl; tauto. }
    destruct Hin as [is_add Hin].
    rewrite (evaluate_arith op is_add args Hin Hlen), Hvals. simpl.
    apply arith_result_null, Hnull.
Qed.

(** C10: in [if] with three arguments only the condition goes through the
    interpreter, and only when it is a formula object; a condition that is
    not one is looked up if it is a string and is itself otherwise.  The
    selected branch never goes through the interpreter: a string is looked
    up as a field, and anything else, a nested formula object included, is
    returned as it is.  With the facts [x = 7] and [y = 'yes'], the formula
    [{if: [{gt: [x, 5]}, {add: [1, 2]}, y]}] is the object [{add: [1, 2]}],
    not 3, and [{if: [{gt: [x, 9]}, {add: [1, 2]}, y]}] is ['yes']. *)
Theorem C10_if_branch_not_evaluated (condition then_val else_val : value) :
  let lookup (x : value) : result value :=
    match x with
    | VStr s => Ok (unwrap_result include_confidence (default VNone (extracted !! s)))
    | _ => Ok x
    end in
  let run (formula : value) (known : facts) : result value :=
    _evaluate_formula formula known (get_value false known) in
  let known : facts := {[ "x" := VInt 7; "y" := VStr "yes" ]} in
  let nested := VDict [("add", VList [VInt 1; VInt 2])] in
  _evaluate_formula (VDict [("if", VList [condition; then_val; else_val])])
    extracted (get_value include_confidence extracted)
  = bind (match condition with
          | VDict _ =>
              _evaluate_formula condition extracted
                (get_value include_confidence extracted)
          | _ => lookup condition
          end)
      (λ cond_result, lookup (if py_truthy cond_result then then_val else else_val))
  ∧ (∀ d : list (string * value), lookup (VDict d) = Ok (VDict d))
  ∧ run nested known = Ok (VInt 3)
  ∧ run (VDict [("if", VList [VDict [("gt", VList [VStr "x"; VInt 5])];
                              nested; VStr "y"])]) known
    = Ok nested
  ∧ run (VDict [("if", VList [VDict [("gt", VList [VStr "x"; VInt 9])];
                              nested; VStr "y"])]) known
    = Ok (VStr "yes")
  ∧ run (VDict [("if", VList [VDict [("gt", VList [VStr "x"; VInt 9])];
                              VStr "y"; nested])]) known
    = Ok nested
  ∧ run (VDict [("if", VList [VStr "y"; nested; VInt 0])]) known = Ok nested
  ∧ run (VDict [("if", VList [VStr "absent"; nested; VInt 0])]) known = Ok (VInt 0).
Proof.
  intros lookup run known nested.
  split; [|split; [reflexivity | repeat split; vm_compute; reflexivity]].
  change (_evaluate_formula
            (VDict [("if", VList [condition; then_val; else_val])]) extracted
            (get_value include_confidence extracted))
    with (if_args self gv (VList [condition; then_val; else_val])).
  unfold if_args. simpl.
  assert (Hleaf : ∀ x, operand gv x = lookup x) by (intros x; apply operand_spec).
  assert (Hcond : eval_item self (operand gv) condition
                  = match condition with
                    | VDict _ =>
                        _evaluate_formula condition extracted
                          (get_value include_confidence extracted)
                    | _ => lookup condition
                    end).
  { unfold eval_item. destruct condition; try reflexivity; apply Hleaf. }
  rewrite Hcond.
  destruct (match condition with
            | VDict _ => _
            | _ => _
            end) as [r|e]; simpl; [|reflexivity].
  destruct (py_truthy r); apply Hleaf.
Qed.

End Formulas.

(** An operator outside the closed set evaluates to null. *)
Lemma evaluate_unknown_operator (extracted : facts) (op : string) (args : value)
    (get : value → value → result value) :
  ¬ In op operators →
  _evaluate_formula (VDict [(op, args)]) extracted get = Ok VNone.
Proof.
  intros Hop.
  assert (H : ∀ name, In name operators → String.eqb op name = false).
  { intros name Hin. apply String.eqb_neq. intros ->. exact (Hop Hin). }
  simpl. unfold cmpop_of, op_in. simpl.
  repeat (rewrite H by (simpl; tauto)). reflexivity.
Qed.


Lemma C5_witness :
  let extracted : facts := {[ "x" := VInt 3 ]} in
  _evaluate_formula (VDict [("gt", VList [VStr "x"; VStr "missing"])])
    extracted (get_value false extracted) = Ok VNone
  ∧ _evaluate_formula (VDict [("mul", VList [VInt 2; VStr "missing"])])
      extracted (get_value false extracted) = Ok VNone.
Proof.
  split.
  - apply (proj1 (C5_null_operand_gives_null false {[ "x" := VInt 3 ]})
             "gt" OpGt (VStr "x") (VStr "missing") (VInt 3) VNone).
    + simpl. left. reflexivity.
    + reflexivity.
    + reflexivity.
    + right. reflexivity.
  - apply (proj2 (C5_null_operand_gives_null false {[ "x" := VInt 3 ]})
             "mul" [VInt 2; VStr "missing"] [VInt 2; VNone]).
    + simpl. right. left. reflexivity.
    + simpl. lia.
    + reflexivity.
    + simpl. right. left. reflexivity.
Defined.

(** ** The constraint evaluator *)

Lemma check_constraint_spec (extracted : facts) (violations : list violation)
    (c : constraint) (r : value) :
  predicate_value extracted c = Ok r →
  check_constraint extracted violations c
  = Ok (if is_False r then violations ++ [violation_of c] else violations).
Proof. intros H. unfold check_constraint. rewrite H. reflexivity. Qed.

(** Every violation that the fold records comes from a constraint of the
    list whose predicate evaluated to exactly [False]. *)
Lemma violations_are_false_predicates (extracted : facts) (cs : list constraint) :
  ∀ acc vs : list violation,
    foldM (check_constraint extracted) cs acc = Ok vs →
    ∀ v, In v vs →
      In v acc
      ∨ ∃ c, In c cs ∧ v = violation_of c
             ∧ predicate_value extracted c = Ok (VBool false).
Proof.
  induction cs as [|c cs IH]; intros acc vs Hfold v Hv; simpl in Hfold.
  - injection Hfold as <-. left. exact Hv.
  - unfold check_constraint at 1 in Hfold.
    destruct (predicate_value extracted c) as [r|e] eqn:Hr; simpl in Hfold; [|discriminate].
    destruct (IH _ _ Hfold v Hv) as [Hacc | (c' & Hin & Heq & Hfalse)].
    + destruct (is_False r) eqn:HF.
      * apply in_app_or in Hacc as [Hacc | [<- | []]]; [left; exact Hacc|].
        right. exists c. split; [left; reflexivity|]. split; [reflexivity|].
        destruct r as [| [] | | | | | |]; try discriminate. exact Hr.
      * left. exact Hacc.
    + right. exists c'. split; [right; exact Hin|]. split; assumption.
Qed.

(** C4: a constraint whose predicate evaluates to null records no
    violation; this covers every formula whose operator is outside the
    closed operator set, which the interpreter evaluates to null.  A
    violation is recorded exactly when the predicate evaluates to [False]. *)
Theorem C4_null_predicate_no_violation (extracted : facts) :
  (∀ (op : string) (args : value) (get : value → value → result value),
     ¬ In op operators →
     _evaluate_formula (VDict [(op, args)]) extracted get = Ok VNone)
  ∧ (∀ (c : constraint) (violations : list violation) (op : string) (args : value),
       c_formula c = VDict [(op, args)] → ¬ In op operators →
       check_constraint extracted violations c = Ok violations)
  ∧ (∀ (c : constraint) (violations : list violation),
       predicate_value extracted c = Ok VNone →
       check_constraint extracted violations c = Ok violations)
  ∧ (∀ (c : constraint) (violations : list violation) (r : value),
       predicate_value extracted c = Ok r →
       (r = VBool false
        ∧ check_constraint extracted violations c = Ok (violations ++ [violation_of c]))
       ∨ (r ≠ VBool false
          ∧ check_constraint extracted violations c = Ok violations))
  ∧ (∀ (o : ontology) (verified : bool) (violations : list violation),
       verify extracted o = Ok (verified, violations) →
       ∀ v, In v violations →
         ∃ c, In c (o_constraints o) ∧ v = violation_of c
              ∧ predicate_value extracted c = Ok (VBool false)).
Proof.
  split; [|split; [|split; [|split]]].
  - intros op args get Hop. apply evaluate_unknown_operator; exact Hop.
  - intros c violations op args Hf Hop.
    apply (check_constraint_spec extracted violations c VNone).
    unfold predicate_value. rewrite Hf. simpl is_none. cbv iota.
    apply evaluate_unknown_operator; exact Hop.
  - intros c violations Hr.
    apply (check_constraint_spec extracted violations c VNone Hr).
  - intros c violations r Hr.
    rewrite (check_constraint_spec extracted violations c r Hr).
    destruct r as [| [] | | | | | |]; simpl;
      try (right; split; [discriminate | reflexivity]).
    left. split; reflexivity.
  - intros o verified violations Hv v Hin. unfold verify in Hv.
    destruct (foldM (check_constraint extracted) (o_constraints o) []) as [vs|e] eqn:Hf;
      simpl in Hv; [|discriminate].
    injection Hv as _ <-.
    destruct (violations_are_false_predicates extracted _ _ _ Hf v Hin) as [[] | H].
    exact H.
Qed.

Lemma C4_witness :
  let c := mkConstraint "X" "cat" "desc" "readable" [] "message" "cite"
             (VDict [("frobnicate", VList [VStr "dti"; VInt 43])]) in
  ¬ In "frobnicate" operators
  ∧ check_constraint {[ "dti" := VInt 52 ]} [] c = Ok [].
Proof.
  split.
  - simpl. intros H. decompose [or] H; discriminate || assumption.
  - apply (proj1 (proj2 (C4_null_predicate_no_violation {[ "dti" := VInt 52 ]}))
             (mkConstraint "X" "cat" "desc" "readable" [] "message" "cite"
                (VDict [("frobnicate", VList [VStr "dti"; VInt 43])]))
             [] "frobnicate" (VList [VStr "dti"; VInt 43]) eq_refl).
    simpl. intros H. decompose [or] H; discriminate || assumption.
Defined.

(** ** Settlement of computed fields *)

(** The loop counts its passes in [iteration] and stops at
    [max_iterations]. *)
Lemma settle_loop_iteration (include_confidence : bool) (computed_names : gset string)
    (max_iterations : nat) :
  ∀ (fuel iteration : nat) (remaining : list (string * extractor)) (extracted : facts),
    (iteration <= max_iterations)%nat →
    ((settle_loop fuel include_confidence computed_names max_iterations iteration
        remaining extracted).2 <= max_iterations)%nat.
Proof.
  induction fuel as [|fuel IH]; intros iteration remaining extracted Hle; simpl.
  - exact Hle.
  - destruct (negb (bool_decide (remaining = [])) && (iteration <? max_iterations)%nat)
      eqn:Hguard; simpl; [|exact Hle].
    apply andb_true_iff in Hguard as [_ Hlt]. apply Nat.ltb_lt in Hlt.
    destruct (settle_pass include_confidence computed_names remaining extracted)
      as [extracted' remaining'].
    apply IH. lia.
Qed.

(** Fuel beyond [max_iterations - iteration] is never used: the loop is the
    [while] of the source, which ends by its own guard. *)
Lemma settle_loop_fuel (include_confidence : bool) (computed_names : gset string)
    (max_iterations : nat) :
  ∀ (fuel extra iteration : nat) (remaining : list (string * extractor))
    (extracted : facts),
    (max_iterations - iteration <= fuel)%nat →
    settle_loop (fuel + extra) include_confidence computed_names max_iterations
      iteration remaining extracted
    = settle_loop fuel include_confidence computed_names max_iterations
        iteration remaining extracted.
Proof.
  induction fuel as [|fuel IH]; intros extra iteration remaining extracted Hfuel.
  - destruct extra as [|extra]; [reflexivity|]. simpl.
    assert ((iteration <? max_iterations)%nat = false) as ->
      by (apply Nat.ltb_ge; lia).
    rewrite andb_false_r. reflexivity.
  - simpl.
    destruct (negb (bool_decide (remaining = [])) && (iteration <? max_iterations)%nat)
      eqn:Hguard; [|reflexivity].
    destruct (settle_pass include_confidence computed_names remaining extracted)
      as [extracted' remaining'].
    apply IH. lia.
Qed.

(** At most [N + 1] passes for [N] computed fields. *)
Lemma settle_pass_bound (include_confidence : bool) (extracted : facts)
    (computed_extractors : list (string * extractor)) :
  ((settle include_confidence extracted computed_extractors).2
   <= length computed_extractors + 1)%nat.
Proof. unfold settle. apply settle_loop_iteration. lia. Qed.


(** ** Confidence *)

Lemma calculate_confidence_in_unit (text text_lower : string) (ex : extractor)
    (v : value) :
  returns (λ c, in_unit c = true) (_calculate_confidence text text_lower ex v).
Proof.
  unfold _calculate_confidence.
  destruct (truthy_pattern ex); [reflexivity|].
  destruct (type_is ex "enum").
  { destruct (in_choices v (ex_choices ex)) as [[]|]; simpl; try reflexivity; exact I. }
  destruct (type_is ex "boolean").
  { simpl. repeat match goal with |- context [if ?b then _ else _] => destruct b end;
      reflexivity. }
  destruct (type_is ex "list" && is_list v).
  { destruct (py_len v) as [n|]; simpl; [|exact I].
    repeat match goal with |- context [if ?b then _ else _] => destruct b end;
      reflexivity. }
  destruct (type_is ex "date" || type_is ex "datetime").
  { simpl. destruct v; try reflexivity.
    destruct (iso_date_prefix s); reflexivity. }
  destruct (type_is ex "int" || type_is ex "float" || type_is ex "money"
            || type_is ex "percentage"); reflexivity.
Qed.

Lemma computed_fact_confidence_ok (v : value) :
  computed_fact (Some v) → confidence_ok v = true ∧ fact_ok v = true.
Proof.
  destruct v; simpl; try tauto. intros [-> _]. split; reflexivity.
Qed.

Lemma set_computed_lookup (extracted : facts) (field : string) (v : value) :
  set_computed true extracted field v !! field
  = Some (VResult v 1%float "computed" (Some "computed")).
Proof. unfold set_computed. apply lookup_insert_eq. Qed.

(** Writing a computed field changes that field only, into a computed fact. *)
Lemma set_computed_changes (extracted : facts) (field : string) (v : value) (k : string) :
  set_computed true extracted field v !! k = extracted !! k
  ∨ computed_fact (set_computed true extracted field v !! k).
Proof.
  unfold set_computed. destruct (decide (field = k)) as [->|Hne].
  - right. rewrite lookup_insert_eq. split; reflexivity.
  - left. apply lookup_insert_ne, Hne.
Qed.

Lemma set_default_changes (extracted : facts) (field : string) (v : value) (k : string) :
  set_default true extracted field v !! k = extracted !! k
  ∨ computed_fact (set_default true extracted field v !! k).
Proof.
  unfold set_default. destruct (is_none v); [left; reflexivity|].
  apply set_computed_changes.
Qed.

Lemma computed_changes_refl (f : facts) : computed_changes f f.
Proof. intros k. left. reflexivity. Qed.

Lemma computed_changes_trans (f g h : facts) :
  computed_changes f g → computed_changes g h → computed_changes f h.
Proof.
  intros Hfg Hgh k. destruct (Hgh k) as [Heq|Hc]; [|right; exact Hc].
  rewrite Heq. apply Hfg.
Qed.

Lemma settle_field_changes (computed_names : gset string)
    (st : facts * list string) (item : string * extractor) :
  computed_changes st.1 (settle_field true computed_names st item).1.
Proof.
  destruct st as [extracted done], item as [field_name ex]. unfold settle_field.
  destruct (negb (py_truthy (ex_formula ex))); simpl.
  { intros k. apply set_default_changes. }
  destruct (bool_decide _); simpl; [apply computed_changes_refl|].
  destruct (_evaluate_formula _ _ _) as [r|e]; simpl.
  - destruct (negb (is_none r)); intros k;
      [apply set_computed_changes | apply set_default_changes].
  - intros k. apply set_default_changes.
Qed.

Lemma settle_fold_changes (computed_names : gset string)
    (remaining : list (string * extractor)) :
  ∀ st : facts * list string,
    computed_changes st.1
      (foldl (settle_field true computed_names) st remaining).1.
Proof.
  induction remaining as [|item remaining IH]; intros st; simpl.
  - apply computed_changes_refl.
  - eapply computed_changes_trans; [apply settle_field_changes | apply IH].
Qed.

Lemma settle_loop_changes (computed_names : gset string) (max_iterations : nat) :
  ∀ (fuel iteration : nat) (remaining : list (string * extractor)) (extracted : facts),
    computed_changes extracted
      (settle_loop fuel true computed_names max_iterations iteration
         remaining extracted).1.1.
Proof.
  induction fuel as [|fuel IH]; intros iteration remaining extracted; simpl.
  - apply computed_changes_refl.
  - destruct (negb (bool_decide (remaining = [])) && (iteration <? max_iterations)%nat);
      [|apply computed_changes_refl].
    unfold settle_pass.
    pose proof (settle_fold_changes computed_names remaining (extracted, [])) as Hpass.
    destruct (foldl (settle_field true computed_names) (extracted, []) remaining)
      as [extracted' done].
    eapply computed_changes_trans; [exact Hpass | apply IH].
Qed.

Lemma calculate_computed_fields_changes (extracted : facts) (text_lower : string)
    (computed_extractors : list (string * extractor)) :
  computed_changes extracted
    (_calculate_computed_fields extracted text_lower computed_extractors true).
Proof. unfold _calculate_computed_fields, settle. apply settle_loop_changes. Qed.

Lemma calculate_derived_fields_changes (extracted : facts) (text_lower : string) :
  returns (λ f, computed_changes extracted f ∧ computed_fact (f !! "word_count"))
    (_calculate_derived_fields extracted text_lower true).
Proof.
  unfold _calculate_derived_fields, get_value. cbn [bind].
  generalize (unwrap_result true (default VNone (extracted !! "fees"))) as fees.
  generalize (unwrap_result true (default VNone (extracted !! "loan_amount"))) as loan.
  intros loan fees.
  assert (Hfee : returns (computed_changes extracted)
            (if negb (is_none fees) && negb (is_none loan)
             then bind (py_richcmp OpGt loan (VInt 0)) (λ positive,
                    if positive then
                      bind (py_truediv fees loan) (λ q,
                      bind (py_mul q (VInt 100)) (λ pct,
                        Ok (set_computed true extracted "fee_percentage" pct)))
                    else Ok extracted)
             else Ok extracted)).
  { destruct (negb (is_none fees) && negb (is_none loan));
      [|apply computed_changes_refl].
    destruct (py_richcmp OpGt loan (VInt 0)) as [[]|]; simpl;
      [|apply computed_changes_refl|exact I].
    destruct (py_truediv fees loan) as [q|]; simpl; [|exact I].
    destruct (py_mul q (VInt 100)) as [pct|]; simpl; [|exact I].
    intros k. apply set_computed_changes. }
  destruct (if negb (is_none fees) && negb (is_none loan) then _ else _)
    as [extracted'|]; cbn [bind returns] in *; [|exact I].
  split.
  - eapply computed_changes_trans; [exact Hfee|]. intros k. apply set_computed_changes.
  - rewrite set_computed_lookup. split; reflexivity.
Qed.

Lemma facts_ok_changes (f f' : facts) :
  facts_ok f → computed_changes f f' → facts_ok f'.
Proof.
  intros Hf Hch k v Hk. destruct (Hch k) as [Heq|Hc].
  - apply (Hf k). rewrite <- Heq. exact Hk.
  - rewrite Hk in Hc. apply computed_fact_confidence_ok, Hc.
Qed.

Lemma dict_set_scores_ok (k : string) (c : float) (d : list (string * value)) :
  in_unit c = true → scores_ok d = true → scores_ok (dict_set k (VFloat c) d) = true.
Proof.
  intros Hc Hd. unfold dict_set, scores_ok in *.
  destruct (existsb _ d).
  - induction d as [|[k' x] d IH]; [reflexivity|]. simpl in *.
    apply andb_true_iff in Hd as [Hx Hd].
    destruct (String.eqb k k'); simpl; [rewrite Hc | rewrite Hx]; apply IH, Hd.
  - rewrite forallb_app, Hd. simpl. rewrite Hc. reflexivity.
Qed.

Section Confidence.

Context {regex : Type}
  (compiled : string → option regex)
  (re_search : regex → string → option re_match)
  (re_findall : regex → string → list findall_item)
  (py_str : value → string).

Lemma extract_with_confidence_ok (text text_lower : string) (ex : extractor) :
  returns (λ r, r = VNone ∨ ∃ v c s t, r = VResult v c s t ∧ in_unit c = true)
    (_extract_field_with_confidence compiled re_search re_findall py_str
       text text_lower ex).
Proof.
  unfold _extract_field_with_confidence.
  destruct (_extract_field compiled re_search re_findall text text_lower ex) as [v|];
    simpl; [|exact I].
  destruct (is_none v); simpl; [left; reflexivity|].
  pose proof (calculate_confidence_in_unit text text_lower ex v) as Hc.
  destruct (_calculate_confidence text text_lower ex v) as [c|]; simpl in *; [|exact I].
  right. eauto 6.
Qed.

Lemma parse_field_ok (text text_lower : string)
    (st : facts * list (string * value) * list (string * extractor))
    (item : string * extractor) :
  facts_ok st.1.1 → scores_ok st.1.2 = true →
  returns (λ st', facts_ok st'.1.1 ∧ scores_ok st'.1.2 = true)
    (parse_field compiled re_search re_findall py_str text text_lower true st item).
Proof.
  destruct st as [[extracted scores] computed], item as [field_name ex].
  intros Hf Hs. unfold parse_field. simpl in Hf, Hs.
  destruct (type_is ex "computed" || ex_computed ex); simpl; [split; assumption|].
  pose proof (extract_with_confidence_ok text text_lower ex) as Hr.
  destruct (_extract_field_with_confidence _ _ _ _ _ _ _) as [r|]; simpl in *; [|exact I].
  destruct Hr as [-> | (v & c & src & t & -> & Hc)]; simpl; [split; assumption|].
  split.
  - intros k w Hk. destruct (decide (field_name = k)) as [->|Hne].
    + rewrite lookup_insert_eq in Hk. injection Hk as <-. exact Hc.
    + rewrite lookup_insert_ne in Hk by exact Hne. apply (Hf k w Hk).
  - apply dict_set_scores_ok; assumption.
Qed.

Lemma parse_fields_ok (text text_lower : string)
    (extractors : list (string * extractor)) :
  ∀ st : facts * list (string * value) * list (string * extractor),
    facts_ok st.1.1 → scores_ok st.1.2 = true →
    returns (λ st', facts_ok st'.1.1 ∧ scores_ok st'.1.2 = true)
      (foldM (parse_field compiled re_search re_findall py_str text text_lower true)
         extractors st).
Proof.
  induction extractors as [|item extractors IH]; intros st Hf Hs; simpl.
  - split; assumption.
  - pose proof (parse_field_ok text text_lower st item Hf Hs) as Hstep.
    destruct (parse_field _ _ _ _ _ _ _ st item) as [st'|]; simpl in *; [|exact I].
    destruct Hstep as [Hf' Hs']. apply IH; assumption.
Qed.

Lemma parse_facts_ok (text : string) (o : ontology) :
  returns facts_ok (parse compiled re_search re_findall py_str text o true).
Proof.
  unfold parse. cbv zeta.
  assert (Hempty : facts_ok (∅ : facts))
    by (intros k v Hk; rewrite lookup_empty in Hk; discriminate).
  pose proof (parse_fields_ok text (str_lower text) (o_extractors o) (∅, [], [])
                Hempty eq_refl) as Hfold.
  destruct (foldM _ (o_extractors o) (∅, [], [])) as [[[extracted scores] computed]|];
    cbn [bind returns] in *; [|exact I].
  destruct Hfold as [Hf Hs]. simpl in Hf, Hs.
  pose proof (calculate_derived_fields_changes extracted (str_lower text)) as Hd.
  destruct (_calculate_derived_fields extracted (str_lower text) true) as [derived|];
    cbn [bind returns] in *; [|exact I].
  destruct Hd as [Hd _].
  pose proof (calculate_computed_fields_changes derived (str_lower text) computed) as Hc.
  intros k v Hk. destruct (decide ("_confidence_scores" = k)) as [<-|Hne].
  - rewrite lookup_insert_eq in Hk. injection Hk as <-. exact Hs.
  - rewrite lookup_insert_ne in Hk by exact Hne.
    apply (facts_ok_changes derived _ (facts_ok_changes extracted _ Hf Hd) Hc k v Hk).
Qed.

(** C8: every confidence that extraction attaches lies in [0,1]: the value
    of [_calculate_confidence], the confidence of the record built by
    [_extract_field_with_confidence], and every fact and score of the facts
    that [parse] returns in confidence mode.  What [set_computed] and
    [set_derived] write is a record of confidence exactly [1.0] and source
    ["computed"]: the built-in derivations and the settlement of computed
    fields change the facts only by such records, and [word_count] is one. *)
Theorem C8_confidence_bounds :
  (∀ (text text_lower : string) (ex : extractor) (v : value),
     returns (λ c, in_unit c = true) (_calculate_confidence text text_lower ex v))
  ∧ (∀ (text text_lower : string) (ex : extractor),
       returns (λ r, confidence_ok r = true)
         (_extract_field_with_confidence compiled re_search re_findall py_str
            text text_lower ex))
  ∧ (∀ (text : string) (o : ontology),
       returns (λ f : facts, ∀ k v, f !! k = Some v → fact_ok v = true)
         (parse compiled re_search re_findall py_str text o true))
  ∧ (∀ (extracted : facts) (field : string) (v : value),
       set_computed true extracted field v !! field
       = Some (VResult v 1%float "computed" (Some "computed")))
  ∧ (∀ (extracted : facts) (text_lower : string),
       returns (λ f : facts,
                  (∀ k, f !! k = extracted !! k ∨ computed_fact (f !! k))
                  ∧ computed_fact (f !! "word_count"))
         (_calculate_derived_fields extracted text_lower true))
  ∧ (∀ (extracted : facts) (text_lower : string)
       (computed_extractors : list (string * extractor)) (k : string),
       let f := _calculate_computed_fields extracted text_lower computed_extractors true in
       f !! k = extracted !! k ∨ computed_fact (f !! k)).
Proof.
  split; [exact calculate_confidence_in_unit|].
  split.
  { intros text text_lower ex.
    pose proof (extract_with_confidence_ok text text_lower ex) as H.
    destruct (_extract_field_with_confidence _ _ _ _ _ _ _) as [r|]; simpl in *; [|exact I].
    destruct H as [-> | (v & c & s & t & -> & Hc)]; [reflexivity | exact Hc]. }
  split; [exact parse_facts_ok|].
  split; [exact set_computed_lookup|].
  split; [exact calculate_derived_fields_changes|].
  intros extracted text_lower computed_extractors k.
  apply calculate_computed_fields_changes.
Qed.

End Confidence.

Lemma C8_witness :
  fact_ok (VResult (VBool true) 0.75%float "approved" (Some "boolean")) = true.
Proof.
  exact (proj1 (proj2 (proj2
    (C8_confidence_bounds compile_nothing search_nothing findall_nothing str_of_scalar)))
    "Approved."
    (mkOntology "approval-only" "1.0.0" "" []
       [("has_approval", OntologyLoader.keyword_extractor ["approved"])])
    "has_approval" _ eq_refl).
Defined.

(** ** Numeric extraction *)

Lemma parse_numeric_money (m : re_match) (original_text g : string)
    (rest : list (option string)) (f : float) :
  m_groups m = Some g :: rest →
  py_float (str_remove "," g) = Ok f →
  _parse_numeric m original_text "money"
  = py_mul (VFloat f)
      (VInt (money_multiplier
               (str_lower (str_slice original_text (m_start m) (m_end m))))).
Proof.
  intros Hg Hf. unfold _parse_numeric, group1. rewrite Hg. simpl. rewrite Hf.
  reflexivity.
Qed.

(** Lowercasing keeps the length of a text and commutes with slicing. *)
Lemma str_lower_length (s : string) : String.length (str_lower s) = String.length s.
Proof. induction s as [|a s IH]; [reflexivity|]. cbn. rewrite IH. reflexivity. Qed.

Lemma substring_lower (s : string) :
  ∀ n m, str_lower (String.substring n m s) = String.substring n m (str_lower s).
Proof.
  induction s as [|a s IH]; intros [|n] [|m]; cbn; try reflexivity;
    rewrite ?IH; reflexivity.
Qed.

Lemma slice_lower (s : string) (a b : Z) :
  str_lower (str_slice s a b) = str_slice (str_lower s) a b.
Proof.
  unfold str_slice, str_len. rewrite str_lower_length. apply substring_lower.
Qed.

Section MoneyExtraction.

Context {regex : Type}
  (compiled : string → option regex)
  (re_search : regex → string → option re_match)
  (re_findall : regex → string → list findall_item).

(** A money extractor whose pattern matches [text_lower] multiplies the
    captured number by the multiplier read off the original text, sliced at
    the positions of the match in [text_lower]. *)
Lemma extract_money (text text_lower pattern : string) (ex : extractor) (c : regex)
    (m : re_match) (g : string) (rest : list (option string)) (f : float) :
  type_is ex "money" = true → truthy_pattern ex = Some pattern →
  compiled pattern = Some c → re_search c text_lower = Some m →
  m_groups m = Some g :: rest → py_float (str_remove "," g) = Ok f →
  _extract_field compiled re_search re_findall text text_lower ex
  = py_mul (VFloat f)
      (VInt (money_multiplier
               (str_lower (str_slice text (m_start m) (m_end m))))).
Proof.
  intros Hty Hpat Hc Hm Hg Hf.
  unfold type_is in Hty. apply bool_decide_eq_true_1 in Hty.
  unfold _extract_field, type_is. rewrite Hty.
  repeat (rewrite bool_decide_eq_false_2 by discriminate).
  rewrite bool_decide_eq_true_2 by reflexivity. cbn [orb].
  rewrite Hpat, Hc, Hm, Hg. unfold default. cbn [from_option id].
  apply (parse_numeric_money m text g rest f Hg Hf).
Qed.

(** C7: a money extractor whose pattern matches the lowercased text
    multiplies the captured number (commas removed) by a multiplier read off
    [original_text[match.start():match.end()].lower()], the original text
    sliced at the positions of the match in the lowercased text: 1e3 if the
    slice contains [k] anywhere, else 1e6 if it contains [m], else 1e9 if it
    contains [b], else 1.  Where lowercasing keeps the positions (as it does
    for every text of this model) the slice is the text of the match, and a
    match that reads "$5k" and captures 5 gives 5000.0, in whatever letter
    case the text has it.  The letter need not be a suffix of the number:
    the "m" of "mortgage" counts as the million multiplier; and a slice
    that misses the letter (one that reads "fees", say) leaves the number
    as captured. *)
Theorem C7_money_suffix_multiplier (text text_lower pattern : string) (ex : extractor)
    (c : regex) (m : re_match) (g : string) (rest : list (option string))
    (f : float) :
  type_is ex "money" = true → truthy_pattern ex = Some pattern →
  compiled pattern = Some c → re_search c text_lower = Some m →
  m_groups m = Some g :: rest → py_float (str_remove "," g) = Ok f →
  let slice := str_lower (str_slice text (m_start m) (m_end m)) in
  let extracted := _extract_field compiled re_search re_findall text text_lower ex in
  (text_lower = str_lower text → m_string m = text_lower → slice = group0 m)
  ∧ (str_in "k" slice = true → extracted = Ok (VFloat (f * 1000)))
  ∧ (str_in "k" slice = false → str_in "m" slice = true →
     extracted = Ok (VFloat (f * 1000000)))
  ∧ (str_in "k" slice = false → str_in "m" slice = false →
     str_in "b" slice = true → extracted = Ok (VFloat (f * 1000000000)))
  ∧ (str_in "k" slice = false → str_in "m" slice = false →
     str_in "b" slice = false → extracted = Ok (VFloat (f * 1)))
  ∧ (slice = "$5k" → g = "5" → extracted = Ok (VFloat 5000))
  ∧ (slice = "$300,000 mortgage" → g = "300,000" →
     extracted = Ok (VFloat 300000000000))
  ∧ (slice = "fees" → g = "5" → extracted = Ok (VFloat 5)).
Proof.
  intros Hty Hpat Hc Hm Hg Hf slice extracted. unfold extracted.
  rewrite (extract_money text text_lower pattern ex c m g rest f Hty Hpat Hc Hm Hg Hf).
  fold slice. unfold money_multiplier.
  split; [|split; [|split; [|split; [|split; [|split; [|split]]]]]].
  - intros Hlow Hstring. unfold slice, group0.
    rewrite Hstring, Hlow, slice_lower. reflexivity.
  - intros ->. reflexivity.
  - intros -> ->. reflexivity.
  - intros -> -> ->. reflexivity.
  - intros -> -> ->. reflexivity.
  - intros -> ->. cbn in Hf. injection Hf as <-. reflexivity.
  - intros -> ->. vm_compute in Hf. injection Hf as <-. reflexivity.
  - intros -> ->. cbn in Hf. injection Hf as <-. reflexivity.
Qed.

End MoneyExtraction.

(** The letters are sought anywhere in the slice: the "m" of "mortgage",
    which the [loan_amount] pattern of the default ontology matches, counts
    as the million multiplier. *)
Lemma money_multiplier_reads_any_letter :
  _parse_numeric (mkMatch "$300,000 mortgage" 0 17 [Some "300,000"])
    "$300,000 mortgage" "money"
  = Ok (VFloat 300000000000).
Proof. reflexivity. Qed.

(** C7 on the default ontology: the text "$300,000 mortgage" gives the
    loan amount 3e11, and [parse] records it; "$5K fees" gives the fees
    5000.0. *)
Lemma C7_witness :
  let default_ontology := OntologyLoader._get_default_ontology in
  _extract_field table_compile money_table_search table_findall
    "$300,000 mortgage" (str_lower "$300,000 mortgage")
    (extractor_named default_ontology "loan_amount")
  = Ok (VFloat 300000000000)
  ∧ _extract_field table_compile money_table_search table_findall
      "$5K fees" (str_lower "$5K fees") (extractor_named default_ontology "fees")
    = Ok (VFloat 5000)
  ∧ bind (parse table_compile money_table_search table_findall str_of_scalar
            "$300,000 mortgage" default_ontology false)
      (λ f, Ok (f !! "loan_amount"))
    = Ok (Some (VFloat 300000000000)).
Proof.
  intros default_ontology. split; [|split].
  - refine (proj1 (proj2 (proj2 (proj2 (proj2 (proj2 (proj2
      (C7_money_suffix_multiplier table_compile money_table_search table_findall
         "$300,000 mortgage" (str_lower "$300,000 mortgage") _
         (extractor_named default_ontology "loan_amount")
         TLoanAmount (mkMatch "$300,000 mortgage" 0 17 [Some "300,000"])
         "300,000" [] 300000%float eq_refl eq_refl eq_refl eq_refl eq_refl
         _))))))) eq_refl eq_refl).
    vm_compute. reflexivity.
  - refine (proj1 (proj2
      (C7_money_suffix_multiplier table_compile money_table_search table_findall
         "$5K fees" (str_lower "$5K fees") _
         (extractor_named default_ontology "fees")
         TFees (mkMatch "$5k fees" 0 8 [Some "5"])
         "5" [] 5%float eq_refl eq_refl eq_refl eq_refl eq_refl
         _)) eq_refl).
    vm_compute. reflexivity.
  - vm_compute. reflexivity.
Defined.

(** ** Soft failure of extractors *)

Section SoftFailure.

Context {regex : Type}
  (compiled : string → option regex)
  (re_search : regex → string → option re_match)
  (re_findall : regex → string → list findall_item)
  (py_str : value → string).

(** A numeric or string extractor whose pattern does not compile leaves its
    field absent. *)
Lemma malformed_pattern_absent (text text_lower pattern : string) (ex : extractor) :
  existsb (type_is ex) ["int"; "float"; "money"; "percentage"; "string"] = true →
  truthy_pattern ex = Some pattern → compiled pattern = None →
  _extract_field compiled re_search re_findall text text_lower ex = Ok VNone.
Proof.
  intros Hty Hpat Hc.
  assert (Hcases : ∃ ty, ex_type ex = Some ty
                         ∧ In ty ["int"; "float"; "money"; "percentage"; "string"]).
  { simpl in Hty. unfold type_is in Hty. rewrite !orb_true_iff in Hty.
    destruct Hty as [H|[H|[H|[H|[H|H]]]]]; try discriminate H;
      apply bool_decide_eq_true in H; eexists; (split; [exact H|]); simpl; tauto. }
  destruct Hcases as (ty & Hex & Hin). unfold _extract_field, type_is. rewrite Hex.
  simpl in Hin.
  destruct Hin as [<-|[<-|[<-|[<-|[<-|[]]]]]];
    repeat first [ rewrite bool_decide_eq_true_2 by reflexivity
                 | rewrite bool_decide_eq_false_2 by discriminate ];
    simpl; rewrite Hpat, Hc; reflexivity.
Qed.

(** A boolean extractor whose pattern does not compile falls back to its
    keywords, so its field is recorded all the same. *)
Lemma malformed_boolean_pattern_falls_back (text text_lower pattern : string)
    (ex : extractor) :
  type_is ex "boolean" = true →
  truthy_pattern ex = Some pattern → compiled pattern = None →
  _extract_field compiled re_search re_findall text text_lower ex
  = Ok (VBool (keyword_scan ex text_lower (ex_keywords ex))).
Proof.
  intros Hty Hpat Hc. unfold _extract_field, extract_boolean, compiled_pattern_of.
  rewrite Hty, Hpat, Hc. reflexivity.
Qed.

(** An exception of an extractor leaves [parse] through its first loop. *)
Lemma parse_propagates (text : string) (o : ontology)
    (before after : list (string * extractor))
    (field : string) (ex : extractor) (include_confidence : bool) (e : exn) :
  o_extractors o = before ++ (field, ex) :: after →
  Forall (λ item : string * extractor,
            type_is item.2 "computed" || ex_computed item.2 = false
            ∧ _extract_field compiled re_search re_findall text (str_lower text) item.2
              = Ok VNone) before →
  type_is ex "computed" || ex_computed ex = false →
  _extract_field compiled re_search re_findall text (str_lower text) ex = Raise e →
  parse compiled re_search re_findall py_str text o include_confidence = Raise e.
Proof.
  intros Ho Hbefore Hnc Hraise. unfold parse. cbv zeta. rewrite Ho. clear Ho.
  assert (Hfold : ∀ st,
            foldM (parse_field compiled re_search re_findall py_str text
                     (str_lower text) include_confidence)
              (before ++ (field, ex) :: after) st = Raise e).
  { induction Hbefore as [|[k x] before [Hk Hx] _ IH]; intros [[extracted scores] computed].
    - simpl. unfold parse_field at 1. rewrite Hnc.
      unfold _extract_field_with_confidence. rewrite Hraise. reflexivity.
    - simpl. unfold parse_field at 1. simpl in Hk, Hx. rewrite Hk.
      unfold _extract_field_with_confidence. rewrite Hx. simpl. apply IH. }
  rewrite Hfold. reflexivity.
Qed.

(** C2: a numeric or string extractor with a malformed pattern leaves its
    field absent, but a conversion failure is not soft.  [float] of the empty
    text left of a captured "," and [int] of a captured "12.5" raise
    [ValueError] in [_parse_numeric]; nothing catches it in [_extract_field]
    or in [parse].
    With the default ontology and the text "approved, fees apply", on which
    the [dti] and [credit_score] patterns find nothing and the [fees] pattern
    matches ", fees" with the comma captured, [parse] raises [ValueError].
    The list extractor, for comparison, catches the same error and drops
    the item. *)
Theorem C2_conversion_failure_propagates :
  let text := "approved, fees apply" in
  (∀ (text text_lower pattern : string) (ex : extractor),
     existsb (type_is ex) ["int"; "float"; "money"; "percentage"; "string"] = true →
     truthy_pattern ex = Some pattern → compiled pattern = None →
     _extract_field compiled re_search re_findall text text_lower ex = Ok VNone)
  ∧ _parse_numeric (mkMatch text 8 14 [Some ","]) text "money" = Raise ValueError
  ∧ _parse_numeric (mkMatch "score 12.5" 6 10 [Some "12.5"]) "score 12.5" "int"
    = Raise ValueError
  ∧ _convert_list_item "12.5x" "int" = Ok VNone
  ∧ (∀ c_fees : regex,
       Forall (λ field, ∀ c, compiled_pattern_of compiled (extractor_named
                                 OntologyLoader._get_default_ontology field) = Some c →
                             re_search c text = None) ["dti"; "credit_score"] →
       compiled_pattern_of compiled
         (extractor_named OntologyLoader._get_default_ontology "fees") = Some c_fees →
       re_search c_fees text = Some (mkMatch text 8 14 [Some ","]) →
       ∀ include_confidence : bool,
         parse compiled re_search re_findall py_str text
           OntologyLoader._get_default_ontology include_confidence
         = Raise ValueError).
Proof.
  cbv zeta. split; [exact malformed_pattern_absent|].
  split; [reflexivity|]. split; [reflexivity|]. split; [reflexivity|].
  intros c_fees Hnone Hc Hm include_confidence.
  assert (Hl : str_lower "approved, fees apply" = "approved, fees apply")
    by reflexivity.
  apply (parse_propagates "approved, fees apply" OntologyLoader._get_default_ontology
           (take 2 (o_extractors OntologyLoader._get_default_ontology))
           (drop 3 (o_extractors OntologyLoader._get_default_ontology))
           "fees" (extractor_named OntologyLoader._get_default_ontology "fees"));
    rewrite ?Hl.
  - reflexivity.
  - inversion Hnone as [|? ? Hdti Hrest]; subst.
    inversion Hrest as [|? ? Hcs _]; subst.
    unfold compiled_pattern_of in Hdti, Hcs. simpl in Hdti, Hcs.
    repeat constructor; unfold _extract_field; simpl;
      match goal with
      | |- match compiled ?p with _ => _ end = _ =>
          destruct (compiled p) as [c|]; [|reflexivity]
      end;
      first [rewrite (Hdti _ eq_refl) | rewrite (Hcs _ eq_refl)]; reflexivity.
  - reflexivity.
  - unfold compiled_pattern_of in Hc. simpl in Hc.
    unfold _extract_field. simpl. rewrite Hc, Hm. reflexivity.
Qed.

End SoftFailure.

Lemma C2_witness :
  parse table_compile table_search table_findall str_of_scalar
    "approved, fees apply" OntologyLoader._get_default_ontology false
  = Raise ValueError.
Proof.
  apply (proj2 (proj2 (proj2 (proj2
    (C2_conversion_failure_propagates table_compile table_search table_findall
       str_of_scalar)))) TFees).
  - constructor; [intros c Hc; vm_compute in Hc; injection Hc as <-; reflexivity|].
    constructor; [intros c Hc; vm_compute in Hc; injection Hc as <-; reflexivity|].
    constructor.
  - reflexivity.
  - reflexivity.
Defined.

(** ** Date normalization *)

Lemma digit_not_space (a : ascii) : is_digit a = true → is_space a = false.
Proof.
  destruct a as [[] [] [] [] [] [] [] []]; intros H; vm_compute in H;
    try discriminate H; reflexivity.
Qed.

Lemma digit_not_sep (a : ascii) : is_digit a = true → is_date_sep a = false.
Proof.
  destruct a as [[] [] [] [] [] [] [] []]; intros H; vm_compute in H;
    try discriminate H; reflexivity.
Qed.

Lemma sep_not_space (a : ascii) : is_date_sep a = true → is_space a = false.
Proof.
  destruct a as [[] [] [] [] [] [] [] []]; intros H; vm_compute in H;
    try discriminate H; reflexivity.
Qed.

Lemma digit_cases (a : ascii) :
  is_digit a = true →
  In a ["0"; "1"; "2"; "3"; "4"; "5"; "6"; "7"; "8"; "9"]%char.
Proof.
  destruct a as [[] [] [] [] [] [] [] []]; intros H; vm_compute in H;
    try discriminate H; simpl; tauto.
Qed.

Lemma str_all_app (p : ascii → bool) (s t : string) :
  str_all p (s +:+ t) = str_all p s && str_all p t.
Proof.
  induction s as [|a s IH]; [reflexivity|].
  change (String a s +:+ t) with (String a (s +:+ t)). simpl.
  rewrite IH. apply andb_assoc.
Qed.

Lemma str_all_impl (p q : ascii → bool) (s : string) :
  (∀ a, p a = true → q a = true) → str_all p s = true → str_all q s = true.
Proof.
  intros Hpq. induction s as [|a s IH]; [reflexivity|]. simpl.
  intros [Ha Hs]%andb_true_iff. rewrite (Hpq a Ha), (IH Hs). reflexivity.
Qed.

Lemma str_rstrip_id (s : string) :
  str_all (λ a, negb (is_space a)) s = true → str_rstrip s = s.
Proof.
  induction s as [|a s IH]; [reflexivity|]. simpl.
  intros [Ha Hs]%andb_true_iff. rewrite (IH Hs).
  destruct s; [|reflexivity].
  apply negb_true_iff in Ha. rewrite Ha. reflexivity.
Qed.

Lemma str_strip_id (s : string) :
  str_all (λ a, negb (is_space a)) s = true → str_strip s = s.
Proof.
  intros H. unfold str_strip.
  assert (str_lstrip s = s) as ->; [|apply str_rstrip_id, H].
  destruct s as [|a s]; [reflexivity|]. simpl in *.
  apply andb_true_iff in H as [Ha _]. apply negb_true_iff in Ha. rewrite Ha. reflexivity.
Qed.

Lemma split_on_none (p : ascii → bool) (s : string) :
  str_all (λ a, negb (p a)) s = true → str_split_on p s = [s].
Proof.
  induction s as [|a s IH]; [reflexivity|]. simpl.
  intros [Ha Hs]%andb_true_iff. apply negb_true_iff in Ha. rewrite Ha, (IH Hs).
  reflexivity.
Qed.

Lemma split_on_app (p : ascii → bool) (s : string) (c : ascii) (rest : string) :
  str_all (λ a, negb (p a)) s = true → p c = true →
  str_split_on p (s +:+ String c rest) = s :: str_split_on p rest.
Proof.
  intros Hs Hc. induction s as [|a s IH].
  - change (EmptyString +:+ String c rest) with (String c rest). simpl.
    rewrite Hc. reflexivity.
  - change (String a s +:+ String c rest) with (String a (s +:+ String c rest)).
    simpl in *. apply andb_true_iff in Hs as [Ha Hs]. apply negb_true_iff in Ha.
    rewrite Ha, (IH Hs). reflexivity.
Qed.

Lemma digits_all (lo hi : nat) (s : string) :
  digits lo hi s = true → str_all is_digit s = true.
Proof. unfold digits. intros [[H _]%andb_true_iff _]%andb_true_iff. exact H. Qed.

Lemma digits_no_space (lo hi : nat) (s : string) :
  digits lo hi s = true → str_all (λ a, negb (is_space a)) s = true.
Proof.
  intros H. apply (str_all_impl is_digit); [|apply (digits_all lo hi s H)].
  intros a Ha. rewrite (digit_not_space a Ha). reflexivity.
Qed.

Lemma digits_no_sep (lo hi : nat) (s : string) :
  digits lo hi s = true → str_all (λ a, negb (is_date_sep a)) s = true.
Proof.
  intros H. apply (str_all_impl is_digit); [|apply (digits_all lo hi s H)].
  intros a Ha. rewrite (digit_not_sep a Ha). reflexivity.
Qed.

(** The three fields of a numeric date come back from the split, and
    [strip] leaves the text as it is. *)
Lemma numeric_date_parts (a b c : string) (s1 s2 : ascii)
    (la ha lb hb lc hc : nat) :
  digits la ha a = true → digits lb hb b = true → digits lc hc c = true →
  is_date_sep s1 = true → is_date_sep s2 = true →
  str_strip (numeric_date a s1 b s2 c) = numeric_date a s1 b s2 c
  ∧ str_split_on is_date_sep (numeric_date a s1 b s2 c) = [a; b; c].
Proof.
  intros Ha Hb Hc H1 H2. unfold numeric_date. split.
  - apply str_strip_id. rewrite str_all_app. simpl. rewrite str_all_app. simpl.
    rewrite (digits_no_space _ _ _ Ha), (digits_no_space _ _ _ Hb),
      (digits_no_space _ _ _ Hc), (sep_not_space _ H1), (sep_not_space _ H2).
    reflexivity.
  - rewrite (split_on_app _ _ _ _ (digits_no_sep _ _ _ Ha) H1).
    rewrite (split_on_app _ _ _ _ (digits_no_sep _ _ _ Hb) H2).
    rewrite (split_on_none _ _ (digits_no_sep _ _ _ Hc)). reflexivity.
Qed.

(** A property checked on every integer below [n] holds of each of them. *)
Lemma forall_below (P : Z → bool) (n : nat) :
  forallb P (map Z.of_nat (seq 0 n)) = true →
  ∀ z, (0 <= z < Z.of_nat n)%Z → P z = true.
Proof.
  intros Hall z Hz. rewrite forallb_forall in Hall. apply Hall.
  apply in_map_iff. exists (Z.to_nat z). split; [lia|].
  apply in_seq. lia.
Qed.

Lemma fmt_02d_digits (z : Z) : (0 <= z < 100)%Z → digits 2 2 (fmt_02d z) = true.
Proof. apply (forall_below (λ z, digits 2 2 (fmt_02d z)) 100). vm_compute. reflexivity. Qed.

(** A year from 1000 to 9999 is written with four digits. *)
Lemma year_digits (z : Z) : (1000 <= z < 10000)%Z → digits 4 4 (str_of_Z z) = true.
Proof.
  intros Hz.
  pose proof (forall_below (λ z, (z <? 1000)%Z || digits 4 4 (str_of_Z z))
                (Z.to_nat 10000)) as H.
  specialize (H ltac:(vm_compute; reflexivity) z).
  rewrite Z2Nat.id in H by lia. specialize (H ltac:(lia)).
  destruct (Z.ltb_spec z 1000); [lia | exact H].
Qed.

(** The year that the short form resolves to is written with four digits. *)
Lemma short_year_digits (yy : Z) :
  (0 <= yy < 100)%Z →
  digits 4 4 (str_of_Z (if (yy <? 50)%Z then (yy + 2000)%Z else (yy + 1900)%Z)) = true.
Proof.
  apply (forall_below
           (λ yy, digits 4 4 (str_of_Z (if (yy <? 50)%Z then (yy + 2000)%Z
                                        else (yy + 1900)%Z))) 100).
  vm_compute. reflexivity.
Qed.

Lemma digits_one_or_two (s : string) :
  digits 1 2 s = true →
  (∃ a, s = String a EmptyString ∧ is_digit a = true)
  ∨ (∃ a b, s = String a (String b EmptyString)
            ∧ is_digit a = true ∧ is_digit b = true).
Proof.
  unfold digits. destruct s as [|a [|b [|c s]]]; simpl;
    rewrite ?andb_true_r, ?andb_false_r; intros H; try discriminate H.
  - left. exists a. split; [reflexivity | exact H].
  - right. exists a, b. apply andb_true_iff in H as [Ha Hb]. repeat split; assumption.
Qed.

Lemma digits_two (s : string) :
  digits 2 2 s = true →
  ∃ a b, s = String a (String b EmptyString) ∧ is_digit a = true ∧ is_digit b = true.
Proof.
  unfold digits. destruct s as [|a [|b [|c s]]]; simpl;
    rewrite ?andb_true_r, ?andb_false_r; intros H; try discriminate H.
  exists a, b. apply andb_true_iff in H as [Ha Hb]. repeat split; assumption.
Qed.

Lemma digits_four (s : string) :
  digits 4 4 s = true →
  ∃ a b c d, s = String a (String b (String c (String d EmptyString)))
             ∧ is_digit a = true ∧ is_digit b = true
             ∧ is_digit c = true ∧ is_digit d = true.
Proof.
  unfold digits. destruct s as [|a [|b [|c [|d [|e s]]]]]; simpl;
    rewrite ?andb_true_r, ?andb_false_r; intros H; try discriminate H.
  exists a, b, c, d.
  apply andb_true_iff in H as [Ha H]. apply andb_true_iff in H as [Hb H].
  apply andb_true_iff in H as [Hc Hd]. repeat split; assumption.
Qed.

(** [int] of one or two digits is a number below 100. *)
Lemma py_int_short (s : string) :
  digits 1 2 s = true → ∃ z, py_int s = Ok z ∧ (0 <= z < 100)%Z.
Proof.
  intros H. destruct (digits_one_or_two s H) as [(a & -> & Ha) | (a & b & -> & Ha & Hb)].
  - apply digit_cases in Ha. simpl in Ha.
    repeat (destruct Ha as [<- | Ha]; [eexists; split; [vm_compute; reflexivity | lia]|]).
    destruct Ha.
  - apply digit_cases in Ha. apply digit_cases in Hb. simpl in Ha, Hb.
    repeat (destruct Ha as [<- | Ha];
            [repeat (destruct Hb as [<- | Hb]; [eexists; split; [vm_compute; reflexivity | lia]|]);
             destruct Hb|]).
    destruct Ha.
Qed.

Lemma py_int_two (s : string) :
  digits 2 2 s = true → ∃ z, py_int s = Ok z ∧ (0 <= z < 100)%Z.
Proof.
  intros (a & b & -> & Ha & Hb)%digits_two. apply py_int_short.
  unfold digits. simpl. rewrite Ha, Hb. reflexivity.
Qed.

Lemma iso_shape_intro (y mm dd : string) :
  digits 4 4 y = true → digits 2 2 mm = true → digits 2 2 dd = true →
  iso_shape (y +:+ "-" +:+ mm +:+ "-" +:+ dd) = true.
Proof.
  intros (a & b & c & d & -> & Ha & Hb & Hc & Hd)%digits_four
         (m1 & m2 & -> & Hm1 & Hm2)%digits_two
         (d1 & d2 & -> & Hd1 & Hd2)%digits_two.
  unfold iso_shape. simpl.
  rewrite Ha, Hb, Hc, Hd, Hm1, Hm2, Hd1, Hd2. reflexivity.
Qed.

(** The ISO form [YYYY-M-D] (or with [/]) under its format. *)
Lemma normalize_iso_form (y m d : string) (s1 s2 : ascii) :
  digits 4 4 y = true → digits 1 2 m = true → digits 1 2 d = true →
  is_date_sep s1 = true → is_date_sep s2 = true →
  ∃ zm zd, py_int m = Ok zm ∧ py_int d = Ok zd
    ∧ _normalize_date (numeric_date y s1 m s2 d) (Some "%Y-%m-%d")
      = Some (y +:+ "-" +:+ fmt_02d zm +:+ "-" +:+ fmt_02d zd)
    ∧ iso_shape (y +:+ "-" +:+ fmt_02d zm +:+ "-" +:+ fmt_02d zd) = true.
Proof.
  intros Hy Hm Hd H1 H2.
  destruct (numeric_date_parts y m d s1 s2 _ _ _ _ _ _ Hy Hm Hd H1 H2) as [Hstrip Hsplit].
  destruct (py_int_short m Hm) as (zm & Hzm & Hrm).
  destruct (py_int_short d Hd) as (zd & Hzd & Hrd).
  exists zm, zd. split; [exact Hzm|]. split; [exact Hzd|]. split.
  - unfold _normalize_date. rewrite Hstrip.
    change (String.eqb "%Y-%m-%d" EmptyString) with false. cbv iota.
    unfold normalize_with_format. rewrite Hsplit.
    change (String.eqb "%Y-%m-%d" "%Y-%m-%d") with true. cbv iota.
    rewrite Hzm, Hzd. reflexivity.
  - apply iso_shape_intro; [exact Hy | apply fmt_02d_digits, Hrm | apply fmt_02d_digits, Hrd].
Qed.

(** The US form [M-D-YYYY] (or with [/]) under its format. *)
Lemma normalize_us_form (y m d : string) (s1 s2 : ascii) :
  digits 4 4 y = true → digits 1 2 m = true → digits 1 2 d = true →
  is_date_sep s1 = true → is_date_sep s2 = true →
  ∃ zm zd, py_int m = Ok zm ∧ py_int d = Ok zd
    ∧ _normalize_date (numeric_date m s1 d s2 y) (Some "%m-%d-%Y")
      = Some (y +:+ "-" +:+ fmt_02d zm +:+ "-" +:+ fmt_02d zd)
    ∧ iso_shape (y +:+ "-" +:+ fmt_02d zm +:+ "-" +:+ fmt_02d zd) = true.
Proof.
  intros Hy Hm Hd H1 H2.
  destruct (numeric_date_parts m d y s1 s2 _ _ _ _ _ _ Hm Hd Hy H1 H2) as [Hstrip Hsplit].
  destruct (py_int_short m Hm) as (zm & Hzm & Hrm).
  destruct (py_int_short d Hd) as (zd & Hzd & Hrd).
  exists zm, zd. split; [exact Hzm|]. split; [exact Hzd|]. split.
  - unfold _normalize_date. rewrite Hstrip.
    change (String.eqb "%m-%d-%Y" EmptyString) with false. cbv iota.
    unfold normalize_with_format. rewrite Hsplit.
    change (String.eqb "%m-%d-%Y" "%Y-%m-%d") with false.
    change (String.eqb "%m-%d-%Y" "%m-%d-%Y") with true. cbv iota.
    rewrite Hzm, Hzd. reflexivity.
  - apply iso_shape_intro; [exact Hy | apply fmt_02d_digits, Hrm | apply fmt_02d_digits, Hrd].
Qed.

(** The short-year US form [M-D-YY] (or with [/]) under its format. *)
Lemma normalize_short_form (yy m d : string) (s1 s2 : ascii) :
  digits 2 2 yy = true → digits 1 2 m = true → digits 1 2 d = true →
  is_date_sep s1 = true → is_date_sep s2 = true →
  ∃ zy zm zd, py_int yy = Ok zy ∧ py_int m = Ok zm ∧ py_int d = Ok zd
    ∧ (0 <= zy < 100)%Z
    ∧ let year := if (zy <? 50)%Z then (zy + 2000)%Z else (zy + 1900)%Z in
      _normalize_date (numeric_date m s1 d s2 yy) (Some "%m-%d-%y")
      = Some (str_of_Z year +:+ "-" +:+ fmt_02d zm +:+ "-" +:+ fmt_02d zd)
      ∧ iso_shape (str_of_Z year +:+ "-" +:+ fmt_02d zm +:+ "-" +:+ fmt_02d zd) = true.
Proof.
  intros Hy Hm Hd H1 H2.
  destruct (numeric_date_parts m d yy s1 s2 _ _ _ _ _ _ Hm Hd Hy H1 H2) as [Hstrip Hsplit].
  destruct (py_int_two yy Hy) as (zy & Hzy & Hry).
  destruct (py_int_short m Hm) as (zm & Hzm & Hrm).
  destruct (py_int_short d Hd) as (zd & Hzd & Hrd).
  exists zy, zm, zd. split; [exact Hzy|]. split; [exact Hzm|]. split; [exact Hzd|].
  split; [exact Hry|]. cbv zeta. split.
  - unfold _normalize_date. rewrite Hstrip.
    change (String.eqb "%m-%d-%y" EmptyString) with false. cbv iota.
    unfold normalize_with_format. rewrite Hsplit.
    change (String.eqb "%m-%d-%y" "%Y-%m-%d") with false.
    change (String.eqb "%m-%d-%y" "%m-%d-%Y") with false.
    change (String.eqb "%m-%d-%y" "%m-%d-%y") with true. cbv iota.
    rewrite Hzy, Hzm, Hzd. reflexivity.
  - apply iso_shape_intro;
      [apply short_year_digits, Hry | apply fmt_02d_digits, Hrm
      | apply fmt_02d_digits, Hrd].
Qed.

Lemma first_some_spec {A B : Type} (f : A → option B) (l : list A) (y : B) :
  first_some f l = Some y → ∃ x, In x l ∧ f x = Some y.
Proof.
  induction l as [|x l IH]; simpl; [discriminate|].
  destruct (f x) as [y'|] eqn:Hx.
  - intros [= <-]. exists x. split; [left; reflexivity | exact Hx].
  - intros H. destruct (IH H) as (x' & Hin & Hx'). exists x'. split; [right|]; assumption.
Qed.

Lemma strptime_valid (data_string format : string) (d : datetime) :
  strptime data_string format = Some d → valid_datetime d = true.
Proof.
  unfold strptime.
  destruct (strptime_match _ _) as [[found [|? ?]]|]; try discriminate.
  destruct (valid_datetime _) eqn:Hv; [|discriminate].
  intros [= <-]. exact Hv.
Qed.

Lemma days_in_month_le (y m : Z) : (days_in_month y m <= 31)%Z.
Proof.
  unfold days_in_month.
  repeat match goal with |- context [if ?b then _ else _] => destruct b end; lia.
Qed.

Lemma strftime_date_shape (d : datetime) :
  valid_datetime d = true → (1000 <= dt_year d)%Z →
  iso_shape (strftime_date d) = true.
Proof.
  unfold valid_datetime. intros H Hyear.
  repeat (apply andb_true_iff in H as [H ?]).
  repeat match goal with
         | H : (_ <=? _)%Z = true |- _ => apply Z.leb_le in H
         end.
  pose proof (days_in_month_le (dt_year d) (dt_month d)).
  unfold strftime_date.
  apply iso_shape_intro;
    [apply year_digits | apply fmt_02d_digits | apply fmt_02d_digits]; lia.
Qed.

(** What the [strptime] fallback returns is a valid calendar date as
    [strftime] writes it, of the ISO shape from the year 1000 on. *)
Lemma normalize_fallback_valid (date_str out : string) :
  _normalize_date date_str None = Some out →
  ∃ dt, valid_datetime dt = true ∧ out = strftime_date dt
        ∧ ((1000 <= dt_year dt)%Z → iso_shape out = true).
Proof.
  unfold _normalize_date. intros H.
  apply first_some_spec in H as (f & _ & Hf).
  destruct (strptime (str_strip date_str) f) as [dt|] eqn:Hd; [|discriminate].
  injection Hf as <-. pose proof (strptime_valid _ _ _ Hd) as Hv.
  exists dt. split; [exact Hv|]. split; [reflexivity|].
  apply strftime_date_shape, Hv.
Qed.

Lemma first_some_first {A B : Type} (f : A → option B) (before after : list A)
    (x : A) (y : B) :
  Forall (λ x', f x' = None) before → f x = Some y →
  first_some f (before ++ x :: after) = Some y.
Proof.
  intros Hbefore Hx. induction Hbefore as [|x' before Hx' _ IH]; simpl.
  - rewrite Hx. reflexivity.
  - rewrite Hx'. exact IH.
Qed.

Lemma iso_shape_nonempty (s : string) : iso_shape s = true → String.eqb s EmptyString = false.
Proof. destruct s; [discriminate | reflexivity]. Qed.

Section DateExtraction.

Context {regex : Type}
  (compiled : string → option regex)
  (re_search : regex → string → option re_match).

(** When the custom pattern is absent, does not compile or does not match,
    [_extract_date] returns the normalized text of the first pattern of the
    table that matches the search text. *)
Lemma extract_date_from_table (text : string) (ex : extractor)
    (before after : list (string * option string))
    (pattern : string) (fmt : option string) (c : regex) (m : re_match) (out : string) :
  match compiled_pattern_of compiled ex with
  | Some c0 => re_search c0 text
  | None => None
  end = None →
  DATE_PATTERNS = before ++ (pattern, fmt) :: after →
  Forall (λ pf : string * option string,
            ∀ c', compiled pf.1 = Some c' →
                  re_search c' (date_search_text text (ex_keywords ex)) = None) before →
  compiled pattern = Some c →
  re_search c (date_search_text text (ex_keywords ex)) = Some m →
  _normalize_date (group0 m) fmt = Some out → iso_shape out = true →
  _extract_date compiled re_search text ex = Ok (VStr out).
Proof.
  intros Hcustom Htable Hbefore Hc Hm Hnorm Hshape.
  unfold _extract_date, date_search_text in *. cbv zeta in *.
  rewrite Hcustom, Htable.
  erewrite first_some_first; [reflexivity| |].
  - apply Forall_forall. intros pf Hpf. rewrite Forall_forall in Hbefore.
    specialize (Hbefore pf Hpf).
    destruct (compiled pf.1) as [c'|]; [|reflexivity].
    rewrite (Hbefore c' eq_refl). reflexivity.
  - cbn [fst snd]. rewrite Hc, Hm, Hnorm, (iso_shape_nonempty out Hshape). reflexivity.
Qed.

(** When the custom pattern matches, [_extract_date] normalizes what the
    first group captured (the whole match when the pattern has no group)
    under the extractor's [format]; a first group that took no part in the
    match is [None], whose [strip] raises. *)
Lemma extract_date_custom (text : string) (ex : extractor) (c : regex) (found : re_match) :
  compiled_pattern_of compiled ex = Some c → re_search c text = Some found →
  _extract_date compiled re_search text ex
  = match m_groups found with
    | Some g :: _ =>
        Ok (match _normalize_date g (ex_format ex) with
            | Some r => VStr r
            | None => VNone
            end)
    | None :: _ => Raise AttributeError
    | [] =>
        Ok (match _normalize_date (group0 found) (ex_format ex) with
            | Some r => VStr r
            | None => VNone
            end)
    end.
Proof.
  intros Hc Hfound. unfold _extract_date. cbv zeta. rewrite Hc, Hfound.
  unfold normalize_group, group1_or_0.
  destruct (m_groups found) as [|[g|] rest]; reflexivity.
Qed.

(** C6: the three numeric forms of [DATE_PATTERNS] are normalized, under
    the format the table pairs them with, to a
    [YYYY-MM-DD] text: the year as written (ISO and US forms) or resolved
    from two digits as [2000 + yy] below 50 and [1900 + yy] from 50 on
    (short form), month and day padded to two digits.  [_extract_date]
    returns that text whenever the custom pattern is absent, does not
    compile or does not match and the form is the first of the table to
    match the search text (the keyword window or the whole text), whatever
    the keywords.  When the custom pattern matches, what its first group
    captured is normalized under the extractor's own [format]: with
    [%m-%d-%y] the short form is resolved with the pivot 50 too, and
    without a format the text goes through [strptime], as the written forms
    of the table do.  What [strptime] accepts is a valid calendar date,
    written by [strftime] as [YYYY-MM-DD] from the year 1000 on, with a
    two-digit year resolved by the library's own pivot (up to 68 into the
    2000s, from 69 on into the 1900s). *)
Theorem C6_date_normalization (y yy m d : string) (s1 s2 : ascii) :
  digits 4 4 y = true → digits 2 2 yy = true →
  digits 1 2 m = true → digits 1 2 d = true →
  is_date_sep s1 = true → is_date_sep s2 = true →
  map snd DATE_PATTERNS
  = [Some "%Y-%m-%d"; Some "%m-%d-%Y"; Some "%m-%d-%y"; None; None]
  ∧ (∃ zy zm zd, py_int yy = Ok zy ∧ py_int m = Ok zm ∧ py_int d = Ok zd
       ∧ (0 <= zy < 100)%Z
       ∧ let year := if (zy <? 50)%Z then (zy + 2000)%Z else (zy + 1900)%Z in
         let long := y +:+ "-" +:+ fmt_02d zm +:+ "-" +:+ fmt_02d zd in
         let short := str_of_Z year +:+ "-" +:+ fmt_02d zm +:+ "-" +:+ fmt_02d zd in
         let forms :=
           [(0%nat, numeric_date y s1 m s2 d, long);
            (1%nat, numeric_date m s1 d s2 y, long);
            (2%nat, numeric_date m s1 d s2 yy, short)] in
         iso_shape long = true ∧ iso_shape short = true
         ∧ (∀ (i : nat) (date out : string) (pattern : string) (fmt : option string),
              In (i, date, out) forms →
              DATE_PATTERNS !! i = Some (pattern, fmt) →
              _normalize_date date fmt = Some out
              ∧ ∀ (text : string) (ex : extractor) (c : regex) (found : re_match),
                  match compiled_pattern_of compiled ex with
                  | Some c0 => re_search c0 text
                  | None => None
                  end = None →
                  Forall (λ pf : string * option string,
                            ∀ c', compiled pf.1 = Some c' →
                                  re_search c' (date_search_text text (ex_keywords ex))
                                  = None)
                    (take i DATE_PATTERNS) →
                  compiled pattern = Some c →
                  re_search c (date_search_text text (ex_keywords ex)) = Some found →
                  group0 found = date →
                  _extract_date compiled re_search text ex = Ok (VStr out))
         ∧ (∀ (text : string) (ex : extractor) (c : regex) (found : re_match)
              (rest : list (option string)),
              compiled_pattern_of compiled ex = Some c →
              re_search c text = Some found →
              m_groups found = Some (numeric_date m s1 d s2 yy) :: rest →
              ex_format ex = Some "%m-%d-%y" →
              _extract_date compiled re_search text ex = Ok (VStr short)))
  ∧ (∀ (text : string) (ex : extractor) (c : regex) (found : re_match),
       compiled_pattern_of compiled ex = Some c → re_search c text = Some found →
       _extract_date compiled re_search text ex
       = match m_groups found with
         | Some g :: _ =>
             Ok (match _normalize_date g (ex_format ex) with
                 | Some r => VStr r
                 | None => VNone
                 end)
         | None :: _ => Raise AttributeError
         | [] =>
             Ok (match _normalize_date (group0 found) (ex_format ex) with
                 | Some r => VStr r
                 | None => VNone
                 end)
         end)
  ∧ (∀ date_str out : string,
       _normalize_date date_str None = Some out →
       ∃ dt, valid_datetime dt = true ∧ out = strftime_date dt
             ∧ ((1000 <= dt_year dt)%Z → iso_shape out = true))
  ∧ _normalize_date "December 25, 2024" None = Some "2024-12-25"
  ∧ _normalize_date "25 Dec 2024" None = Some "2024-12-25"
  ∧ _normalize_date "12/25/24" (Some "%m-%d-%y") = Some "2024-12-25"
  ∧ _normalize_date "01/02/49" (Some "%m-%d-%y") = Some "2049-01-02"
  ∧ _normalize_date "01/02/50" (Some "%m-%d-%y") = Some "1950-01-02"
  ∧ _normalize_date "01/02/68" None = Some "2068-01-02"
  ∧ _normalize_date "01/02/69" None = Some "1969-01-02".
Proof.
  intros Hy Hyy Hm Hd H1 H2.
  split; [reflexivity|].
  split.
  { destruct (normalize_short_form yy m d s1 s2 Hyy Hm Hd H1 H2)
      as (zy & zm & zd & Hzy & Hzm & Hzd & Hry & Hshort & Hshape_short).
    destruct (normalize_iso_form y m d s1 s2 Hy Hm Hd H1 H2)
      as (zm' & zd' & Hzm' & Hzd' & Hiso & Hshape_long).
    destruct (normalize_us_form y m d s1 s2 Hy Hm Hd H1 H2)
      as (zm'' & zd'' & Hzm'' & Hzd'' & Hus & _).
    assert (zm' = zm) as -> by congruence. assert (zd' = zd) as -> by congruence.
    assert (zm'' = zm) as -> by congruence. assert (zd'' = zd) as -> by congruence.
    exists zy, zm, zd.
    split; [exact Hzy|]. split; [exact Hzm|]. split; [exact Hzd|]. split; [exact Hry|].
    cbv zeta in *. split; [exact Hshape_long|]. split; [exact Hshape_short|]. split.
    - intros i date out pattern fmt Hform Hentry.
      assert (Hcase : _normalize_date date fmt = Some out ∧ iso_shape out = true
                      ∧ DATE_PATTERNS
                        = take i DATE_PATTERNS ++ (pattern, fmt) :: drop (S i) DATE_PATTERNS).
      { cbn [In] in Hform.
        destruct Hform as [[= <- <- <-]|[[= <- <- <-]|[[= <- <- <-]|[]]]];
          injection Hentry as <- <-;
          (split; [assumption|]); (split; [assumption | reflexivity]). }
      destruct Hcase as (Hnorm & Hshape & Htable). split; [exact Hnorm|].
      intros text ex c found Hcustom Hbefore Hc Hfound Hgroup.
      eapply (extract_date_from_table text ex (take i DATE_PATTERNS)
                (drop (S i) DATE_PATTERNS) pattern fmt c found out);
        [exact Hcustom | exact Htable | exact Hbefore | exact Hc | exact Hfound
        | rewrite Hgroup; exact Hnorm | exact Hshape].
    - intros text ex c found rest Hc Hfound Hgroups Hfmt.
      rewrite (extract_date_custom text ex c found Hc Hfound), Hgroups, Hfmt, Hshort.
      reflexivity. }
  split; [exact extract_date_custom|].
  split; [exact normalize_fallback_valid|].
  repeat split; vm_compute; reflexivity.
Qed.

End DateExtraction.

(** C6 on the two paths that miss it: under a custom pattern without a
    format "01/02/50" is normalized to "2050-01-02", by the pivot of
    [strptime] and not the pivot 50 of the [%m-%d-%y] branch; and a written
    date of a year below 1000 is not written with four digits, against the
    [YYYY-MM-DD] of the docstrings. *)
Lemma C6_custom_pattern_without_format :
  _extract_date custom_date_compile custom_date_search "Due 01/02/50"
    (custom_date_extractor None)
  = Ok (VStr "2050-01-02")
  ∧ _normalize_date "01/02/50" None = Some "2050-01-02"
  ∧ _normalize_date "January 1, 0999" None = Some "999-01-01".
Proof. repeat split; vm_compute; reflexivity. Qed.

Lemma C6_witness :
  digits 4 4 "2024" = true
  ∧ _normalize_date "2024/1-5" (Some "%Y-%m-%d") = Some "2024-01-05"
  ∧ _extract_date date_table_compile date_table_search "Closing on 12/25/24."
      date_extractor
    = Ok (VStr "2024-12-25")
  ∧ _extract_date custom_date_compile custom_date_search "Due 01/02/50"
      (custom_date_extractor (Some "%m-%d-%y"))
    = Ok (VStr "1950-01-02").
Proof.
  split; [reflexivity|].
  destruct (C6_date_normalization date_table_compile date_table_search
              "2024" "24" "12" "25" "/" "/"
              eq_refl eq_refl eq_refl eq_refl eq_refl eq_refl)
    as (_ & (zy & zm & zd & Hzy & Hzm & Hzd & _ & _ & _ & Htable & _) & _).
  injection Hzy as <-. injection Hzm as <-. injection Hzd as <-.
  destruct (C6_date_normalization date_table_compile date_table_search
              "2024" "49" "1" "5" "/" "-"
              eq_refl eq_refl eq_refl eq_refl eq_refl eq_refl)
    as (_ & (zy & zm & zd & Hzy & Hzm & Hzd & _ & _ & _ & Hiso & _) & _).
  injection Hzy as <-. injection Hzm as <-. injection Hzd as <-.
  destruct (C6_date_normalization custom_date_compile custom_date_search
              "1950" "50" "01" "02" "/" "/"
              eq_refl eq_refl eq_refl eq_refl eq_refl eq_refl)
    as (_ & (zy & zm & zd & Hzy & Hzm & Hzd & _ & _ & _ & _ & Hcustom) & _).
  injection Hzy as <-. injection Hzm as <-. injection Hzd as <-.
  split; [|split].
  - exact (proj1 (Hiso 0%nat _ _ _ _ ltac:(left; reflexivity) eq_refl)).
  - apply (proj2 (Htable 2%nat _ _ _ _ ltac:(right; right; left; reflexivity) eq_refl)
             "Closing on 12/25/24." date_extractor DShort
             (mkMatch "Closing on 12/25/24." 11 19 [Some "12"; Some "25"; Some "24"])).
    + reflexivity.
    + constructor; [intros c Hc; vm_compute in Hc; injection Hc as <-; reflexivity|].
      constructor; [intros c Hc; vm_compute in Hc; injection Hc as <-; reflexivity|].
      constructor.
    + reflexivity.
    + reflexivity.
    + reflexivity.
  - apply (Hcustom "Due 01/02/50" (custom_date_extractor (Some "%m-%d-%y")) DCustom
             (mkMatch "Due 01/02/50" 4 12 [Some "01/02/50"]) []); reflexivity.
Defined.

(** ** The compiled-pattern cache *)

Section PatternCacheFacts.

Context {regex : Type} (re_compile : string → option regex).

Lemma cache_coherent_empty : cache_coherent re_compile ∅.
Proof. intros p c H. rewrite lookup_empty in H. discriminate. Qed.

(** Under a coherent cache [_get_compiled_pattern] returns what
    [re.compile] returns and leaves the cache coherent: the cache is not
    observable, which is why extraction is stated over [compiled]. *)
Lemma get_compiled_pattern_coherent (cache : gmap string regex) (pattern : string) :
  cache_coherent re_compile cache →
  (_get_compiled_pattern re_compile cache pattern).1 = re_compile pattern
  ∧ cache_coherent re_compile (_get_compiled_pattern re_compile cache pattern).2.
Proof.
  intros Hcache. unfold _get_compiled_pattern.
  destruct (cache !! pattern) as [c|] eqn:Hlook; simpl.
  - split; [symmetry; apply (Hcache _ _ Hlook) | exact Hcache].
  - destruct (re_compile pattern) as [c|] eqn:Hc; simpl; [|split; [reflexivity | exact Hcache]].
    split; [reflexivity|]. intros p c' Hp.
    destruct (decide (pattern = p)) as [<-|Hne].
    + rewrite lookup_insert_eq in Hp. injection Hp as <-. exact Hc.
    + rewrite lookup_insert_ne in Hp by exact Hne. apply (Hcache _ _ Hp).
Qed.

End PatternCacheFacts.

(** ** Dependency cycles are never settled *)

Section Cycles.

Context (include_confidence : bool) (computed_names : gset string)
  (fields : gset string).

Lemma set_computed_other (extracted : facts) (field f : string) (v : value) :
  field ≠ f → set_computed include_confidence extracted field v !! f = extracted !! f.
Proof.
  intros Hne. unfold set_computed.
  destruct include_confidence; apply lookup_insert_ne, Hne.
Qed.

Lemma set_default_other (extracted : facts) (field f : string) (v : value) :
  field ≠ f → set_default include_confidence extracted field v !! f = extracted !! f.
Proof.
  intros Hne. unfold set_default. destruct (is_none v); [reflexivity|].
  apply set_computed_other, Hne.
Qed.

Lemma settle_field_absent (st : facts * list string) (item : string * extractor) :
  fields ⊆ computed_names → stuck fields item → absent fields st.1 →
  absent fields (settle_field include_confidence computed_names st item).1.
Proof.
  intros Hsub Hstuck Habs. destruct st as [extracted done], item as [name ex].
  simpl in *. unfold settle_field.
  destruct (decide (name ∈ fields)) as [Hin | Hout].
  - destruct (Hstuck Hin) as [Htruthy (dep & Hdep & Hdeps)]. simpl in *.
    rewrite Htruthy. simpl.
    rewrite bool_decide_eq_true_2; [exact Habs|].
    intros Hempty.
    assert (Hmem : dep ∈ _extract_formula_dependencies (ex_formula ex)
                         ∩ (computed_names ∖ dom extracted)).
    { apply elem_of_intersection. split; [exact Hdeps|].
      apply elem_of_difference. split; [apply Hsub, Hdep|].
      intros Hdom. apply elem_of_dom in Hdom as [v Hv].
      rewrite (Habs dep Hdep) in Hv. discriminate. }
    rewrite Hempty in Hmem. apply not_elem_of_empty in Hmem. exact Hmem.
  - assert (Hne : ∀ f, f ∈ fields → name ≠ f) by (intros f Hf ->; exact (Hout Hf)).
    destruct (negb (py_truthy (ex_formula ex))); simpl.
    { intros f Hf. rewrite (set_default_other _ _ _ _ (Hne f Hf)). apply (Habs f Hf). }
    destruct (bool_decide _); simpl; [exact Habs|].
    destruct (_evaluate_formula _ _ _) as [r|e]; simpl.
    + destruct (negb (is_none r)); intros f Hf;
        [rewrite (set_computed_other _ _ _ _ (Hne f Hf))
        | rewrite (set_default_other _ _ _ _ (Hne f Hf))]; apply (Habs f Hf).
    + intros f Hf. rewrite (set_default_other _ _ _ _ (Hne f Hf)). apply (Habs f Hf).
Qed.

Lemma settle_fold_absent (remaining : list (string * extractor)) :
  fields ⊆ computed_names → Forall (stuck fields) remaining →
  ∀ st : facts * list string,
    absent fields st.1 →
    absent fields
      (foldl (settle_field include_confidence computed_names) st remaining).1.
Proof.
  intros Hsub Hstuck. induction Hstuck as [|item remaining Hitem _ IH]; intros st Habs.
  - exact Habs.
  - simpl. apply IH, settle_field_absent; assumption.
Qed.

Lemma settle_loop_absent (max_iterations : nat) :
  fields ⊆ computed_names →
  ∀ (fuel iteration : nat) (remaining : list (string * extractor)) (extracted : facts),
    Forall (stuck fields) remaining → absent fields extracted →
    absent fields (settle_loop fuel include_confidence computed_names max_iterations
              iteration remaining extracted).1.1.
Proof.
  intros Hsub. induction fuel as [|fuel IH]; intros iteration remaining extracted Hstuck Habs.
  - exact Habs.
  - simpl.
    destruct (negb (bool_decide (remaining = [])) && (iteration <? max_iterations)%nat);
      [|exact Habs].
    unfold settle_pass.
    pose proof (settle_fold_absent remaining Hsub Hstuck (extracted, []) Habs) as Hpass.
    destruct (foldl (settle_field include_confidence computed_names) (extracted, [])
                remaining) as [extracted' done].
    apply IH; [|exact Hpass].
    apply Forall_forall. intros item Hitem.
    apply list_elem_of_filter in Hitem as [_ Hitem].
    rewrite Forall_forall in Hstuck. apply (Hstuck item Hitem).
Qed.

End Cycles.

(** The fields of a dependency cycle are absent after settlement, whatever
    default they configure. *)
Lemma cycle_never_settled (include_confidence : bool) (fields : gset string)
    (extracted : facts) (text_lower : string)
    (computed_extractors : list (string * extractor)) :
  cyclic_fields fields computed_extractors →
  (∀ f, f ∈ fields → extracted !! f = None) →
  ∀ f, f ∈ fields →
    _calculate_computed_fields extracted text_lower computed_extractors
      include_confidence !! f = None.
Proof.
  intros [Hsub Hstuck] Habs. unfold _calculate_computed_fields, settle.
  apply (settle_loop_absent include_confidence _ fields _ Hsub); [|exact Habs].
  apply Forall_forall. intros item Hitem. exact (Hstuck item Hitem).
Qed.

(** C3: settlement makes at most [N + 1] passes for [N] computed fields,
    but a field that is still unsettled after them is not assigned its
    default: the fields of a dependency cycle stay absent whatever default
    they configure.  For [a = b + 1] and [b = a + 1], both with the default
    [0], the three passes leave both fields in [remaining] and the facts
    empty. *)
Theorem C3_unsettled_fields_get_no_default :
  (∀ (include_confidence : bool) (extracted : facts)
     (computed_extractors : list (string * extractor)),
     ((settle include_confidence extracted computed_extractors).2
      <= length computed_extractors + 1)%nat)
  ∧ (∀ (include_confidence : bool) (fields : gset string) (extracted : facts)
       (text_lower : string) (computed_extractors : list (string * extractor)),
       cyclic_fields fields computed_extractors →
       (∀ f, f ∈ fields → extracted !! f = None) →
       ∀ f, f ∈ fields →
         _calculate_computed_fields extracted text_lower computed_extractors
           include_confidence !! f = None)
  ∧ map (λ item : string * extractor, (item.1, ex_default item.2)) cyclic_extractors
    = [("a", VInt 0); ("b", VInt 0)]
  ∧ settle false ∅ cyclic_extractors = (∅, cyclic_extractors, 3%nat)
  ∧ _calculate_computed_fields ∅ "" cyclic_extractors false = ∅
  ∧ _calculate_computed_fields ∅ "" cyclic_extractors true = ∅.
Proof.
  split; [exact settle_pass_bound|].
  split; [exact cycle_never_settled|].
  repeat split; vm_compute; reflexivity.
Qed.

Lemma C3_witness :
  cyclic_fields {[ "a"; "b" ]} cyclic_extractors
  ∧ _calculate_computed_fields ∅ "" cyclic_extractors true !! "a" = None.
Proof.
  assert (Hcyc : cyclic_fields {[ "a"; "b" ]} cyclic_extractors).
  { split; [set_solver|]. intros item Hitem _. unfold cyclic_extractors in Hitem.
    apply elem_of_cons in Hitem as [-> | Hitem];
      [|apply elem_of_cons in Hitem as [-> | Hitem];
        [|apply elem_of_nil in Hitem; destruct Hitem]];
      (split; [reflexivity|]); [exists "b" | exists "a"]; simpl; set_solver. }
  split; [exact Hcyc|].
  apply (proj1 (proj2 C3_unsettled_fields_get_no_default) true {[ "a"; "b" ]} ∅ ""
           cyclic_extractors Hcyc).
  - intros f _. apply lookup_empty.
  - set_solver.
Defined.

(** * Further properties of the code *)

(** ** CORS origins *)

Lemma str_split_on_nonempty (p : ascii → bool) (s : string) : str_split_on p s ≠ [].
Proof.
  destruct s as [|a s]; simpl; [discriminate|].
  destruct (p a); [discriminate|]. destruct (str_split_on p s); discriminate.
Qed.

Lemma existsb_eqb_In (x : string) (l : list string) :
  existsb (String.eqb x) l = true ↔ In x l.
Proof.
  rewrite existsb_exists. split.
  - intros (y & Hin & ->%String.eqb_eq). exact Hin.
  - intros Hin. exists x. split; [exact Hin | apply String.eqb_refl].
Qed.

(** X1 - The [Access-Control-Allow-Origin] header that [get_cors_origin]
    computes from [CORS_ORIGINS] is always the wildcard or one of the
    configured origins: the wildcard whenever it is configured, the
    request's origin when that is configured, and the first configured
    origin otherwise.  An origin that is not configured is never echoed, and
    the empty-string fallback is never reached, because [split] never
    returns an empty list. *)
Theorem cors_origin_is_configured (env : option string) (request_origin : string) :
  let allowed := allowed_origins env in
  let origin := get_cors_origin allowed request_origin in
  (origin = "*" ∨ In origin allowed)
  ∧ (In "*" allowed → origin = "*")
  ∧ (¬ In "*" allowed → In request_origin allowed → origin = request_origin)
  ∧ (¬ In "*" allowed → ¬ In request_origin allowed → head allowed = Some origin).
Proof.
  intros allowed origin. subst origin. unfold get_cors_origin.
  assert (Hne : allowed ≠ []) by apply str_split_on_nonempty.
  destruct (existsb (String.eqb "*") allowed) eqn:Hstar.
  - apply existsb_eqb_In in Hstar.
    repeat split; try (intros; reflexivity); try (intros Hn; contradiction).
    left. reflexivity.
  - assert (Hnot : ¬ In "*" allowed).
    { intros Hin%existsb_eqb_In. rewrite Hin in Hstar. discriminate. }
    destruct (existsb (String.eqb request_origin) allowed) eqn:Hreq.
    + apply existsb_eqb_In in Hreq.
      repeat split; try (intros; reflexivity); try (intros; contradiction).
      right. exact Hreq.
    + assert (Hnreq : ¬ In request_origin allowed).
      { intros Hin%existsb_eqb_In. rewrite Hin in Hreq. discriminate. }
      destruct allowed as [|first rest]; [contradiction|].
      repeat split; try (intros; contradiction); try (intros; reflexivity).
      right. left. reflexivity.
Qed.

(** ** The ontology loader *)

Lemma str_le_total : Total Builtins.str_le.
Proof. intros a b. unfold Builtins.str_le. apply String.leb_total. Qed.

(** X2 - [list_available] returns the names in ascending order and without
    duplicates, and a name is listed exactly when [_get_builtin_ontology]
    knows it or the ontology directory holds a [.json] file of that name:
    the hard-coded list of names agrees with the table of built-in
    ontologies. *)
Theorem list_available_spec (stems : option (list string)) :
  let available := Builtins.list_available stems in
  Sorted Builtins.str_le available
  ∧ NoDup available
  ∧ ∀ name, name ∈ available
            ↔ is_Some (Builtins._get_builtin_ontology name) ∨ name ∈ default [] stems.
Proof.
  intros available. subst available. unfold Builtins.list_available.
  split; [apply Sorted_merge_sort, str_le_total|]. split.
  - rewrite merge_sort_Permutation. apply NoDup_elements.
  - intros name. rewrite merge_sort_Permutation, elem_of_elements, elem_of_list_to_set.
    rewrite elem_of_app. apply or_iff_compat_r.
    unfold Builtins._get_builtin_ontology. simpl.
    rewrite !elem_of_cons, elem_of_nil.
    split.
    + intros [-> | [-> | [-> | []]]]; simpl; eexists; reflexivity.
    + intros [o Ho].
      destruct (String.eqb_spec name "mortgage-compliance-v1"); [tauto|].
      destruct (String.eqb_spec name "fair-lending-v1"); [tauto|].
      destruct (String.eqb_spec name "hipaa-v1"); [tauto|]. discriminate.
Qed.

Lemma validate_ontology_ok (doc out : value) :
  Builtins._validate_ontology doc = Ok out →
  out = doc ∧ Forall (λ field, Builtins.py_contains field doc = Ok true)
                Builtins.required_fields.
Proof.
  unfold Builtins._validate_ontology, Builtins.required_fields. cbn [foldM bind].
  repeat (match goal with
          | |- context [Builtins.py_contains ?f doc] =>
              destruct (Builtins.py_contains f doc) as [[]|] eqn:?; cbn [bind];
              try discriminate
          end).
  intros [= <-]. split; [reflexivity|]. repeat (constructor; try assumption).
Qed.

(** X3 - [load] never fails and never returns a document that did not pass
    [_validate_ontology]: a returned file document is what [json.load] gave
    and contains the four required fields; otherwise (no file, an
    unreadable or invalid file) a name of the built-in table yields the
    built-in ontology of that very name and any other name silently yields
    the mortgage ontology. *)
Theorem load_spec (read_json : string → option (result value)) (name : string) :
  match Builtins.load read_json name with
  | Builtins.FromFile doc =>
      read_json name = Some (Ok doc)
      ∧ Forall (λ field, Builtins.py_contains field doc = Ok true)
          Builtins.required_fields
  | Builtins.BuiltIn o =>
      match Builtins._get_builtin_ontology name with
      | Some builtin => o = builtin ∧ o_name o = name
      | None => o = OntologyLoader._get_default_ontology
      end
  end.
Proof.
  unfold Builtins.load.
  assert (Hb : match Builtins._get_builtin_ontology name with
               | Some builtin => o_name builtin = name
               | None => True
               end).
  { unfold Builtins._get_builtin_ontology. simpl.
    destruct (String.eqb_spec name "mortgage-compliance-v1") as [->|]; [reflexivity|].
    destruct (String.eqb_spec name "fair-lending-v1") as [->|]; [reflexivity|].
    destruct (String.eqb_spec name "hipaa-v1") as [->|]; [reflexivity|]. exact I. }
  destruct (read_json name) as [[doc|e]|] eqn:Hfile; cbn [bind ok_or_none].
  - destruct (Builtins._validate_ontology doc) as [out|e] eqn:Hv; cbn [ok_or_none].
    + apply validate_ontology_ok in Hv as [-> Hall]. split; [reflexivity | exact Hall].
    + destruct (Builtins._get_builtin_ontology name); [split; [reflexivity | exact Hb] | reflexivity].
  - destruct (Builtins._get_builtin_ontology name); [split; [reflexivity | exact Hb] | reflexivity].
  - destruct (Builtins._get_builtin_ontology name); [split; [reflexivity | exact Hb] | reflexivity].
Qed.

(** ** The compiled-pattern cache *)

Section PatternCacheUse.

Context {regex : Type} (re_compile : string → option regex).

(** X4 - Memoisation by [_get_compiled_pattern] is transparent: on a cache
    whose entries came from [re.compile], the call returns what
    [re.compile] returns, leaves such a cache behind, gives the same answer
    and leaves the cache untouched when repeated, never changes the entry of
    another pattern, and does not cache a pattern that failed to compile. *)
Theorem pattern_cache_transparent (cache : gmap string regex) (pattern : string) :
  cache_coherent re_compile cache →
  let r := (_get_compiled_pattern re_compile cache pattern).1 in
  let cache' := (_get_compiled_pattern re_compile cache pattern).2 in
  r = re_compile pattern
  ∧ cache_coherent re_compile cache'
  ∧ _get_compiled_pattern re_compile cache' pattern = (r, cache')
  ∧ (∀ q, q ≠ pattern → cache' !! q = cache !! q)
  ∧ (r = None → cache' = cache).
Proof.
  intros Hc. unfold _get_compiled_pattern.
  destruct (cache !! pattern) as [c|] eqn:Hhit; cbn [fst snd].
  - rewrite Hhit. repeat split; try done. symmetry. apply Hc, Hhit.
  - destruct (re_compile pattern) as [c|] eqn:Hcomp; cbn [fst snd].
    + rewrite lookup_insert_eq. repeat split; try done.
      * intros p c' Hp. destruct (decide (p = pattern)) as [->|Hne].
        -- rewrite lookup_insert_eq in Hp. congruence.
        -- rewrite lookup_insert_ne in Hp by congruence. apply Hc, Hp.
      * intros q Hq. apply lookup_insert_ne. congruence.
    + rewrite Hhit. repeat split; done.
Qed.

End PatternCacheUse.

Lemma pattern_cache_transparent_witness :
  let pattern := "dti[:\s~]*(\d+(?:\.\d+)?)" in
  (_get_compiled_pattern table_compile ∅ pattern).1 = Some TDti
  ∧ _get_compiled_pattern table_compile
      (_get_compiled_pattern table_compile ∅ pattern).2 pattern
    = (Some TDti, {[ pattern := TDti ]}).
Proof.
  intros pattern.
  assert (Hc : cache_coherent table_compile ∅).
  { intros p c H. rewrite lookup_empty in H. discriminate H. }
  pose proof (pattern_cache_transparent table_compile ∅ pattern Hc) as (H1 & _ & H3 & _).
  split; [exact H1 | exact H3].
Defined.

(** ** Substrings *)

Lemma str_app_cons (x : ascii) (a b : string) : String x a +:+ b = String x (a +:+ b).
Proof. reflexivity. Qed.

Lemma str_app_nil_l (a : string) : EmptyString +:+ a = a.
Proof. reflexivity. Qed.

Lemma str_app_assoc (a b c : string) : (a +:+ b) +:+ c = a +:+ (b +:+ c).
Proof.
  induction a as [|x a IH]; [reflexivity|]. rewrite !str_app_cons, IH. reflexivity.
Qed.

Lemma str_app_length (a b : string) :
  String.length (a +:+ b) = (String.length a + String.length b)%nat.
Proof.
  induction a as [|x a IH]; [reflexivity|]. rewrite str_app_cons. simpl.
  rewrite IH. reflexivity.
Qed.

Lemma str_app_nil_r (a : string) : a +:+ EmptyString = a.
Proof.
  induction a as [|x a IH]; [reflexivity|]. rewrite str_app_cons, IH. reflexivity.
Qed.

Lemma prefix_app (sub post : string) : String.prefix sub (sub +:+ post) = true.
Proof.
  induction sub as [|c sub IH]; [destruct post; reflexivity|].
  rewrite str_app_cons. simpl.
  destruct (ascii_dec c c) as [_|Hne]; [exact IH | contradiction].
Qed.

Lemma prefix_inv (sub s : string) :
  String.prefix sub s = true → ∃ post, s = sub +:+ post.
Proof.
  revert s. induction sub as [|c sub IH]; intros s H.
  - exists s. reflexivity.
  - destruct s as [|a s]; [discriminate|]. simpl in H.
    destruct (ascii_dec c a) as [->|]; [|discriminate].
    destruct (IH s H) as [post ->]. exists post. reflexivity.
Qed.

Lemma str_in_intro (pre sub post : string) : str_in sub (pre +:+ (sub +:+ post)) = true.
Proof.
  induction pre as [|a pre IH]; rewrite str_in_unfold.
  - rewrite str_app_nil_l, prefix_app. reflexivity.
  - rewrite str_app_cons.
    destruct (String.prefix sub (String a (pre +:+ (sub +:+ post)))); [reflexivity|].
    exact IH.
Qed.

Lemma str_find_unfold (sub s : string) :
  str_find sub s
  = if String.prefix sub s then 0%Z
    else match s with
         | EmptyString => (-1)%Z
         | String _ s' =>
             let i := str_find sub s' in if (i <? 0)%Z then (-1)%Z else (i + 1)%Z
         end.
Proof. destruct s; reflexivity. Qed.

(** [s.find(sub)] is the length of what precedes an occurrence of [sub]. *)
Lemma str_in_inv (sub s : string) :
  str_in sub s = true →
  ∃ pre post, s = pre +:+ (sub +:+ post)
              ∧ str_find sub s = Z.of_nat (String.length pre).
Proof.
  induction s as [|a s IH]; intros H; rewrite str_in_unfold in H;
    rewrite str_find_unfold.
  - destruct (String.prefix sub EmptyString) eqn:Hp; [|discriminate].
    apply prefix_inv in Hp as [post Hp]. exists EmptyString, post.
    split; [exact Hp | reflexivity].
  - destruct (String.prefix sub (String a s)) eqn:Hp.
    + pose proof Hp as [post Hs]%prefix_inv. exists EmptyString, post.
      split; [exact Hs | reflexivity].
    + destruct (IH H) as (pre & post & Hs & Hfind).
      exists (String a pre), post. split; [rewrite str_app_cons, <- Hs; reflexivity|].
      cbv zeta. rewrite Hfind.
      destruct (Z.ltb_spec (Z.of_nat (String.length pre)) 0); [lia|].
      simpl String.length. lia.
Qed.

Lemma str_in_trans (a b c : string) :
  str_in a b = true → str_in b c = true → str_in a c = true.
Proof.
  intros (p1 & q1 & -> & _)%str_in_inv (p2 & q2 & -> & _)%str_in_inv.
  rewrite !str_app_assoc, <- (str_app_assoc p2 p1). apply str_in_intro.
Qed.

Lemma substring_head (m post : string) :
  String.substring 0 (String.length m) (m +:+ post) = m.
Proof.
  induction m as [|c m IHm]; [destruct post; reflexivity|].
  rewrite str_app_cons. simpl. rewrite IHm. reflexivity.
Qed.

Lemma substring_middle (p m post : string) :
  String.substring (String.length p) (String.length m) (p +:+ (m +:+ post)) = m.
Proof.
  induction p as [|a p IH]; [|rewrite str_app_cons; exact IH].
  rewrite str_app_nil_l. apply substring_head.
Qed.

Lemma string_split_at (n : nat) (s : string) :
  (n <= String.length s)%nat →
  ∃ p1 p2, s = p1 +:+ p2 ∧ String.length p1 = n.
Proof.
  revert s. induction n as [|n IH]; intros s Hn.
  - exists EmptyString, s. split; reflexivity.
  - destruct s as [|a s]; simpl in Hn; [lia|].
    destruct (IH s) as (p1 & p2 & -> & Hlen); [lia|].
    exists (String a p1), p2. split; [reflexivity | simpl; lia].
Qed.

(** The window [text_lower[max(0, pos - 15) : pos + len(kw)]] of the keyword
    loop ends with the keyword itself. *)
Lemma negation_window_ends_with_keyword (kw text_lower : string) :
  str_in kw text_lower = true →
  let kw_pos := str_find kw text_lower in
  ∃ before,
    str_slice text_lower (Z.max 0 (kw_pos - 15)) (kw_pos + str_len kw) = before +:+ kw.
Proof.
  intros (pre & post & -> & Hfind)%str_in_inv. cbv zeta. rewrite Hfind.
  destruct (string_split_at
              (Z.to_nat (Z.max 0 (Z.of_nat (String.length pre) - 15))) pre)
    as (p1 & p2 & Hpre & Hlen); [lia|].
  subst pre. exists p2. unfold str_slice, slice_index, str_len.
  rewrite !str_app_length in *.
  repeat match goal with
         | |- context [(?a <? ?b)%Z] => destruct (Z.ltb_spec a b); [lia|]
         end.
  rewrite !Z.min_l by lia.
  rewrite str_app_assoc, <- (str_app_assoc p2 kw post).
  replace (Z.to_nat (Z.max 0 (Z.of_nat (String.length p1 + String.length p2) - 15)))
    with (String.length p1) by lia.
  replace (Z.to_nat _) with (String.length (p2 +:+ kw)) by (rewrite str_app_length; lia).
  apply substring_middle.
Qed.

(** A keyword that contains a negation word is always negated. *)
Lemma keyword_scan_dead_keyword (ex : extractor) (text_lower kw neg : string)
    (rest : list string) :
  negation_enabled ex = true → In neg (ex_negation_words ex) →
  str_in neg kw = true →
  keyword_scan ex text_lower (kw :: rest) = keyword_scan ex text_lower rest.
Proof.
  intros Hen Hneg Hin. cbn [keyword_scan].
  destruct (str_in kw text_lower) eqn:Hkw; [|reflexivity].
  rewrite Hen.
  destruct (negation_window_ends_with_keyword kw text_lower Hkw) as [before Hctx].
  cbv zeta in Hctx. rewrite Hctx.
  assert (Hn : negated (ex_negation_words ex) (before +:+ kw) = true).
  { unfold negated. apply existsb_exists. exists neg. split; [exact Hneg|].
    apply (str_in_trans neg kw); [exact Hin|].
    rewrite <- (str_app_nil_r kw) at 2. apply str_in_intro. }
  rewrite Hn. reflexivity.
Qed.

Section KeywordExtraction.

Context {regex : Type}
  (compiled : string → option regex)
  (re_search : regex → string → option re_match)
  (re_findall : regex → string → list findall_item).

(** X5 - A keyword-based boolean extractor answers [True] only if one of
    its keywords occurs in the lowercased text, and with negation checking
    off (or no negation words) it answers [True] exactly then. *)
Theorem boolean_true_needs_keyword (text : string) (ex : extractor) :
  type_is ex "boolean" = true → truthy_pattern ex = None →
  ∃ b, _extract_field compiled re_search re_findall text (str_lower text) ex
       = Ok (VBool b)
       ∧ (b = true → ∃ kw, In kw (ex_keywords ex) ∧ str_in kw (str_lower text) = true)
       ∧ (negation_enabled ex = false
          → b = existsb (λ kw, str_in kw (str_lower text)) (ex_keywords ex)).
Proof.
  intros Hty Hpat. eexists. split; [apply extract_field_keyword_based; assumption|].
  generalize (ex_keywords ex) as kws. intros kws. split.
  - induction kws as [|kw kws IH]; cbn [keyword_scan]; [discriminate|].
    destruct (str_in kw (str_lower text)) eqn:Hkw.
    + intros _. exists kw. split; [left; reflexivity | exact Hkw].
    + intros (kw' & Hin & Hk)%IH. exists kw'. split; [right; exact Hin | exact Hk].
  - intros Hoff. induction kws as [|kw kws IH]; cbn [keyword_scan existsb]; [reflexivity|].
    rewrite Hoff, IH. destruct (str_in kw (str_lower text)); reflexivity.
Qed.

(** X6 - The negation window of the keyword loop always contains the
    keyword itself, so a keyword that contains one of the negation words
    (such as "cannot approve" with the negation word "not") can never fire:
    a boolean extractor all of whose keywords are like that answers [False]
    on every text. *)
Theorem keywords_containing_negation_never_fire (text text_lower : string)
    (ex : extractor) :
  type_is ex "boolean" = true → truthy_pattern ex = None →
  negation_enabled ex = true →
  Forall (λ kw, ∃ neg, In neg (ex_negation_words ex) ∧ str_in neg kw = true)
    (ex_keywords ex) →
  _extract_field compiled re_search re_findall text text_lower ex = Ok (VBool false).
Proof.
  intros Hty Hpat Hen Hall. rewrite extract_field_keyword_based by assumption.
  do 2 f_equal. induction Hall as [|kw kws (neg & Hneg & Hin) _ IH]; [reflexivity|].
  rewrite (keyword_scan_dead_keyword ex text_lower kw neg kws Hen Hneg Hin). exact IH.
Qed.

End KeywordExtraction.

Lemma boolean_true_needs_keyword_witness :
  ∃ b, _extract_field compile_nothing search_nothing findall_nothing
         "Loan APPROVED" (str_lower "Loan APPROVED")
         (OntologyLoader.keyword_extractor ["approved"; "approve"])
       = Ok (VBool b)
       ∧ (b = true → ∃ kw, In kw ["approved"; "approve"]
                           ∧ str_in kw (str_lower "Loan APPROVED") = true)
       ∧ (negation_enabled (OntologyLoader.keyword_extractor ["approved"; "approve"]) = false
          → b = existsb (λ kw, str_in kw (str_lower "Loan APPROVED"))
                  ["approved"; "approve"]).
Proof.
  apply (boolean_true_needs_keyword compile_nothing search_nothing findall_nothing
           "Loan APPROVED" (OntologyLoader.keyword_extractor ["approved"; "approve"]));
    reflexivity.
Defined.

Lemma keywords_containing_negation_never_fire_witness :
  _extract_field compile_nothing search_nothing findall_nothing
    "We cannot approve this loan" "we cannot approve this loan"
    (negating_extractor ["cannot approve"; "not eligible"] ["not"])
  = Ok (VBool false).
Proof.
  apply (keywords_containing_negation_never_fire compile_nothing search_nothing
           findall_nothing); try reflexivity.
  repeat constructor; exists "not"; split; try (left; reflexivity); reflexivity.
Defined.

(** ** Computed fields: what settlement writes *)

Lemma writes_only_refl (names : list string) (f : facts) : writes_only names f f.
Proof. split; intros; [reflexivity | assumption]. Qed.

Lemma writes_only_trans (names names' : list string) (f g h : facts) :
  names' ⊆ names →
  writes_only names f g → writes_only names' g h → writes_only names f h.
Proof.
  intros Hsub [Hfg Hfg'] [Hgh Hgh']. split.
  - intros k Hk. rewrite Hgh, Hfg; [reflexivity | exact Hk |].
    intros Hin. apply Hk, Hsub, Hin.
  - intros k Hk. apply Hgh', Hfg', Hk.
Qed.

Lemma writes_only_mono (names names' : list string) (f g : facts) :
  names' ⊆ names → writes_only names' f g → writes_only names f g.
Proof.
  intros Hsub [Hfg Hfg']. split; [|exact Hfg'].
  intros k Hk. apply Hfg. intros Hin. apply Hk, Hsub, Hin.
Qed.

Lemma set_computed_writes (include_confidence : bool) (extracted : facts)
    (field : string) (v : value) :
  writes_only [field] extracted (set_computed include_confidence extracted field v).
Proof.
  split.
  - intros k Hk. apply set_computed_other. intros ->. apply Hk. left.
  - intros k Hk. unfold set_computed.
    destruct include_confidence; rewrite lookup_insert_is_Some;
      destruct (decide (field = k)); tauto.
Qed.

Lemma set_default_writes (include_confidence : bool) (extracted : facts)
    (field : string) (v : value) :
  writes_only [field] extracted (set_default include_confidence extracted field v).
Proof.
  unfold set_default. destruct (is_none v);
    [apply writes_only_refl | apply set_computed_writes].
Qed.

Lemma set_computed_is_Some (include_confidence : bool) (extracted : facts)
    (field : string) (v : value) :
  is_Some (set_computed include_confidence extracted field v !! field).
Proof.
  unfold set_computed. destruct include_confidence; rewrite lookup_insert_eq; eauto.
Qed.

Lemma settle_field_writes (include_confidence : bool) (computed_names : gset string)
    (st : facts * list string) (item : string * extractor) :
  writes_only [item.1] st.1 (settle_field include_confidence computed_names st item).1.
Proof.
  destruct st as [extracted done], item as [field ex]. unfold settle_field. cbn [fst snd].
  destruct (negb (py_truthy (ex_formula ex))); [apply set_default_writes|].
  destruct (bool_decide _); [apply writes_only_refl|].
  destruct (_evaluate_formula _ _ _) as [r|e]; cbn [fst];
    [destruct (negb (is_none r))|];
    first [apply set_computed_writes | apply set_default_writes].
Qed.

Lemma settle_fold_writes (include_confidence : bool) (computed_names : gset string)
    (remaining : list (string * extractor)) :
  ∀ st : facts * list string,
    writes_only (map fst remaining) st.1
      (foldl (settle_field include_confidence computed_names) st remaining).1.
Proof.
  induction remaining as [|item remaining IH]; intros st; [apply writes_only_refl|].
  cbn [foldl map].
  eapply (writes_only_trans _ (map fst remaining)); [| |apply IH].
  - intros k Hk. right. exact Hk.
  - eapply (writes_only_trans _ [item.1]); [|apply writes_only_refl|apply settle_field_writes].
    intros k Hk%list_elem_of_singleton. subst k. left.
Qed.

Lemma settle_pass_writes (include_confidence : bool) (computed_names : gset string)
    (remaining : list (string * extractor)) (extracted : facts) :
  writes_only (map fst remaining) extracted
    (settle_pass include_confidence computed_names remaining extracted).1
  ∧ map fst (settle_pass include_confidence computed_names remaining extracted).2
    ⊆ map fst remaining.
Proof.
  unfold settle_pass.
  pose proof (settle_fold_writes include_confidence computed_names remaining
                (extracted, [])) as H.
  destruct (foldl _ _ remaining) as [extracted' done]. cbn [fst snd] in *.
  split; [exact H|].
  intros k (item & -> & Hin%list_elem_of_filter)%list_elem_of_fmap.
  apply list_elem_of_fmap. exists item. split; [reflexivity | apply Hin].
Qed.

Lemma settle_loop_writes (include_confidence : bool) (computed_names : gset string)
    (max_iterations : nat) :
  ∀ (fuel iteration : nat) (remaining : list (string * extractor)) (extracted : facts),
    writes_only (map fst remaining) extracted
      (settle_loop fuel include_confidence computed_names max_iterations iteration
         remaining extracted).1.1.
Proof.
  induction fuel as [|fuel IH]; intros iteration remaining extracted;
    cbn [settle_loop]; [apply writes_only_refl|].
  destruct (negb _ && _); [|apply writes_only_refl].
  destruct (settle_pass_writes include_confidence computed_names remaining extracted)
    as [Hw Hsub].
  destruct (settle_pass _ _ remaining extracted) as [extracted' remaining'].
  cbn [fst snd] in *.
  eapply writes_only_trans; [exact Hsub | exact Hw | apply IH].
Qed.

Lemma calculate_computed_fields_writes (extracted : facts) (text_lower : string)
    (computed_extractors : list (string * extractor)) (include_confidence : bool) :
  writes_only (map fst computed_extractors) extracted
    (_calculate_computed_fields extracted text_lower computed_extractors
       include_confidence).
Proof. apply settle_loop_writes. Qed.

(** X7 - [_calculate_computed_fields] writes only the fields of the
    computed extractors: every other fact is left exactly as it was, and no
    fact is ever removed. *)
Theorem computed_fields_frame (extracted : facts) (text_lower : string)
    (computed_extractors : list (string * extractor)) (include_confidence : bool) :
  let result :=
    _calculate_computed_fields extracted text_lower computed_extractors
      include_confidence in
  (∀ k, k ∉ map fst computed_extractors → result !! k = extracted !! k)
  ∧ (∀ k, is_Some (extracted !! k) → is_Some (result !! k)).
Proof. apply calculate_computed_fields_writes. Qed.

(** ** Computed fields that depend on no computed field *)

Lemma settle_field_independent (include_confidence : bool) (computed_names : gset string)
    (st : facts * list string) (item : string * extractor) :
  independent computed_names item →
  (settle_field include_confidence computed_names st item).2 = st.2 ++ [item.1]
  ∧ (ex_default item.2 ≠ VNone →
     is_Some ((settle_field include_confidence computed_names st item).1 !! item.1)).
Proof.
  destruct st as [extracted done], item as [field ex]. unfold independent, settle_field.
  cbn [fst snd]. intros Hind.
  assert (Hdefault : ex_default ex ≠ VNone →
            is_Some (set_default include_confidence extracted field (ex_default ex)
                     !! field)).
  { intros Hne. unfold set_default.
    destruct (ex_default ex); try contradiction; apply set_computed_is_Some. }
  destruct (negb (py_truthy (ex_formula ex))); [split; [reflexivity | exact Hdefault]|].
  rewrite bool_decide_eq_false_2.
  2:{ intros Hne. apply Hne. apply set_eq. intros k. rewrite elem_of_intersection.
      split; [|intros []%elem_of_empty].
      intros [Hk [Hk' _]%elem_of_difference].
      rewrite <- Hind. apply elem_of_intersection. split; assumption. }
  destruct (_evaluate_formula _ _ _) as [r|e]; cbn [fst snd];
    [|split; [reflexivity | exact Hdefault]].
  split; [reflexivity|].
  destruct (negb (is_none r)); [intros _; apply set_computed_is_Some | exact Hdefault].
Qed.

Lemma settle_fold_independent (include_confidence : bool) (computed_names : gset string)
    (remaining : list (string * extractor)) :
  Forall (independent computed_names) remaining →
  ∀ st : facts * list string,
    (foldl (settle_field include_confidence computed_names) st remaining).2
    = st.2 ++ map fst remaining
    ∧ ∀ item, item ∈ remaining → ex_default item.2 ≠ VNone →
        is_Some ((foldl (settle_field include_confidence computed_names) st remaining).1
                 !! item.1).
Proof.
  intros Hall. induction Hall as [|item remaining Hitem Hrest IH]; intros st;
    cbn [foldl map].
  - rewrite app_nil_r. split; [reflexivity|]. intros item Hin. inversion Hin.
  - destruct (settle_field_independent include_confidence computed_names st item Hitem)
      as [Hdone Hset].
    destruct (IH (settle_field include_confidence computed_names st item)) as [IH1 IH2].
    rewrite IH1, Hdone, <- app_assoc. split; [reflexivity|].
    intros item' [->|Hin]%elem_of_cons Hne; [|apply IH2; assumption].
    apply (settle_fold_writes include_confidence computed_names remaining), Hset, Hne.
Qed.

Lemma filter_settled (remaining : list (string * extractor)) (done : list string) :
  map fst remaining ⊆ done →
  filter (λ item : string * extractor, negb (existsb (String.eqb item.1) done))
    remaining = [].
Proof.
  induction remaining as [|item remaining IH]; intros Hsub; [reflexivity|].
  rewrite filter_cons.
  assert (Hin : existsb (String.eqb item.1) done = true).
  { apply existsb_eqb_In, list_elem_of_In, Hsub. left. }
  rewrite Hin. cbn [negb]. rewrite decide_False by (intros H; exact H).
  apply IH. intros k Hk. apply Hsub. right. exact Hk.
Qed.

Lemma settle_independent (include_confidence : bool) (extracted : facts)
    (computed_extractors : list (string * extractor)) :
  Forall (independent (list_to_set (map fst computed_extractors))) computed_extractors →
  (settle include_confidence extracted computed_extractors).1.2 = []
  ∧ ((settle include_confidence extracted computed_extractors).2 <= 1)%nat
  ∧ ∀ item, item ∈ computed_extractors → ex_default item.2 ≠ VNone →
      is_Some ((settle include_confidence extracted computed_extractors).1.1 !! item.1).
Proof.
  intros Hind. unfold settle.
  set (names := list_to_set (map fst computed_extractors) : gset string) in *.
  assert (Hlen : (length computed_extractors + 1 = S (length computed_extractors))%nat)
    by lia.
  rewrite Hlen. cbn [settle_loop].
  destruct (bool_decide (computed_extractors = [])) eqn:Hempty.
  { apply bool_decide_eq_true_1 in Hempty. cbn [negb andb fst snd].
    repeat split; [exact Hempty | lia |]. rewrite Hempty. intros item Hin. inversion Hin. }
  cbn [negb andb Nat.ltb Nat.leb].
  unfold settle_pass.
  destruct (settle_fold_independent include_confidence names computed_extractors Hind
              (extracted, [])) as [Hdone Hset].
  destruct (foldl _ _ computed_extractors) as [extracted' done]. cbn [fst snd] in *.
  rewrite filter_settled by (rewrite Hdone; reflexivity).
  destruct (length computed_extractors) as [|n] eqn:Hn;
    cbn [settle_loop bool_decide_eq_true_1].
  - cbn [fst snd]. repeat split; [lia | exact Hset].
  - rewrite bool_decide_eq_true_2 by reflexivity. cbn [negb andb fst snd].
    repeat split; [lia | exact Hset].
Qed.

(** X8 - Computed fields whose formulas refer to no computed field are all
    settled by the first pass of the dependency loop: nothing remains
    unsettled, at most one pass runs, and every such field that configures
    a default is present afterwards (with its computed value or the
    default), in contrast to the fields of a dependency cycle. *)
Theorem independent_fields_settle_at_once (extracted : facts) (text_lower : string)
    (computed_extractors : list (string * extractor)) (include_confidence : bool) :
  Forall (independent (list_to_set (map fst computed_extractors))) computed_extractors →
  (settle include_confidence extracted computed_extractors).1.2 = []
  ∧ ((settle include_confidence extracted computed_extractors).2 <= 1)%nat
  ∧ ∀ item, item ∈ computed_extractors → ex_default item.2 ≠ VNone →
      is_Some (_calculate_computed_fields extracted text_lower computed_extractors
                 include_confidence !! item.1).
Proof. apply settle_independent. Qed.

Lemma independent_fields_settle_at_once_witness :
  Forall (independent (list_to_set (map fst plus_one_extractors))) plus_one_extractors
  ∧ (settle false {[ "fees" := VInt 2 ]} plus_one_extractors).1.2 = [].
Proof.
  assert (H : Forall (independent (list_to_set (map fst plus_one_extractors)))
                plus_one_extractors).
  { repeat constructor. }
  split; [exact H|].
  apply (independent_fields_settle_at_once {[ "fees" := VInt 2 ]} "" plus_one_extractors
           false H).
Defined.

(** ** Built-in derivations *)

Lemma get_value_field (include_confidence : bool) (extracted : facts) (k : string)
    (dflt : value) :
  get_value include_confidence extracted (VStr k) dflt
  = Ok (unwrap_result include_confidence (default dflt (extracted !! k))).
Proof. reflexivity. Qed.

Lemma set_computed_unwrap (include_confidence : bool) (extracted : facts)
    (field : string) (v : value) :
  is_none v = false → (∀ a c s t, v ≠ VResult a c s t) →
  unwrap_result include_confidence
    <$> set_computed include_confidence extracted field v !! field = Some v.
Proof.
  intros _ Hv. unfold set_computed.
  destruct include_confidence; rewrite lookup_insert_eq; cbn; try reflexivity.
  all: destruct v; try reflexivity; exfalso; eapply Hv; reflexivity.
Qed.

(** What [_calculate_derived_fields] returns extends the facts by
    [word_count] and possibly [fee_percentage]. *)
Lemma derived_fields_writes (extracted : facts) (text_lower : string)
    (include_confidence : bool) :
  returns
    (λ f, writes_only ["fee_percentage"; "word_count"] extracted f
          ∧ unwrap_result include_confidence <$> f !! "word_count"
            = Some (VInt (Z.of_nat (length (str_split text_lower)))))
    (_calculate_derived_fields extracted text_lower include_confidence).
Proof.
  unfold _calculate_derived_fields. rewrite !get_value_field. cbn [bind].
  set (fees := unwrap_result _ (default VNone (extracted !! "fees"))).
  set (loan := unwrap_result _ (default VNone (extracted !! "loan_amount"))).
  assert (Hlast : ∀ e : facts,
            writes_only ["fee_percentage"] extracted e →
            returns
              (λ f, writes_only ["fee_percentage"; "word_count"] extracted f
                    ∧ unwrap_result include_confidence <$> f !! "word_count"
                      = Some (VInt (Z.of_nat (length (str_split text_lower)))))
              (Ok (set_computed include_confidence e "word_count"
                     (VInt (Z.of_nat (length (str_split text_lower))))))).
  { intros e He. cbn [returns]. split.
    - eapply (writes_only_trans _ ["word_count"]); [| |apply set_computed_writes].
      + intros k Hk%list_elem_of_singleton. subst k. right. left.
      + eapply writes_only_mono; [|exact He].
        intros k Hk%list_elem_of_singleton. subst k. left.
    - apply set_computed_unwrap; [reflexivity | discriminate]. }
  destruct (negb (is_none fees) && negb (is_none loan)); cbn [bind];
    [|apply Hlast, writes_only_refl].
  destruct (py_richcmp OpGt loan (VInt 0)) as [[]|]; cbn [bind returns];
    [|apply Hlast, writes_only_refl|exact I].
  destruct (py_truediv fees loan) as [q|]; cbn [bind returns]; [|exact I].
  destruct (py_mul q (VInt 100)) as [pct|]; cbn [bind returns]; [|exact I].
  apply Hlast, set_computed_writes.
Qed.

(** X9 - [_calculate_derived_fields], when it returns, has written at most
    [fee_percentage] and [word_count]: every other fact is unchanged, no
    fact is removed, and [word_count] is the number of whitespace-separated
    words of the lowercased text.  When [fees] or [loan_amount] was not
    extracted it always returns, and leaves [fee_percentage] as it was. *)
Theorem derived_fields_frame (extracted : facts) (text_lower : string)
    (include_confidence : bool) :
  returns
    (λ f, (∀ k, k ≠ "fee_percentage" → k ≠ "word_count" → f !! k = extracted !! k)
          ∧ (∀ k, is_Some (extracted !! k) → is_Some (f !! k))
          ∧ unwrap_result include_confidence <$> f !! "word_count"
            = Some (VInt (Z.of_nat (length (str_split text_lower)))))
    (_calculate_derived_fields extracted text_lower include_confidence)
  ∧ (extracted !! "fees" = None ∨ extracted !! "loan_amount" = None →
     ∃ f, _calculate_derived_fields extracted text_lower include_confidence = Ok f
          ∧ f !! "fee_percentage" = extracted !! "fee_percentage").
Proof.
  split.
  - pose proof (derived_fields_writes extracted text_lower include_confidence) as H.
    destruct (_calculate_derived_fields _ _ _) as [f|]; [|exact I].
    cbn [returns] in *. destruct H as [[Hframe Hdom] Hwc].
    repeat split; [|exact Hdom|exact Hwc].
    intros k Hfee Hwords. apply Hframe.
    rewrite !elem_of_cons, elem_of_nil. tauto.
  - intros Hmissing. unfold _calculate_derived_fields. rewrite !get_value_field.
    cbn [bind].
    assert (Hskip : negb (is_none (unwrap_result include_confidence
                                     (default VNone (extracted !! "fees"))))
                    && negb (is_none (unwrap_result include_confidence
                                        (default VNone (extracted !! "loan_amount"))))
                    = false).
    { destruct Hmissing as [-> | ->]; cbn; [reflexivity | apply andb_false_r]. }
    rewrite Hskip. cbn [bind]. eexists. split; [reflexivity|].
    apply set_computed_other. discriminate.
Qed.

Lemma positive_float_nonzero (f : float) :
  py_richcmp OpGt (VFloat f) (VInt 0) = Ok true → PrimFloat.eqb f 0 = false.
Proof.
  cbn. unfold int_float_compare. rewrite FloatAxioms.eqb_spec.
  destruct (Prim2SF f) as [s|s| |s m e]; cbn; try discriminate.
  - destruct s; [discriminate | reflexivity].
  - intros _. destruct s; reflexivity.
Qed.

Lemma float_times_hundred (q : value) :
  never_raises ZeroDivisionError (py_mul q (VInt 100)).
Proof.
  assert (H100 : to_float (NInt 100) = Ok 100%float) by (vm_compute; reflexivity).
  unfold py_mul, float_op. cbn [as_num].
  destruct (as_num q) as [[a|a]|]; rewrite ?H100; cbn [to_float bind];
    repeat match goal with
           | |- never_raises _ (Ok _) => exact I
           | |- never_raises _ (Raise _) => cbn; discriminate
           | |- never_raises _ (bind ?m _) => destruct m; cbn [bind]
           | |- never_raises _ (match ?m with _ => _ end) => destruct m
           end.
Qed.

Lemma never_raises_bind {A B : Type} (e : exn) (m : result A) (k : A → result B) :
  never_raises e m → (∀ a, never_raises e (k a)) → never_raises e (bind m k).
Proof. destruct m; cbn; [intros _ H; apply H | intros H _; exact H]. Qed.

Lemma truediv_float_nonzero (fees : value) (amount : float) :
  PrimFloat.eqb amount 0 = false →
  never_raises ZeroDivisionError (py_truediv fees (VFloat amount)).
Proof.
  intros Hnz. unfold py_truediv. cbn [as_num].
  destruct (as_num fees) as [[z|fa]|]; cbn [to_float bind]; [| |cbn; discriminate].
  - destruct (is_infinity (round_Z z)); cbn [bind]; [cbn; discriminate|].
    rewrite Hnz. exact I.
  - rewrite Hnz. exact I.
Qed.

Lemma guard_needs_positive (f : float) :
  py_richcmp OpGt (VFloat f) (VInt 0) = Ok true → PrimFloat.ltb 0 f = true.
Proof.
  cbn. unfold int_float_compare. rewrite ltb_spec.
  destruct (Prim2SF f) as [s|s| |s m e]; cbn; try discriminate.
  - destruct s; [discriminate | reflexivity].
  - destruct s; [|reflexivity]. intros H. exfalso.
    destruct (0 <=? e)%Z eqn:He.
    + assert (Hneg : (Z.neg m * 2 ^ e < 0)%Z).
      { apply Z.mul_neg_pos; [lia|]. apply Z.pow_pos_nonneg; lia. }
      destruct (Z.neg m * 2 ^ e)%Z; [lia | lia | discriminate H].
    + cbn in H. discriminate.
Qed.

(** X10 - With a float [loan_amount] (what a [money] or [float] extractor
    yields) the division of [fee_percentage] never raises
    [ZeroDivisionError], whatever [fees] is: the guard [loan_amount > 0]
    excludes both zeros and NaN.  When the guard fails, the function returns
    and [fee_percentage] is left as it was. *)
Theorem fee_percentage_never_divides_by_zero (extracted : facts) (text_lower : string)
    (include_confidence : bool) (amount : float) :
  get_value include_confidence extracted (VStr "loan_amount") VNone
  = Ok (VFloat amount) →
  never_raises ZeroDivisionError
    (_calculate_derived_fields extracted text_lower include_confidence)
  ∧ (PrimFloat.ltb 0 amount = false →
     ∃ f, _calculate_derived_fields extracted text_lower include_confidence = Ok f
          ∧ f !! "fee_percentage" = extracted !! "fee_percentage").
Proof.
  intros Hloan. unfold _calculate_derived_fields. rewrite Hloan.
  rewrite get_value_field. cbn [bind is_none negb andb].
  set (fees := unwrap_result _ (default VNone (extracted !! "fees"))).
  rewrite andb_true_r.
  destruct (negb (is_none fees)) eqn:Hfees; cbn [bind].
  2:{ split; [exact I|]. intros _. eexists. split; [reflexivity|].
      apply set_computed_other. discriminate. }
  destruct (py_richcmp OpGt (VFloat amount) (VInt 0)) as [[]|] eqn:Hgt; cbn [bind].
  - apply positive_float_nonzero in Hgt as Hnz. split.
    + apply never_raises_bind; [|intros f; exact I].
      apply never_raises_bind; [apply truediv_float_nonzero, Hnz|]. intros q.
      apply never_raises_bind; [apply float_times_hundred|]. intros pct. exact I.
    + intros Hle. apply guard_needs_positive in Hgt. congruence.
  - split; [exact I|]. intros _. eexists. split; [reflexivity|].
    apply set_computed_other. discriminate.
  - cbn in Hgt. discriminate.
Qed.

Lemma fee_percentage_never_divides_by_zero_witness :
  let extracted : facts := {[ "fees" := VFloat 3000; "loan_amount" := VFloat 0 ]} in
  get_value false extracted (VStr "loan_amount") VNone = Ok (VFloat 0)
  ∧ never_raises ZeroDivisionError (_calculate_derived_fields extracted "no loan" false).
Proof.
  intros extracted.
  assert (H : get_value false extracted (VStr "loan_amount") VNone = Ok (VFloat 0))
    by reflexivity.
  split; [exact H|].
  apply (fee_percentage_never_divides_by_zero extracted "no loan" false 0 H).
Defined.

(** ** What [parse] always returns *)


Lemma dict_set_keys {A : Type} (k : string) (x : A) (d : list (string * A)) :
  ∀ k', k' ∈ map fst (dict_set k x d) → k' = k ∨ k' ∈ map fst d.
Proof.
  intros k'. unfold dict_set. destruct (existsb _ d).
  - rewrite map_map. intros (kv & -> & Hin)%list_elem_of_fmap.
    destruct (String.eqb k kv.1); [left; reflexivity|].
    right. apply list_elem_of_fmap. exists kv. split; [reflexivity | exact Hin].
  - rewrite map_app. intros [H | H%list_elem_of_singleton]%elem_of_app;
      [right; exact H | left; exact H].
Qed.

Section ParseShape.

Context {regex : Type}
  (compiled : string → option regex)
  (re_search : regex → string → option re_match)
  (re_findall : regex → string → list findall_item)
  (py_str : value → string).

Let parse_field' := parse_field compiled re_search re_findall py_str.

(** The computed extractors collected by the first loop are extractors of
    the ontology. *)
Lemma parse_fields_computed_names (text text_lower : string) (include_confidence : bool)
    (extractors : list (string * extractor)) :
  ∀ st : facts * list (string * value) * list (string * extractor),
    returns (λ st', ∀ k, k ∈ map fst st'.2 → k ∈ map fst st.2 ∨ k ∈ map fst extractors)
      (foldM (parse_field' text text_lower include_confidence) extractors st).
Proof.
  induction extractors as [|item extractors IH]; intros st; cbn [foldM bind returns].
  - intros k Hk. left. exact Hk.
  - destruct (parse_field' text text_lower include_confidence st item) as [st'|] eqn:Hstep;
      cbn [bind returns]; [|exact I].
    specialize (IH st').
    destruct (foldM _ extractors st') as [st''|]; cbn [returns] in *; [|exact I].
    intros k Hk. cbn [map]. rewrite elem_of_cons.
    destruct (IH k Hk) as [Hin|Hin]; [|tauto].
    assert (Hstep' : k = item.1 ∨ k ∈ map fst st.2); [|tauto].
    revert Hstep Hin. unfold parse_field', parse_field.
    destruct st as [[extracted scores] computed], item as [field_name ex].
    destruct (type_is ex "computed" || ex_computed ex).
    + intros [= <-]. cbn [snd fst]. apply dict_set_keys.
    + destruct (_extract_field_with_confidence _ _ _ _ _ _ _) as [[]|]; cbn [bind];
        try discriminate; intros [= <-]; cbn [snd]; tauto.
Qed.

(** X11 - Whenever [parse] returns, the facts contain [word_count]; in
    confidence mode they also contain the dict [_confidence_scores]; and
    unless the ontology itself names an extractor [word_count], the value of
    [word_count] is the number of whitespace-separated words of the
    lowercased text. *)
Theorem parse_always_counts_words (text : string) (o : ontology)
    (include_confidence : bool) :
  returns
    (λ f : facts,
       is_Some (f !! "word_count")
       ∧ (include_confidence = true → ∃ d, f !! "_confidence_scores" = Some (VDict d))
       ∧ ("word_count" ∉ map fst (o_extractors o) →
          unwrap_result include_confidence <$> f !! "word_count"
          = Some (VInt (Z.of_nat (length (str_split (str_lower text)))))))
    (parse compiled re_search re_findall py_str text o include_confidence).
Proof.
  unfold parse. cbv zeta.
  pose proof (parse_fields_computed_names text (str_lower text) include_confidence
                (o_extractors o) (∅, [], [])) as Hnames.
  fold parse_field'.
  destruct (foldM _ (o_extractors o) (∅, [], [])) as [[[extracted scores] computed]|];
    cbn [bind returns] in *; [|exact I].
  pose proof (derived_fields_writes extracted (str_lower text) include_confidence) as Hd.
  destruct (_calculate_derived_fields extracted (str_lower text) include_confidence)
    as [derived|]; cbn [bind returns] in *; [|exact I].
  destruct Hd as [_ Hwc].
  destruct (calculate_computed_fields_writes derived (str_lower text) computed
              include_confidence) as [Hframe Hdom].
  set (settled := _calculate_computed_fields derived (str_lower text) computed
                    include_confidence) in *.
  assert (Hsome : is_Some (settled !! "word_count")).
  { apply Hdom. destruct (derived !! "word_count"); [eauto | discriminate Hwc]. }
  assert (Hvalue : "word_count" ∉ map fst (o_extractors o) →
                   unwrap_result include_confidence <$> settled !! "word_count"
                   = Some (VInt (Z.of_nat (length (str_split (str_lower text)))))).
  { intros Hno. rewrite Hframe; [exact Hwc|].
    intros [Hin|Hin]%Hnames; [inversion Hin | contradiction]. }
  destruct include_confidence.
  - rewrite lookup_insert_ne by discriminate. rewrite lookup_insert_eq.
    repeat split; [exact Hsome | eauto | exact Hvalue].
  - repeat split; [exact Hsome | discriminate | exact Hvalue].
Qed.




End ParseShape.


(** ** Formulas over field names *)

Section FieldFormulas.

Context (include_confidence : bool) (extracted : facts).

#[local] Ltac same_int :=
  match goal with
  | |- Ok (VInt ?a) = Ok (VInt ?b) =>
      apply (f_equal (λ z : Z, @Ok value (VInt z)) (x := a) (y := b))
  end.

Let gv : value → value → result value := get_value include_confidence extracted.
Let fact : string → value := fact_value include_confidence extracted.
Let eval (formula : value) : result value := _evaluate_formula formula extracted gv.

Lemma count_names_cons (p : string → bool) (k : string) (names : list string) :
  count_names p (k :: names) = ((if p k then 1 else 0) + count_names p names)%Z.
Proof.
  unfold count_names. rewrite filter_cons.
  destruct (p k); [rewrite decide_True by reflexivity | rewrite decide_False by discriminate];
    cbn [length]; lia.
Qed.

Lemma count_names_bounds (p q : string → bool) (names : list string) :
  (∀ k, p k = true → q k = true) →
  (0 <= count_names p names <= count_names q names)%Z
  ∧ (count_names q names <= Z.of_nat (length names))%Z.
Proof.
  intros Hpq. induction names as [|k names IH]; [unfold count_names; cbn; lia|].
  rewrite !count_names_cons. cbn [length].
  specialize (Hpq k). destruct (p k), (q k); try (specialize (Hpq eq_refl)); try discriminate; lia.
Qed.

Lemma count_true_fold (names : list string) :
  ∀ n : Z,
    foldM (λ (n : Z) (f : value),
             bind (gv f (VBool false))
               (λ v, Ok (if is_True v then n + 1 else n)%Z))
      (map VStr names) n
    = Ok (n + count_names (λ k, is_True (fact k)) names)%Z.
Proof.
  induction names as [|k names IH]; intros n; cbn [map foldM bind].
  - unfold count_names. cbn. f_equal. lia.
  - subst gv. cbn [get_value bind]. rewrite IH, count_names_cons. f_equal.
    subst fact. unfold fact_value.
    destruct (extracted !! k) as [v|]; cbn [default]; unfold id; [|cbn; lia].
    destruct (is_True (unwrap_result include_confidence v)); lia.
Qed.

Lemma count_fields_fold (names : list string) :
  ∀ n : Z,
    foldM (λ (n : Z) (f : value),
             bind (gv f VNone) (λ v, Ok (if is_none v then n else n + 1)%Z))
      (map VStr names) n
    = Ok (n + count_names (λ k, negb (is_none (fact k))) names)%Z.
Proof.
  induction names as [|k names IH]; intros n; cbn [map foldM bind].
  - unfold count_names. cbn. f_equal. lia.
  - subst gv. cbn [get_value bind]. rewrite IH, count_names_cons. f_equal.
    subst fact. unfold fact_value.
    destruct (is_none (unwrap_result include_confidence (default VNone (extracted !! k))));
      cbn [negb]; lia.
Qed.

Lemma evaluate_counts (names : list string) :
  eval (over_names "count_true" names)
  = Ok (VInt (count_names (λ k, is_True (fact k)) names))
  ∧ eval (over_names "count_fields" names)
    = Ok (VInt (count_names (λ k, negb (is_none (fact k))) names)).
Proof.
  split.
  - change (eval (over_names "count_true" names))
      with (bind (foldM (λ (n : Z) (f : value),
                           bind (gv f (VBool false))
                             (λ v, Ok (if is_True v then n + 1 else n)%Z))
                    (map VStr names) 0%Z)
              (λ n, Ok (VInt n))).
    rewrite count_true_fold. reflexivity.
  - change (eval (over_names "count_fields" names))
      with (bind (foldM (λ (n : Z) (f : value),
                           bind (gv f VNone)
                             (λ v, Ok (if is_none v then n else n + 1)%Z))
                    (map VStr names) 0%Z)
              (λ n, Ok (VInt n))).
    rewrite count_fields_fold. reflexivity.
Qed.

(** X13 - Over a list of field names, [count_true] is the number of fields
    whose fact is exactly [True] (a truthy fact such as [1] or a non-empty
    string does not count, and neither does a missing field) and
    [count_fields] is the number of fields whose fact is present; neither
    raises, and [0 <= count_true <= count_fields <= len(fields)]. *)
Theorem count_true_le_count_fields (names : list string) :
  let trues := count_names (λ k, is_True (fact k)) names in
  let present := count_names (λ k, negb (is_none (fact k))) names in
  eval (over_names "count_true" names) = Ok (VInt trues)
  ∧ eval (over_names "count_fields" names) = Ok (VInt present)
  ∧ (0 <= trues <= present)%Z ∧ (present <= Z.of_nat (length names))%Z.
Proof.
  intros trues present. destruct (evaluate_counts names) as [Ht Hp].
  split; [exact Ht|]. split; [exact Hp|].
  apply count_names_bounds. intros k. destruct (fact k) as [| [] | | | | | |];
    try discriminate; reflexivity.
Qed.

Lemma sum_fold_booleans (names : list string) :
  Forall (λ k, fact k = VNone ∨ ∃ b, fact k = VBool b) names →
  ∀ n : Z,
    foldM (λ (total f : value),
             bind (if is_str f then gv f (VInt 0) else Ok f)
               (λ val, if is_number val then py_add total val else Ok total))
      (map VStr names) (VInt n)
    = Ok (VInt (n + count_names (λ k, is_True (fact k)) names)).
Proof.
  intros Hall. induction Hall as [|k names Hk _ IH]; intros n; cbn [map foldM bind].
  - unfold count_names. cbn. same_int. lia.
  - subst gv. cbn [is_str get_value bind]. rewrite count_names_cons.
    subst fact. unfold fact_value in *.
    destruct (extracted !! k) as [v|]; cbn [default] in *; unfold id in *.
    + destruct Hk as [Hv | [b Hv]]; rewrite Hv; cbn [is_number as_num py_add bind is_True].
      * rewrite IH. same_int. lia.
      * rewrite IH. same_int. destruct b; cbn; lia.
    + cbn [unwrap_result is_number as_num py_add bind is_True].
      destruct include_confidence; cbn [unwrap_result is_number as_num py_add bind is_True];
        rewrite IH; same_int; lia.
Qed.

(** X14 - Booleans are numbers to [sum]: over fields whose facts are
    booleans or missing, [sum] adds one for every [True] and so returns the
    same integer as [count_true]. *)
Theorem sum_of_booleans_counts_true (names : list string) :
  Forall (λ k, fact k = VNone ∨ ∃ b, fact k = VBool b) names →
  eval (over_names "sum" names) = eval (over_names "count_true" names)
  ∧ eval (over_names "sum" names)
    = Ok (VInt (count_names (λ k, is_True (fact k)) names)).
Proof.
  intros Hall.
  assert (Hsum : eval (over_names "sum" names)
                 = Ok (VInt (count_names (λ k, is_True (fact k)) names))).
  { change (eval (over_names "sum" names))
      with (foldM (λ (total f : value),
                     bind (if is_str f then gv f (VInt 0) else Ok f)
                       (λ val, if is_number val then py_add total val else Ok total))
              (map VStr names) (VInt 0)).
    rewrite (sum_fold_booleans names Hall 0). reflexivity. }
  split; [|exact Hsum]. rewrite Hsum. symmetry.
  apply (evaluate_counts names).
Qed.

Lemma mapM_fields (self : value → result value) (dflt : value) (names : list string) :
  mapM (eval_item self (λ f, gv f dflt)) (map VStr names)
  = Ok (map (λ k, unwrap_result include_confidence (default dflt (extracted !! k))) names).
Proof.
  induction names as [|k names IH]; [reflexivity|].
  cbn [map mapM]. unfold eval_item at 1. cbn [is_dict]. subst gv. cbn [get_value bind].
  fold (mapM (eval_item self (λ f, get_value include_confidence extracted f dflt))).
  cbv beta in IH. rewrite IH. reflexivity.
Qed.

Lemma all_notnone_false (x : value) (values : list value) :
  x ∈ values → is_none x = false → py_truthy x = false →
  py_all_notnone values = false.
Proof.
  intros Hin Hx Hf. unfold py_all_notnone.
  induction Hin as [x values | x y values _ IH].
  - rewrite filter_cons. rewrite decide_True by (rewrite Hx; exact I).
    cbn [forallb]. rewrite Hf. reflexivity.
  - rewrite filter_cons. destruct (decide _); [|exact (IH Hx Hf)].
    cbn [forallb]. rewrite (IH Hx Hf). apply andb_false_r.
Qed.

Lemma all_notnone_of_none (values : list value) :
  Forall (λ v, v = VNone) values → py_all_notnone values = true.
Proof.
  intros H. unfold py_all_notnone. induction H as [|v values -> _ IH]; [reflexivity|].
  rewrite filter_cons. rewrite decide_False by (cbn; tauto). exact IH.
Qed.

(** X15 - A missing field falsifies [all] but is skipped by [and]: over a
    list of field names one of which was not extracted, [all] is [False],
    whereas [and] is the conjunction of the facts that are present, and
    [True] when none is. *)
Theorem missing_field_fails_all_not_and (names : list string) (k : string) :
  k ∈ names → extracted !! k = None →
  eval (over_names "all" names) = Ok (VBool false)
  ∧ eval (over_names "and" names) = Ok (VBool (py_all_notnone (map fact names)))
  ∧ (Forall (λ k', extracted !! k' = None) names →
     eval (over_names "and" names) = Ok (VBool true)).
Proof.
  intros Hin Hmissing.
  assert (Hand : eval (over_names "and" names)
                 = Ok (VBool (py_all_notnone (map fact names)))).
  { change (eval (over_names "and" names))
      with (bind (mapM (eval_item eval (λ f, operand gv f)) (map VStr names))
              (λ results, Ok (match results with
                              | [] => VNone
                              | _ => VBool (py_all_notnone results)
                              end))).
    assert (Hm : mapM (eval_item eval (λ f, operand gv f)) (map VStr names)
                 = Ok (map fact names)).
    { clear Hin. induction names as [|k' names IH]; [reflexivity|].
      cbn [map mapM]. unfold eval_item at 1. cbn [is_dict operand is_str].
      subst gv. cbn [get_value bind].
      fold (mapM (eval_item eval (λ f, operand (get_value include_confidence extracted) f))).
      rewrite IH. reflexivity. }
    rewrite Hm. cbn [bind]. destruct names; [inversion Hin | reflexivity]. }
  split; [|split; [exact Hand|]].
  - change (eval (over_names "all" names))
      with (bind (mapM (eval_item eval (λ f, gv f (VBool false))) (map VStr names))
              (λ values, Ok (VBool (py_all_notnone values)))).
    rewrite mapM_fields. cbn [bind]. do 2 f_equal.
    apply (all_notnone_false (VBool false)); [|reflexivity|reflexivity].
    apply list_elem_of_fmap. exists k. rewrite Hmissing. split; [|exact Hin].
    destruct include_confidence; reflexivity.
  - intros Hall. rewrite Hand. do 2 f_equal. apply all_notnone_of_none.
    apply Forall_fmap. eapply Forall_impl; [exact Hall|].
    intros k' Hk'. cbn. subst fact. unfold fact_value. rewrite Hk'.
    destruct include_confidence; reflexivity.
Qed.

End FieldFormulas.

Lemma sum_of_booleans_counts_true_witness :
  let extracted : facts := {[ "a" := VBool true; "b" := VBool false ]} in
  _evaluate_formula (over_names "sum" ["a"; "b"; "c"]) extracted (get_value false extracted)
  = Ok (VInt 1).
Proof.
  intros extracted.
  refine (proj2 (sum_of_booleans_counts_true false extracted ["a"; "b"; "c"] _)).
  constructor; [right; exists true; reflexivity|].
  constructor; [right; exists false; reflexivity|].
  constructor; [left; reflexivity | constructor].
Defined.

Lemma missing_field_fails_all_not_and_witness :
  let extracted : facts := {[ "a" := VBool true ]} in
  _evaluate_formula (over_names "all" ["a"; "b"]) extracted (get_value false extracted)
  = Ok (VBool false)
  ∧ _evaluate_formula (over_names "and" ["a"; "b"]) extracted (get_value false extracted)
    = Ok (VBool true).
Proof.
  intros extracted.
  destruct (missing_field_fails_all_not_and false extracted ["a"; "b"] "b")
    as (Hall & Hand & _).
  - apply (bool_decide_unpack _). vm_compute. exact I.
  - reflexivity.
  - split; [exact Hall | exact Hand].
Defined.

(** ** Numbers read from captured text *)

Lemma digit_not_comma (a : ascii) : is_digit a = true → Ascii.eqb a "," = false.
Proof.
  intros H%digit_cases. cbn in H.
  repeat (destruct H as [<-|H]; [reflexivity|]). contradiction.
Qed.

Lemma str_remove_commas (g : string) :
  str_all digit_or_comma g = true →
  str_all is_digit (str_remove "," g) = true
  ∧ (str_any is_digit g = true → str_remove "," g ≠ EmptyString)
  ∧ (str_any is_digit g = false → str_remove "," g = EmptyString).
Proof.
  induction g as [|a g IH]; cbn [str_all str_any str_remove].
  - intros _. repeat split; try discriminate; reflexivity.
  - intros [Ha Hg]%andb_true_iff. destruct (IH Hg) as (IH1 & IH2 & IH3).
    unfold digit_or_comma in Ha. destruct (is_digit a) eqn:Hd.
    + rewrite (digit_not_comma a Hd). cbn [str_all orb]. rewrite Hd, IH1.
      repeat split; try discriminate; reflexivity.
    + cbn [orb] in *. rewrite Ha. repeat split; assumption.
Qed.

Lemma digit_val_nonneg (a : ascii) : is_digit a = true → (0 <= digit_val a <= 9)%Z.
Proof.
  intros H%digit_cases. cbn in H.
  repeat (destruct H as [<-|H]; [vm_compute; split; discriminate|]). contradiction.
Qed.

Lemma scan_digits_all (s : string) :
  str_all is_digit s = true →
  ∀ (acc : Z) (n : nat), (0 <= acc)%Z →
    ∃ v, scan_digits acc n s = (v, (n + String.length s)%nat, EmptyString) ∧ (0 <= v)%Z.
Proof.
  induction s as [|a s IH]; cbn [str_all scan_digits String.length]; intros H acc n Hacc.
  - exists acc. rewrite Nat.add_0_r. split; [reflexivity | exact Hacc].
  - apply andb_true_iff in H as [Ha Hs]. rewrite Ha.
    pose proof (digit_val_nonneg a Ha).
    destruct (IH Hs (10 * acc + digit_val a)%Z (S n)) as (v & Hv & Hpos); [lia|].
    exists v. rewrite Hv. split; [f_equal; f_equal; lia | exact Hpos].
Qed.

Lemma scan_sign_digit (a : ascii) (r : string) :
  is_digit a = true → scan_sign (String a r) = (false, String a r).
Proof.
  intros H%digit_cases. cbn in H.
  repeat (destruct H as [<-|H]; [reflexivity|]). contradiction.
Qed.

Lemma digits_strip (s : string) : str_all is_digit s = true → str_strip s = s.
Proof.
  intros H. apply str_strip_id. apply (str_all_impl is_digit); [|exact H].
  intros a Ha. rewrite (digit_not_space a Ha). reflexivity.
Qed.

(** [int] of a non-empty string of digits. *)
Lemma py_int_digits (s : string) :
  s ≠ EmptyString → str_all is_digit s = true →
  ∃ z, py_int s = Ok z ∧ (0 <= z)%Z.
Proof.
  intros Hne Hs. unfold py_int. rewrite (digits_strip s Hs).
  destruct s as [|a r]; [contradiction|]. cbn [str_all] in Hs.
  apply andb_true_iff in Hs as [Ha Hr]. rewrite (scan_sign_digit a r Ha).
  cbn [scan_digitpart]. rewrite Ha.
  pose proof (digit_val_nonneg a Ha).
  destruct (scan_digits_all r Hr (10 * 0 + digit_val a)%Z 1) as (v & -> & Hv); [lia|].
  exists v. split; [reflexivity | exact Hv].
Qed.

Lemma lower_digit_not_word (a : ascii) (r : string) :
  is_digit a = true →
  String.eqb (str_lower (String a r)) "inf" = false
  ∧ String.eqb (str_lower (String a r)) "infinity" = false
  ∧ String.eqb (str_lower (String a r)) "nan" = false.
Proof.
  intros H%digit_cases. cbn in H.
  repeat (destruct H as [<-|H]; [repeat split; reflexivity|]). contradiction.
Qed.

(** [float] of a non-empty string of digits. *)
Lemma py_float_digits (s : string) :
  s ≠ EmptyString → str_all is_digit s = true → ∃ f, py_float s = Ok f.
Proof.
  intros Hne Hs. unfold py_float. rewrite (digits_strip s Hs).
  destruct s as [|a r]; [contradiction|]. cbn [str_all] in Hs.
  apply andb_true_iff in Hs as [Ha Hr]. rewrite (scan_sign_digit a r Ha).
  destruct (lower_digit_not_word a r Ha) as (-> & -> & ->). cbn [orb].
  cbn [scan_digitpart]. rewrite Ha.
  pose proof (digit_val_nonneg a Ha).
  destruct (scan_digits_all r Hr (10 * 0 + digit_val a)%Z 1) as (v & -> & Hv); [lia|].
  cbn. eauto.
Qed.

Lemma py_float_empty : py_float EmptyString = Raise ValueError.
Proof. reflexivity. Qed.

Lemma money_multiplier_float (f : float) (match_text : string) :
  ∃ r, py_mul (VFloat f) (VInt (money_multiplier match_text)) = Ok (VFloat r).
Proof.
  assert (Hk : ∀ z, In z [1000; 1000000; 1000000000; 1]%Z →
               ∃ r, to_float (NInt z) = Ok r).
  { intros z Hz. cbn in Hz.
    repeat (destruct Hz as [<-|Hz]; [vm_compute; eauto|]). contradiction. }
  assert (Hm : In (money_multiplier match_text) [1000; 1000000; 1000000000; 1]%Z).
  { unfold money_multiplier.
    repeat match goal with
           | |- context [if str_in ?x ?y then _ else _] => destruct (str_in x y)
           end; cbn; tauto. }
  destruct (Hk _ Hm) as [r Hr]. unfold py_mul, float_op. cbn [as_num].
  rewrite Hr. cbn [to_float bind]. eauto.
Qed.

(** X16 - When the first group of a numeric pattern captured only digits
    and commas (what [([\d,]+)] and [(\d{3})] of the built-in ontologies
    capture), [_parse_numeric] returns a number if the capture holds a
    digit, and raises [ValueError] if it holds commas only.  The bound on
    the length keeps [int] below its limit on the digits of a string. *)
Theorem parse_numeric_digits_and_commas (m : re_match) (original_text ty g : string)
    (rest : list (option string)) :
  m_groups m = Some g :: rest →
  str_all digit_or_comma g = true →
  (String.length g <= 4300)%nat →
  In ty ["int"; "float"; "percentage"; "money"] →
  if str_any is_digit g
  then ∃ v, _parse_numeric m original_text ty = Ok v ∧ is_number v = true
  else _parse_numeric m original_text ty = Raise ValueError.
Proof.
  intros Hg Hall _ Hty. unfold _parse_numeric, group1. rewrite Hg. cbn [bind].
  destruct (str_remove_commas g Hall) as (Hdigits & Hsome & Hnone).
  destruct (str_any is_digit g).
  - specialize (Hsome eq_refl).
    destruct (py_int_digits _ Hsome Hdigits) as (z & Hz & _).
    destruct (py_float_digits _ Hsome Hdigits) as (f & Hf).
    cbn in Hty. destruct Hty as [<-|[<-|[<-|[<-|[]]]]]; cbn [String.eqb Ascii.eqb Bool.eqb];
      rewrite ?Hz, ?Hf; cbn [bind]; eauto.
    destruct (money_multiplier_float f
                (str_lower (str_slice original_text (m_start m) (m_end m)))) as [r ->].
    eauto.
  - rewrite (Hnone eq_refl).
    cbn in Hty. destruct Hty as [<-|[<-|[<-|[<-|[]]]]]; reflexivity.
Qed.

Lemma parse_numeric_digits_and_commas_witness :
  ∃ v, _parse_numeric (mkMatch "fees of $1,250 apply" 8 14 [Some "1,250"])
         "Fees of $1,250 apply" "money" = Ok v
       ∧ is_number v = true.
Proof.
  apply (parse_numeric_digits_and_commas
           (mkMatch "fees of $1,250 apply" 8 14 [Some "1,250"])
           "Fees of $1,250 apply" "money" "1,250" []);
    [reflexivity | reflexivity | vm_compute; lia | cbn; tauto].
Defined.

(** [float] raises nothing but [ValueError]. *)
Lemma py_float_raises (s : string) : raises_at_most [ValueError] (py_float s).
Proof.
  unfold py_float.
  destruct (scan_sign (str_strip s)) as [neg r].
  destruct (_ || _); [exact I|]. destruct (String.eqb _ _); [exact I|].
  destruct (match scan_digitpart 0 r with
            | Some (v, _, r1) => (v, true, r1)
            | None => (0%Z, false, r)
            end) as [[ipart has_int] r1].
  destruct (match r1 with
            | String "." r' =>
                match scan_digitpart ipart r' with
                | Some (v, k, r2) => (v, k, true, r2)
                | None => (ipart, 0%nat, false, r')
                end
            | _ => (ipart, 0%nat, false, r1)
            end) as [[[mant nfrac] has_frac] r2].
  destruct (has_int || has_frac); [|left].
  destruct (scan_exponent r2); [exact I | left].
Qed.

(** X17 - [_convert_list_item] swallows every conversion failure but one:
    for the item type [int] the only exception that can escape is the
    [OverflowError] of [int(float(...))] on an infinity, which
    [except (ValueError, TypeError)] does not catch, and it does escape for
    the item "inf"; for every other item type the call always returns. *)
Theorem convert_list_item_errors (v item_type : string) :
  (if String.eqb item_type "int"
   then raises_at_most [OverflowError] (_convert_list_item v item_type)
   else ∃ r, _convert_list_item v item_type = Ok r)
  ∧ _convert_list_item "inf" "int" = Raise OverflowError.
Proof.
  split; [|reflexivity]. unfold _convert_list_item.
  pose proof (py_float_raises (str_remove "," (str_strip v))) as Hf.
  destruct (String.eqb item_type "int").
  - destruct (py_float _) as [f|e]; cbn [bind catch raises_at_most] in *.
    + unfold py_int_of_float. destruct (Prim2SF f); cbn; try exact I.
      left.
    + apply list_elem_of_singleton in Hf as ->. exact I.
  - destruct (String.eqb item_type "float"); [|eauto].
    destruct (py_float _) as [f|e]; cbn [bind catch raises_at_most] in *; [eauto|].
    apply list_elem_of_singleton in Hf as ->. eauto.
Qed.

(** ** Dates and datetimes in normal form *)

Lemma iso_datetime_shape_intro (y mo d h mi s : string) :
  digits 4 4 y = true → digits 2 2 mo = true → digits 2 2 d = true →
  digits 2 2 h = true → digits 2 2 mi = true → digits 2 2 s = true →
  iso_datetime_shape
    (y +:+ "-" +:+ mo +:+ "-" +:+ d +:+ "T" +:+ h +:+ ":" +:+ mi +:+ ":" +:+ s) = true.
Proof.
  intros (y1 & y2 & y3 & y4 & -> & Hy1 & Hy2 & Hy3 & Hy4)%digits_four
         (a1 & a2 & -> & Ha1 & Ha2)%digits_two
         (b1 & b2 & -> & Hb1 & Hb2)%digits_two
         (c1 & c2 & -> & Hc1 & Hc2)%digits_two
         (e1 & e2 & -> & He1 & He2)%digits_two
         (f1 & f2 & -> & Hf1 & Hf2)%digits_two.
  unfold iso_datetime_shape. simpl.
  rewrite Hy1, Hy2, Hy3, Hy4, Ha1, Ha2, Hb1, Hb2, Hc1, Hc2, He1, He2, Hf1, Hf2.
  reflexivity.
Qed.

Lemma strftime_datetime_shape (d : datetime) :
  valid_datetime d = true → (1000 <= dt_year d)%Z →
  iso_datetime_shape (strftime_datetime d) = true.
Proof.
  unfold valid_datetime. intros H Hyear.
  repeat (apply andb_true_iff in H as [H ?]).
  repeat match goal with
         | H : (_ <=? _)%Z = true |- _ => apply Z.leb_le in H
         end.
  pose proof (days_in_month_le (dt_year d) (dt_month d)).
  unfold strftime_datetime, strftime_date. rewrite !str_app_assoc.
  apply iso_datetime_shape_intro;
    [apply year_digits | apply fmt_02d_digits | apply fmt_02d_digits
     | apply fmt_02d_digits | apply fmt_02d_digits | apply fmt_02d_digits]; lia.
Qed.

Lemma match_classes_inv (cs : list (ascii → bool)) :
  ∀ (s t r : string),
    match_classes cs s = Some (t, r) →
    s = t +:+ r
    ∧ Forall2 (λ (c : ascii → bool) (a : ascii), c a = true) cs (list_ascii_of_string t).
Proof.
  induction cs as [|c cs IH]; intros s t r; cbn [match_classes].
  - intros [= <- <-]. split; [reflexivity | constructor].
  - destruct s as [|a s]; [discriminate|].
    destruct (c a) eqn:Hc; [|discriminate].
    destruct (match_classes cs s) as [[t' r']|] eqn:Hm; [|discriminate].
    intros [= <- <-]. destruct (IH _ _ _ Hm) as [-> Hall].
    split; [reflexivity|]. cbn [list_ascii_of_string]. constructor; assumption.
Qed.

Lemma str_length_list (t : string) :
  String.length t = length (list_ascii_of_string t).
Proof. induction t as [|a t IH]; [reflexivity|]. cbn. rewrite IH. reflexivity. Qed.

(** X18 - Whatever [_normalize_datetime] returns is a valid calendar date
    and time of day as [strftime] writes it: the month in 1..12, the day
    within the month (leap years included) and the time within
    00:00:00..23:59:59; from the year 1000 on it is nineteen characters of
    the shape [YYYY-MM-DDTHH:MM:SS].  (A year below 1000, which the text
    must write with leading zeros, is printed without them by glibc.) *)
Theorem normalize_datetime_is_valid (dt_str out : string) :
  _normalize_datetime dt_str = Some out →
  ∃ d, valid_datetime d = true ∧ out = strftime_datetime d
       ∧ ((1000 <= dt_year d)%Z →
          iso_datetime_shape out = true ∧ String.length out = 19%nat).
Proof.
  unfold _normalize_datetime. intros H.
  apply first_some_spec in H as (f & _ & Hf).
  destruct (strptime _ f) as [d|] eqn:Hd; [|discriminate].
  injection Hf as <-. pose proof (strptime_valid _ _ _ Hd) as Hv.
  exists d. split; [exact Hv|]. split; [reflexivity|].
  intros Hyear. pose proof (strftime_datetime_shape d Hv Hyear) as Hshape.
  split; [exact Hshape|].
  revert Hshape. unfold iso_datetime_shape. cbv zeta.
  destruct (match_classes _ (strftime_datetime d)) as [[t [|? ?]]|] eqn:Hm;
    try discriminate.
  intros _. apply match_classes_inv in Hm as [-> Hall]. rewrite str_app_nil_r.
  apply Forall2_length in Hall. rewrite (str_length_list t). cbn in Hall. congruence.
Qed.

Lemma normalize_datetime_is_valid_witness :
  ∃ d, valid_datetime d = true ∧ "2024-02-29T12:05:00" = strftime_datetime d
       ∧ ((1000 <= dt_year d)%Z →
          iso_datetime_shape "2024-02-29T12:05:00" = true
          ∧ String.length "2024-02-29T12:05:00" = 19%nat).
Proof.
  apply (normalize_datetime_is_valid "02/29/2024 12:05 PM"). vm_compute. reflexivity.
Defined.

Lemma in_range_single (c a : ascii) : in_range c c a = true → a = c.
Proof.
  unfold in_range, code. intros [H1 H2]%andb_true_iff.
  apply N.leb_le in H1, H2. rewrite <- (ascii_N_embedding a), <- (ascii_N_embedding c).
  f_equal. lia.
Qed.

Lemma iso_shape_inv (s : string) :
  iso_shape s = true →
  ∃ y mm dd, s = numeric_date y "-" mm "-" dd
             ∧ digits 4 4 y = true ∧ digits 2 2 mm = true ∧ digits 2 2 dd = true.
Proof.
  unfold iso_shape. cbv zeta.
  destruct (match_classes _ s) as [[t [|? ?]]|] eqn:Hm; try discriminate. intros _.
  apply match_classes_inv in Hm as [-> Hall]. rewrite str_app_nil_r.
  repeat match goal with
         | H : Forall2 _ (_ :: _) (list_ascii_of_string ?t) |- _ =>
             destruct t; cbn [list_ascii_of_string] in H; inversion H; clear H; subst
         | H : Forall2 _ [] (list_ascii_of_string ?t) |- _ =>
             destruct t; cbn [list_ascii_of_string] in H; inversion H; clear H
         end.
  repeat match goal with
         | H : in_range _ _ _ = true |- _ => apply in_range_single in H; subst
         end.
  match goal with
  | |- ∃ y mm dd, String ?a (String ?b (String ?c (String ?d (String _ (String ?e
          (String ?f (String _ (String ?g (String ?h EmptyString))))))))) = _ ∧ _ =>
      exists (String a (String b (String c (String d EmptyString)))),
             (String e (String f EmptyString)), (String g (String h EmptyString))
  end.
  split; [reflexivity|]. unfold digits. cbn [str_all String.length].
  repeat match goal with H : is_digit _ = true |- _ => rewrite H; clear H end.
  repeat split; reflexivity.
Qed.

Lemma two_digit_roundtrip (s : string) (z : Z) :
  digits 2 2 s = true → py_int s = Ok z → fmt_02d z = s.
Proof.
  intros (a & b & -> & Ha%digit_cases & Hb%digit_cases)%digits_two H.
  cbn in Ha, Hb.
  repeat (destruct Ha as [<-|Ha]); try contradiction;
    repeat (destruct Hb as [<-|Hb]); try contradiction;
    vm_compute in H; injection H as <-; reflexivity.
Qed.

(** X19 - Under the explicit format [%Y-%m-%d], [_normalize_date] is the
    identity on every text of the shape [YYYY-MM-DD]: normalising a
    normalised date changes nothing.  The fields are not checked against the
    calendar on this path, so a text such as "2024-13-45" is returned as it
    is, whereas the [strptime] fallback would reject it. *)
Theorem normalize_date_iso_fixed_point (s : string) :
  iso_shape s = true → _normalize_date s (Some "%Y-%m-%d") = Some s.
Proof.
  intros (y & mm & dd & -> & Hy & Hm & Hd)%iso_shape_inv.
  assert (Hm' : digits 1 2 mm = true).
  { unfold digits in *. apply andb_true_iff in Hm as [[Hm1 Hm2]%andb_true_iff Hm3].
    apply Nat.leb_le in Hm2. rewrite Hm1, Hm3. cbn [andb].
    apply andb_true_iff. split; [apply Nat.leb_le; lia | reflexivity]. }
  assert (Hd' : digits 1 2 dd = true).
  { unfold digits in *. apply andb_true_iff in Hd as [[Hd1 Hd2]%andb_true_iff Hd3].
    apply Nat.leb_le in Hd2. rewrite Hd1, Hd3. cbn [andb].
    apply andb_true_iff. split; [apply Nat.leb_le; lia | reflexivity]. }
  destruct (normalize_iso_form y mm dd "-" "-" Hy Hm' Hd' eq_refl eq_refl)
    as (zm & zd & Hzm & Hzd & -> & _).
  rewrite (two_digit_roundtrip mm zm Hm Hzm), (two_digit_roundtrip dd zd Hd Hzd).
  reflexivity.
Qed.

Lemma normalize_date_iso_fixed_point_witness :
  _normalize_date "2024-13-45" (Some "%Y-%m-%d") = Some "2024-13-45"
  ∧ _normalize_date "2024-13-45" None = None.
Proof.
  split; [|vm_compute; reflexivity].
  apply (normalize_date_iso_fixed_point "2024-13-45"). reflexivity.
Defined.

(** ** Enum and list extraction *)



Section EnumAndList.

Context {regex : Type}
  (compiled : string → option regex)
  (re_search : regex → string → option re_match)
  (re_findall : regex → string → list findall_item).


Lemma convert_results_not_none (item_type : string) (matches : list findall_item) :
  ∀ results : list value,
    Forall (λ x, is_none x = false) results →
    returns (Forall (λ x, is_none x = false))
      (foldM (λ (results : list value) (m : findall_item),
                let v := match m with
                         | FStr x => Some x
                         | FTuple (x :: _) => Some x
                         | FTuple [] => None
                         end in
                match v with
                | Some x =>
                    if String.eqb x EmptyString then Ok results
                    else bind (_convert_list_item x item_type) (λ converted,
                           Ok (if is_none converted then results
                               else results ++ [converted]))
                | None => Ok results
                end) matches results).
Proof.
  induction matches as [|m matches IH]; intros results Hres; cbn [foldM bind returns].
  - exact Hres.
  - destruct (match m with
              | FStr x => Some x
              | FTuple (x :: _) => Some x
              | FTuple [] => None
              end) as [x|]; cbn [bind]; [|apply IH, Hres].
    destruct (String.eqb x EmptyString); cbn [bind]; [apply IH, Hres|].
    destruct (_convert_list_item x item_type) as [converted|]; cbn [bind returns];
      [|exact I].
    apply IH. destruct (is_none converted) eqn:Hc; [exact Hres|].
    apply Forall_app. split; [exact Hres|]. constructor; [exact Hc | constructor].
Qed.

(** X21 - A list extractor never yields an empty list and never a list
    with a [None] item: [_extract_list] returns [None] or a non-empty list
    of items none of which is [None]. *)
Theorem extract_list_never_empty (text text_lower : string) (ex : extractor) :
  returns
    (λ v, v = VNone
          ∨ ∃ l, v = VList l ∧ l ≠ [] ∧ Forall (λ x, is_none x = false) l)
    (_extract_list compiled re_findall text text_lower ex).
Proof.
  unfold _extract_list. cbv zeta.
  assert (Hfound :
    returns (Forall (λ x, is_none x = false))
      (match compiled_pattern_of compiled ex with
       | Some c =>
           foldM (λ (results : list value) (m : findall_item),
                    let v := match m with
                             | FStr x => Some x
                             | FTuple (x :: _) => Some x
                             | FTuple [] => None
                             end in
                    match v with
                    | Some x =>
                        if String.eqb x EmptyString then Ok results
                        else bind (_convert_list_item x (ex_item_type ex))
                               (λ converted,
                                  Ok (if is_none converted then results
                                      else results ++ [converted]))
                    | None => Ok results
                    end)
             (re_findall c (if String.eqb (ex_item_type ex) "string"
                            then text_lower else text)) []
       | None => Ok []
       end)).
  { destruct (compiled_pattern_of compiled ex);
      [apply convert_results_not_none|]; constructor. }
  cbv zeta in Hfound.
  destruct (match compiled_pattern_of compiled ex with Some _ => _ | None => _ end)
    as [results|]; cbn [bind returns] in *; [|exact I].
  destruct results as [|r results].
  - destruct (filter _ (ex_keywords ex)) as [|kw kws]; cbn [map]; [left; reflexivity|].
    right. eexists. split; [reflexivity|]. split; [discriminate|].
    constructor; [reflexivity|]. apply Forall_fmap, Forall_true. reflexivity.
  - right. eexists. split; [reflexivity|]. split; [discriminate | exact Hfound].
Qed.

End EnumAndList.


(** ** Confidence mode only wraps the values *)

(** Induction on values, through lists, dicts and records. *)
Lemma value_induction (P : value → Prop) :
  P VNone → (∀ b, P (VBool b)) → (∀ z, P (VInt z)) → (∀ f, P (VFloat f)) →
  (∀ s, P (VStr s)) →
  (∀ l, Forall P l → P (VList l)) →
  (∀ d, Forall (λ kv : string * value, P kv.2) d → P (VDict d)) →
  (∀ v c s t, P v → P (VResult v c s t)) →
  ∀ v, P v.
Proof.
  intros HNone HBool HInt HFloat HStr HList HDict HResult.
  fix IH 1. intros [ |b|z|f|s|l|d|v c s t].
  - exact HNone.
  - apply HBool.
  - apply HInt.
  - apply HFloat.
  - apply HStr.
  - apply HList. induction l as [|x l IHl]; constructor; [apply IH | exact IHl].
  - apply HDict. induction d as [|[k x] d IHd]; constructor; [apply IH | exact IHd].
  - apply HResult, IH.
Qed.

Lemma unwrap_false (v : value) : unwrap_result false v = v.
Proof. destruct v; reflexivity. Qed.

Lemma bind_ext {A B : Type} (m : result A) (k1 k2 : A → result B) :
  (∀ a, k1 a = k2 a) → bind m k1 = bind m k2.
Proof. intros H. destruct m; [apply H | reflexivity]. Qed.

Lemma mapM_cons {A B : Type} (f : A → result B) (x : A) (l : list A) :
  mapM f (x :: l) = bind (f x) (λ y, bind (mapM f l) (λ ys, Ok (y :: ys))).
Proof. reflexivity. Qed.

Lemma foldM_cons {A B : Type} (f : B → A → result B) (x : A) (l : list A) (acc : B) :
  foldM f (x :: l) acc = bind (f acc x) (foldM f l).
Proof. reflexivity. Qed.

Lemma mapM_ext {A B : Type} (f g : A → result B) (l : list A) :
  Forall (λ x, f x = g x) l → mapM f l = mapM g l.
Proof.
  intros H. induction H as [|x l Hx _ IH]; [reflexivity|].
  rewrite !mapM_cons, Hx, IH. reflexivity.
Qed.

Lemma foldM_ext {A B : Type} (f g : B → A → result B) (l : list A) :
  (∀ acc x, f acc x = g acc x) → ∀ acc, foldM f l acc = foldM g l acc.
Proof.
  intros H. induction l as [|x l IH]; intros acc; [reflexivity|].
  rewrite !foldM_cons, H. apply bind_ext, IH.
Qed.

Section EvaluationAgrees.

Context (e1 e2 : facts) (gv1 gv2 : value → value → result value).
Context (Hgv : ∀ f d, In d formula_defaults → gv1 f d = gv2 f d).

Let self1 : value → result value := λ f, _evaluate_formula f e1 gv1.
Let self2 : value → result value := λ f, _evaluate_formula f e2 gv2.

Lemma operand_agrees (a : value) : operand gv1 a = operand gv2 a.
Proof. unfold operand. destruct (is_str a); [apply Hgv; left|]; reflexivity. Qed.

Lemma eval_item_agrees (leaf1 leaf2 : value → result value) (x : value) :
  self1 x = self2 x → leaf1 x = leaf2 x →
  eval_item self1 leaf1 x = eval_item self2 leaf2 x.
Proof. intros Hs Hl. unfold eval_item. destruct (is_dict x); assumption. Qed.

Lemma eval_items_agree (leaf1 leaf2 : value → result value) (l : list value) :
  Forall (λ x, self1 x = self2 x) l → (∀ x, leaf1 x = leaf2 x) →
  mapM (eval_item self1 leaf1) l = mapM (eval_item self2 leaf2) l.
Proof.
  intros Hl Hleaf. apply mapM_ext. eapply Forall_impl; [exact Hl|].
  intros x Hx. apply eval_item_agrees; [exact Hx | apply Hleaf].
Qed.

(** The sub-formulas of [args] evaluate alike. *)
Let args_agree (args : value) : Prop :=
  self1 args = self2 args
  ∧ ∀ l, args = VList l → Forall (λ x, self1 x = self2 x) l.

Lemma over_fields_agrees (leaf1 leaf2 : value → result value) (args : value) :
  args_agree args → (∀ x, leaf1 x = leaf2 x) →
  over_fields self1 leaf1 args = over_fields self2 leaf2 args.
Proof.
  intros [Hself Hlist] Hleaf. unfold over_fields.
  destruct args; try (rewrite (eval_item_agrees leaf1 leaf2 _ Hself (Hleaf _)); reflexivity).
  apply eval_items_agree; [apply Hlist; reflexivity | exact Hleaf].
Qed.

Lemma over_args_agrees (args : value) :
  args_agree args → over_args self1 gv1 args = over_args self2 gv2 args.
Proof.
  intros [_ Hlist]. unfold over_args.
  destruct args;
    try (apply bind_ext; intros items; apply mapM_ext, Forall_forall;
         intros x _; apply operand_agrees).
  apply eval_items_agree; [apply Hlist; reflexivity | apply operand_agrees].
Qed.

Lemma if_args_agrees (args : value) :
  args_agree args → if_args self1 gv1 args = if_args self2 gv2 args.
Proof.
  intros [_ Hlist]. unfold if_args. apply bind_ext. intros n.
  destruct (n =? 3)%Z; [|reflexivity].
  assert (Hcond :
    match args with
    | VList (condition :: _) => eval_item self1 (operand gv1) condition
    | _ => bind (py_getitem args 0) (operand gv1)
    end
    = match args with
      | VList (condition :: _) => eval_item self2 (operand gv2) condition
      | _ => bind (py_getitem args 0) (operand gv2)
      end).
  { destruct args as [ | | | | |[|condition l]| | ];
      try (apply bind_ext; intros x; apply operand_agrees).
    specialize (Hlist _ eq_refl). inversion Hlist; subst.
    apply eval_item_agrees; [assumption | apply operand_agrees]. }
  rewrite Hcond. apply bind_ext. intros cond_result.
  destruct (py_truthy cond_result); apply bind_ext; intros x; apply operand_agrees.
Qed.

Lemma compare_args_agrees (c : cmpop) (args : value) :
  compare_args gv1 c args = compare_args gv2 c args.
Proof.
  unfold compare_args. apply bind_ext. intros n. destruct (n =? 2)%Z; [|reflexivity].
  apply bind_ext. intros a0. rewrite operand_agrees. apply bind_ext. intros left.
  apply bind_ext. intros a1. rewrite operand_agrees. reflexivity.
Qed.

Lemma evaluate_dict_agrees (op : string) (args : value) :
  args_agree args →
  self1 (VDict [(op, args)]) = self2 (VDict [(op, args)]).
Proof.
  intros Hargs. unfold self1, self2. cbn [_evaluate_formula].
  fold self1 self2.
  repeat match goal with
         | |- (if ?b then _ else _) = (if ?b then _ else _) => destruct b
         | |- match ?o with Some _ => _ | None => _ end
              = match ?o with Some _ => _ | None => _ end => destruct o
         end.
  all: try reflexivity.
  all: try (apply compare_args_agrees).
  all: try (apply bind_ext; intros n; destruct (2 <=? n)%Z; [|reflexivity]).
  all: try (f_equal; apply foldM_ext; intros acc x; rewrite Hgv by (cbn; tauto);
            reflexivity).
  all: try (f_equal; apply over_fields_agrees; [exact Hargs|];
            intros x; first [apply operand_agrees | apply Hgv; cbn; tauto]).
  all: try (rewrite (over_args_agrees args Hargs); reflexivity).
  all: try (apply (if_args_agrees args Hargs)).
  - apply foldM_ext. intros total f. destruct (is_str f); [|reflexivity].
    rewrite Hgv by (cbn; tauto). reflexivity.
  - f_equal. apply eval_item_agrees; [apply Hargs | apply operand_agrees].
Qed.

Lemma evaluate_agrees (formula : value) : self1 formula = self2 formula.
Proof.
  enough (H : self1 formula = self2 formula
              ∧ ∀ l, formula = VList l → Forall (λ x, self1 x = self2 x) l)
    by apply H.
  induction formula as [ |b|z|f|s|l IH|d IH|v c s t IH] using value_induction;
    try (split; [reflexivity | discriminate]).
  - split; [reflexivity|]. intros l' [= <-].
    eapply Forall_impl; [exact IH|]. intros x [Hx _]. exact Hx.
  - split; [|discriminate].
    destruct d as [|[op args] [|? ?]]; try reflexivity.
    apply evaluate_dict_agrees. inversion IH; subst. assumption.
Qed.

End EvaluationAgrees.

Lemma get_value_unwrap (extracted : facts) (field dflt : value) :
  In dflt formula_defaults →
  get_value true extracted field dflt
  = get_value false (unwrap_facts extracted) field dflt.
Proof.
  intros Hd. unfold get_value, unwrap_facts.
  assert (Hplain : unwrap_result true dflt = dflt ∧ unwrap_result false dflt = dflt).
  { cbn in Hd. destruct Hd as [<-|[<-|[<-|[]]]]; split; reflexivity. }
  destruct Hplain as [Ht Hf].
  destruct field; try (destruct (py_hashable _); rewrite ?Ht, ?Hf; reflexivity).
  rewrite lookup_fmap. destruct (extracted !! s) as [x|]; cbn [fmap option_fmap option_map default];
    unfold id; [rewrite unwrap_false | rewrite Ht, Hf]; reflexivity.
Qed.

Lemma evaluate_unwrap (extracted : facts) (formula : value) :
  _evaluate_formula formula extracted (get_value true extracted)
  = _evaluate_formula formula (unwrap_facts extracted)
      (get_value false (unwrap_facts extracted)).
Proof. apply evaluate_agrees. intros f d Hd. apply get_value_unwrap, Hd. Qed.

Lemma set_computed_unwrap_facts (extracted : facts) (field : string) (v : value) :
  unwrap_facts (set_computed true extracted field v)
  = set_computed false (unwrap_facts extracted) field v.
Proof. unfold unwrap_facts, set_computed. rewrite fmap_insert. reflexivity. Qed.

Lemma set_default_unwrap_facts (extracted : facts) (field : string) (v : value) :
  unwrap_facts (set_default true extracted field v)
  = set_default false (unwrap_facts extracted) field v.
Proof.
  unfold set_default. destruct (is_none v); [reflexivity|].
  apply set_computed_unwrap_facts.
Qed.

Lemma settle_field_unwrap (computed_names : gset string) (extracted : facts)
    (done : list string) (item : string * extractor) :
  settle_field false computed_names (unwrap_facts extracted, done) item
  = (unwrap_facts (settle_field true computed_names (extracted, done) item).1,
     (settle_field true computed_names (extracted, done) item).2).
Proof.
  destruct item as [field ex]. unfold settle_field.
  destruct (negb (py_truthy (ex_formula ex))); cbn [fst snd];
    [rewrite set_default_unwrap_facts; reflexivity|].
  replace (dom (unwrap_facts extracted)) with (dom extracted)
    by (unfold unwrap_facts; rewrite dom_fmap_L; reflexivity).
  destruct (bool_decide _); [reflexivity|].
  rewrite <- evaluate_unwrap.
  destruct (_evaluate_formula _ _ _) as [r|e]; cbn [fst snd].
  - destruct (negb (is_none r));
      [rewrite set_computed_unwrap_facts | rewrite set_default_unwrap_facts]; reflexivity.
  - rewrite set_default_unwrap_facts. reflexivity.
Qed.

Lemma settle_fold_unwrap (computed_names : gset string)
    (remaining : list (string * extractor)) :
  ∀ (extracted : facts) (done : list string),
    foldl (settle_field false computed_names) (unwrap_facts extracted, done) remaining
    = (unwrap_facts
         (foldl (settle_field true computed_names) (extracted, done) remaining).1,
       (foldl (settle_field true computed_names) (extracted, done) remaining).2).
Proof.
  induction remaining as [|item remaining IH]; intros extracted done; [reflexivity|].
  cbn [foldl]. rewrite settle_field_unwrap.
  destruct (settle_field true computed_names (extracted, done) item) as [extracted' done'].
  apply IH.
Qed.

Lemma settle_pass_unwrap (computed_names : gset string)
    (remaining : list (string * extractor)) (extracted : facts) :
  settle_pass false computed_names remaining (unwrap_facts extracted)
  = (unwrap_facts (settle_pass true computed_names remaining extracted).1,
     (settle_pass true computed_names remaining extracted).2).
Proof.
  unfold settle_pass. rewrite settle_fold_unwrap.
  destruct (foldl (settle_field true computed_names) (extracted, []) remaining).
  reflexivity.
Qed.

Lemma settle_loop_unwrap (computed_names : gset string) (max_iterations : nat) :
  ∀ (fuel iteration : nat) (remaining : list (string * extractor)) (extracted : facts),
    (settle_loop fuel false computed_names max_iterations iteration remaining
       (unwrap_facts extracted)).1.1
    = unwrap_facts
        (settle_loop fuel true computed_names max_iterations iteration remaining
           extracted).1.1.
Proof.
  induction fuel as [|fuel IH]; intros iteration remaining extracted; [reflexivity|].
  cbn [settle_loop]. destruct (negb _ && _); [|reflexivity].
  rewrite settle_pass_unwrap.
  destruct (settle_pass true computed_names remaining extracted) as [extracted' remaining'].
  apply IH.
Qed.

Lemma computed_fields_unwrap (extracted : facts) (text_lower : string)
    (computed_extractors : list (string * extractor)) :
  _calculate_computed_fields (unwrap_facts extracted) text_lower computed_extractors false
  = unwrap_facts
      (_calculate_computed_fields extracted text_lower computed_extractors true).
Proof. apply settle_loop_unwrap. Qed.

Lemma derived_fields_unwrap (extracted : facts) (text_lower : string) :
  _calculate_derived_fields (unwrap_facts extracted) text_lower false
  = bind (_calculate_derived_fields extracted text_lower true)
      (λ f, Ok (unwrap_facts f)).
Proof.
  unfold _calculate_derived_fields.
  rewrite <- !get_value_unwrap by (left; reflexivity).
  destruct (get_value true extracted (VStr "fees") VNone) as [fees|]; [|reflexivity].
  destruct (get_value true extracted (VStr "loan_amount") VNone) as [loan|];
    [|reflexivity].
  cbn [bind].
  destruct (negb (is_none fees) && negb (is_none loan)); cbn [bind];
    [|rewrite set_computed_unwrap_facts; reflexivity].
  destruct (py_richcmp OpGt loan (VInt 0)) as [[]|]; cbn [bind];
    [|rewrite set_computed_unwrap_facts; reflexivity|reflexivity].
  destruct (py_truediv fees loan) as [q|]; cbn [bind]; [|reflexivity].
  destruct (py_mul q (VInt 100)) as [pct|]; cbn [bind]; [|reflexivity].
  rewrite !set_computed_unwrap_facts. reflexivity.
Qed.

Section ModesAgree.

Context {regex : Type}
  (compiled : string → option regex)
  (re_search : regex → string → option re_match)
  (re_findall : regex → string → list findall_item)
  (py_str : value → string).

Let parse_field' := parse_field compiled re_search re_findall py_str.

Lemma parse_field_unwrap (text text_lower : string) (extracted : facts)
    (scores : list (string * value)) (computed : list (string * extractor))
    (item : string * extractor) :
  parse_field' text text_lower false (unwrap_facts extracted, scores, computed) item
  = bind (parse_field' text text_lower true (extracted, scores, computed) item)
      (λ st, Ok (unwrap_facts st.1.1, st.1.2, st.2)).
Proof.
  destruct item as [field_name ex]. unfold parse_field', parse_field.
  destruct (type_is ex "computed" || ex_computed ex); [reflexivity|].
  destruct (_extract_field_with_confidence _ _ _ _ _ _ _) as [[ | | | | | | |v c s t]|];
    try reflexivity.
  cbn [bind fst snd]. unfold unwrap_facts. rewrite fmap_insert. reflexivity.
Qed.

Lemma parse_fields_unwrap (text text_lower : string)
    (extractors : list (string * extractor)) :
  ∀ (extracted : facts) (scores : list (string * value))
    (computed : list (string * extractor)),
    foldM (parse_field' text text_lower false) extractors
      (unwrap_facts extracted, scores, computed)
    = bind (foldM (parse_field' text text_lower true) extractors
              (extracted, scores, computed))
        (λ st, Ok (unwrap_facts st.1.1, st.1.2, st.2)).
Proof.
  induction extractors as [|item extractors IH]; intros extracted scores computed;
    [reflexivity|].
  rewrite !foldM_cons, parse_field_unwrap.
  destruct (parse_field' text text_lower true (extracted, scores, computed) item)
    as [[[extracted' scores'] computed']|]; cbn [bind fst snd]; [apply IH | reflexivity].
Qed.

(** X22 - Confidence mode only wraps the values: [parse] with
    [include_confidence=True] returns if and only if the plain [parse]
    does, raises the same exception when it does not, and every fact of the
    plain result is the [value] of the corresponding record of the
    confidence result (and is absent when that is absent), the key
    [_confidence_scores] apart.  Derived and computed fields are therefore
    calculated from the same numbers in both modes. *)
Theorem confidence_mode_only_wraps (text : string) (o : ontology) :
  match parse compiled re_search re_findall py_str text o true with
  | Ok with_confidence =>
      ∃ plain,
        parse compiled re_search re_findall py_str text o false = Ok plain
        ∧ ∀ k, k ≠ "_confidence_scores" →
               plain !! k = unwrap_result true <$> with_confidence !! k
  | Raise e => parse compiled re_search re_findall py_str text o false = Raise e
  end.
Proof.
  unfold parse. cbv zeta. fold parse_field'.
  pose proof (parse_fields_unwrap text (str_lower text) (o_extractors o) ∅ [] [])
    as Hplain.
  replace (unwrap_facts ∅) with (∅ : facts) in Hplain
    by (unfold unwrap_facts; rewrite fmap_empty; reflexivity).
  rewrite Hplain. clear Hplain.
  destruct (foldM (parse_field' text (str_lower text) true) (o_extractors o) (∅, [], []))
    as [[[extracted scores] computed]|]; cbn [bind fst snd]; [|reflexivity].
  rewrite derived_fields_unwrap.
  destruct (_calculate_derived_fields extracted (str_lower text) true) as [derived|];
    cbn [bind]; [|reflexivity].
  rewrite computed_fields_unwrap. eexists. split; [reflexivity|].
  intros k Hk. rewrite lookup_insert_ne by congruence.
  unfold unwrap_facts. apply lookup_fmap.
Qed.

End ModesAgree.
